(** * Kangaroo: a sandboxed expression evaluator

    A shallow embedding of the TypeScript sources of the evaluator: the
    type registry ([core/type-registry.ts]), the security validator, the
    tree-walking executor, the callback engine ([callbacks/operations.ts]),
    the template functions of the parser and the orchestrator
    ([core/evaluator.ts]), followed by the properties proved about them.

    Conventions of the embedding.
    - A JavaScript [Map] is an insertion-ordered association list ([JsMap]).
    - A string is a sequence of code units below 256 (Rocq's [string]).
    - A number is an IEEE-754 binary64 value (Rocq's primitive [float]).
    - Mutable object state (caches, counters, the global type registry) is
      threaded explicitly through a [World] record.
    - A computation returns an [outcome]: a value, a thrown [Error] with its
      message, or [Unmodelled] where the host runtime would do something the
      model does not describe (engine-specific text, calls of host functions).
      [Unmodelled] is never caught by a modelled [try]/[catch].
    - Wall-clock readings ([Date.now]) are not modelled: timing fields of
      results are left out and the timeout check never fires. *)

From Stdlib Require Import ZArith List String Ascii Bool Arith Lia DecimalString.
From Stdlib Require Import Floats.PrimFloat Floats.FloatOps Floats.SpecFloat.
From Stdlib Require Uint63.
Import ListNotations.
Open Scope list_scope.
Open Scope string_scope.

Set Implicit Arguments.
Set Warnings "-register-all".
Set Warnings "-automation".
Set Warnings "-notation-overridden".
Set Warnings "-abstract-large-number".

(* ================================================================== *)
(** * Strings *)
(* ================================================================== *)

Module Str.

Definition chars (s : string) : list ascii := list_ascii_of_string s.
Definition of_chars (l : list ascii) : string := string_of_list_ascii l.

Definition code (c : ascii) : nat := nat_of_ascii c.

(** The double quote and the backslash, built from their codes. *)
Definition dquote : ascii := ascii_of_nat 34.
Definition backslash : ascii := ascii_of_nat 92.

Definition of_nat (n : nat) : string := NilEmpty.string_of_uint (Nat.to_uint n).
Definition of_Z (z : Z) : string := NilZero.string_of_int (Z.to_int z).

(** [s.substring(0, n)] *)
Definition take (n : nat) (s : string) : string := String.substring 0 n s.

(** [s.slice(n)] for [0 <= n] *)
Fixpoint drop (n : nat) (s : string) : string :=
  match n, s with
  | O, _ => s
  | S n', String _ s' => drop n' s'
  | S _, EmptyString => EmptyString
  end.

(** ASCII lower-casing, the case folding of [toLowerCase] and of the [i] flag
    on code units below 128. *)
Definition lower_char (c : ascii) : ascii :=
  let n := code c in
  if ((65 <=? n) && (n <=? 90))%nat then ascii_of_nat (n + 32) else c.

Fixpoint lower (s : string) : string :=
  match s with
  | EmptyString => EmptyString
  | String c s' => String (lower_char c) (lower s')
  end.

(** [s.includes(needle)] *)
Fixpoint includes (needle s : string) : bool :=
  String.prefix needle s ||
  match s with
  | EmptyString => false
  | String _ s' => includes needle s'
  end.

(** White space as [String.prototype.trim] and the regular expression class
    [\s] see it, on code units below 256. *)
Definition is_space (c : ascii) : bool :=
  let n := code c in
  (((9 <=? n) && (n <=? 13)) || (n =? 32) || (n =? 160))%nat.

Fixpoint trim_start (s : string) : string :=
  match s with
  | String c s' => if is_space c then trim_start s' else s
  | EmptyString => EmptyString
  end.

Definition rev (s : string) : string := of_chars (List.rev_append (chars s) []).

Definition trim (s : string) : string := rev (trim_start (rev (trim_start s))).

(** [parts.join(sep)] *)
Fixpoint join (sep : string) (parts : list string) : string :=
  match parts with
  | [] => ""
  | [p] => p
  | p :: rest => p ++ sep ++ join sep rest
  end.

(** [n] copies of a character. *)
Fixpoint repeat (c : ascii) (n : nat) : string :=
  match n with
  | O => EmptyString
  | S n' => String c (repeat c n')
  end.

(** Code-unit order, the order of [Array.prototype.sort] without a comparator
    and of the relational operators on two strings. *)
Definition ltb (a b : string) : bool :=
  match String.compare a b with Lt => true | _ => false end.

Definition leb (a b : string) : bool :=
  match String.compare a b with Gt => false | _ => true end.

Fixpoint insert_sorted (x : string) (l : list string) : list string :=
  match l with
  | [] => [x]
  | y :: l' => if leb x y then x :: l else y :: insert_sorted x l'
  end.

(** [keys.sort()] *)
Definition sort (l : list string) : list string :=
  fold_right insert_sorted [] l.

(** [haystack.replace(/c/g, by)] for a one-character pattern. *)
Fixpoint replace_char (c : ascii) (by_ : string) (s : string) : string :=
  match s with
  | EmptyString => EmptyString
  | String d s' =>
      (if Ascii.eqb c d then by_ else String d EmptyString) ++ replace_char c by_ s'
  end.

End Str.

(* ================================================================== *)
(** * Insertion-ordered maps (JavaScript [Map]) *)
(* ================================================================== *)

Module JsMap.

Definition t (V : Type) : Type := list (string * V).

Definition empty {V} : t V := [].

Fixpoint get {V} (m : t V) (k : string) : option V :=
  match m with
  | [] => None
  | (k', v) :: m' => if String.eqb k k' then Some v else get m' k
  end.

Definition has {V} (m : t V) (k : string) : bool :=
  match get m k with Some _ => true | None => false end.

(** [m.set(k, v)]: an existing key keeps its place, a new key goes last. *)
Fixpoint set {V} (m : t V) (k : string) (v : V) : t V :=
  match m with
  | [] => [(k, v)]
  | (k', v') :: m' =>
      if String.eqb k k' then (k, v) :: m' else (k', v') :: set m' k v
  end.

Fixpoint delete {V} (m : t V) (k : string) : t V :=
  match m with
  | [] => []
  | (k', v') :: m' =>
      if String.eqb k k' then m' else (k', v') :: delete m' k
  end.

(** [m.keys().next().value] *)
Definition first_key {V} (m : t V) : option string :=
  match m with
  | [] => None
  | (k, _) :: _ => Some k
  end.

Definition keys {V} (m : t V) : list string := map fst m.

End JsMap.

(** The eviction step shared by the four caches of the sources
    ([setCached], [setTemplateCached]):
<<
    if (this.cacheSize >= this.maxCacheSize) {
      const firstKey = this.cache.keys().next().value;
      if (firstKey) { this.cache.delete(firstKey); this.cacheSize--; }
    }
    this.cache.set(key, value);
    this.cacheSize++;
>>
    The empty string is falsy, so a first key [""] is never evicted. *)
Definition cache_insert {V} (maxSize : nat) (cache : JsMap.t V) (size : nat)
    (key : string) (value : V) : JsMap.t V * nat :=
  let '(cache1, size1) :=
    if (maxSize <=? size)%nat then
      match JsMap.first_key cache with
      | Some firstKey =>
          if String.eqb firstKey "" then (cache, size)
          else (JsMap.delete cache firstKey, Nat.pred size)
      | None => (cache, size)
      end
    else (cache, size) in
  (JsMap.set cache1 key value, S size1).

(* ================================================================== *)
(** * Outcomes *)
(* ================================================================== *)

Inductive outcome (A : Type) : Type :=
| Ok (a : A)
| Throw (message : string)
| Unmodelled.

Arguments Ok {A} a.
Arguments Throw {A} message.
Arguments Unmodelled {A}.

Module Out.

Definition bind {A B} (x : outcome A) (f : A -> outcome B) : outcome B :=
  match x with
  | Ok a => f a
  | Throw m => Throw m
  | Unmodelled => Unmodelled
  end.

(** A host operation that the model may leave undescribed. *)
Definition host {A} (x : option A) : outcome A :=
  match x with
  | Some a => Ok a
  | None => Unmodelled
  end.

(** [try { body } catch (error) { handler(error.message) }] *)
Definition try_catch {A} (body : outcome A) (handler : string -> outcome A)
    : outcome A :=
  match body with
  | Throw m => handler m
  | other => other
  end.

End Out.

(* ================================================================== *)
(** * Values of the host language *)
(* ================================================================== *)

(** A plain object is its enumerable own properties, in enumeration order
    ([own]), and the other properties reachable by name ([proto]: the
    flattened prototype chain with the non-enumerable own properties).
    [VFunction] is a host function, named and never called by the model. *)
Inductive value : Type :=
| VUndefined
| VNull
| VBoolean (b : bool)
| VNumber (n : float)
| VString (s : string)
| VArray (elements : list value)
| VObject (own : list (string * value)) (proto : list (string * value))
| VFunction (name : string).

Definition Props : Type := list (string * value).

(** The caller-supplied variable context: always an object. *)
Record ExpressionContext : Type := mkContext {
  ctx_own : Props;
  ctx_proto : Props
}.

Definition context_value (c : ExpressionContext) : value :=
  VObject (ctx_own c) (ctx_proto c).

Module Js.

(** ** Objects *)

(** [key in obj] on an object *)
Definition obj_has (own proto : Props) (key : string) : bool :=
  JsMap.has own key || JsMap.has proto key.

(** [obj[key]] on an object *)
Definition obj_get (own proto : Props) (key : string) : value :=
  match JsMap.get own key with
  | Some v => v
  | None =>
      match JsMap.get proto key with
      | Some v => v
      | None => VUndefined
      end
  end.

(** [Object.prototype] as seen from an object literal. *)
Definition Object_prototype_methods : Props :=
  [ ("constructor", VFunction "Object");
    ("__defineGetter__", VFunction "Object.prototype.__defineGetter__");
    ("__defineSetter__", VFunction "Object.prototype.__defineSetter__");
    ("hasOwnProperty", VFunction "Object.prototype.hasOwnProperty");
    ("__lookupGetter__", VFunction "Object.prototype.__lookupGetter__");
    ("__lookupSetter__", VFunction "Object.prototype.__lookupSetter__");
    ("isPrototypeOf", VFunction "Object.prototype.isPrototypeOf");
    ("propertyIsEnumerable", VFunction "Object.prototype.propertyIsEnumerable");
    ("toString", VFunction "Object.prototype.toString");
    ("valueOf", VFunction "Object.prototype.valueOf");
    ("toLocaleString", VFunction "Object.prototype.toLocaleString") ].

Definition Object_prototype_object : value :=
  VObject [] (Object_prototype_methods ++ [("__proto__", VNull)])%list.

Definition Object_prototype : Props :=
  (Object_prototype_methods ++ [("__proto__", Object_prototype_object)])%list.

(** An object literal [{ k1: v1, ... }]. *)
Definition plain (own : Props) : value := VObject own Object_prototype.

Definition plain_context (own : Props) : ExpressionContext :=
  mkContext own Object_prototype.

(** ** [typeof], [Array.isArray], truthiness *)

Definition typeof (v : value) : string :=
  match v with
  | VUndefined => "undefined"
  | VNull => "object"
  | VBoolean _ => "boolean"
  | VNumber _ => "number"
  | VString _ => "string"
  | VArray _ => "object"
  | VObject _ _ => "object"
  | VFunction _ => "function"
  end.

Definition isArray (v : value) : bool :=
  match v with VArray _ => true | _ => false end.

(** [v == null] *)
Definition nullish (v : value) : bool :=
  match v with VUndefined | VNull => true | _ => false end.

Definition is_undefined (v : value) : bool :=
  match v with VUndefined => true | _ => false end.

Definition is_string (v : value) : bool :=
  match v with VString _ => true | _ => false end.

(** [Boolean(v)] *)
Definition truthy (v : value) : bool :=
  match v with
  | VUndefined | VNull => false
  | VBoolean b => b
  | VNumber n => negb (PrimFloat.is_zero n || PrimFloat.is_nan n)
  | VString s => negb (String.eqb s "")
  | VArray _ | VObject _ _ | VFunction _ => true
  end.

(** ** Numbers *)

Definition of_nat (n : nat) : float :=
  PrimFloat.of_uint63 (Uint63.of_Z (Z.of_nat n)).

Definition of_Z_magnitude (z : Z) : float :=
  PrimFloat.of_uint63 (Uint63.of_Z (Z.abs z)).

(** [Number::toString]: the shortest decimal digits [s] and exponent [n]
    with [s * 10^(n-k)] rounding to the number, then the layout rules. The
    arithmetic is exact, on integers. *)
Module NumberText.

Local Open Scope Z_scope.

(** [m * 2^e < 10^n] *)
Definition lt_pow10 (m e n : Z) : bool :=
  m * 2 ^ Z.max e 0 * 10 ^ Z.max (- n) 0 <? 10 ^ Z.max n 0 * 2 ^ Z.max (- e) 0.

Fixpoint adjust_up (fuel : nat) (m e n : Z) : Z :=
  match fuel with
  | O => n
  | S f => if lt_pow10 m e n then n else adjust_up f m e (n + 1)
  end.

Fixpoint adjust_down (fuel : nat) (m e n : Z) : Z :=
  match fuel with
  | O => n
  | S f => if lt_pow10 m e (n - 1) then adjust_down f m e (n - 1) else n
  end.

(** The [n] with [10^(n-1) <= m * 2^e < 10^n]. *)
Definition decimal_exponent (m e : Z) : Z :=
  let estimate := (Z.log2 m + e) * 30103 / 100000 in
  adjust_down 8 m e (adjust_up 8 m e estimate).

Record candidate : Type := mkCandidate {
  c_distance : Z;
  c_digits : Z;
  c_exponent : Z
}.

(** The closer of two candidates, the even one on a tie. *)
Definition better (a b : candidate) : candidate :=
  if c_distance a <? c_distance b then a
  else if c_distance b <? c_distance a then b
  else if Z.even (c_digits a) then a else b.

(** The candidates with [k] digits inside the rounding interval of
    [m * 2^e], then the first [k] that has one. *)
Definition shortest (m e : Z) : candidate :=
  let n0 := decimal_exponent m e in
  let Q := Z.max 0 (17 + 1 - n0) in
  let sh := Z.max 0 (- e) + 2 in
  let F := 2 ^ sh in
  let X := m * 2 ^ (e + sh) * 10 ^ Q in
  let boundary := (m =? 2 ^ 52) && (-1074 <? e) in
  let high := X + 2 ^ (e + sh - 1) * 10 ^ Q in
  let low :=
    X - (if boundary then 2 ^ (e + sh - 2) else 2 ^ (e + sh - 1)) * 10 ^ Q in
  let inside c :=
    if Z.even m then (low <=? c) && (c <=? high) else (low <? c) && (c <? high) in
  let candidates k :=
    flat_map
      (fun n =>
         let p := n - k in
         let unit := F * 10 ^ (p + Q) in
         let s0 := X / unit in
         flat_map
           (fun s =>
              if (10 ^ (k - 1) <=? s) && (s <? 10 ^ k) && inside (s * unit)
              then [mkCandidate (Z.abs (s * unit - X)) s n] else [])
           [s0; s0 + 1])
      [n0 - 1; n0; n0 + 1] in
  (fix search (ks : list Z) : candidate :=
     match ks with
     | [] => mkCandidate 0 0 0
     | k :: rest =>
         match candidates k with
         | [] => search rest
         | c :: cs => fold_left better cs c
         end
     end) [1; 2; 3; 4; 5; 6; 7; 8; 9; 10; 11; 12; 13; 14; 15; 16; 17].

Definition zeros (n : Z) : string := Str.repeat "0"%char (Z.to_nat n).

Definition layout (s n : Z) : string :=
  let D := Str.of_Z s in
  let k := Z.of_nat (String.length D) in
  if (k <=? n) && (n <=? 21) then (D ++ zeros (n - k))%string
  else if (0 <? n) && (n <=? 21) then
    (String.substring 0 (Z.to_nat n) D ++ "." ++
     String.substring (Z.to_nat n) (Z.to_nat (k - n)) D)%string
  else if (-6 <? n) && (n <=? 0) then ("0." ++ zeros (- n) ++ D)%string
  else
    let sign := if 0 <=? n - 1 then "+"%string else "-"%string in
    let exponent := (sign ++ Str.of_Z (Z.abs (n - 1)))%string in
    if k =? 1 then (D ++ "e" ++ exponent)%string
    else
      (String.substring 0 1 D ++ "." ++
       String.substring 1 (Z.to_nat (k - 1)) D ++ "e" ++ exponent)%string.

End NumberText.

(** [String(x)] on a number *)
Definition Number_toString (x : float) : string :=
  match Prim2SF x with
  | S754_nan => "NaN"
  | S754_infinity s => if s then "-Infinity" else "Infinity"
  | S754_zero _ => "0"
  | S754_finite s m e =>
      let c := NumberText.shortest (Z.pos m) e in
      (if s then "-" else "") ++
      NumberText.layout (NumberText.c_digits c) (NumberText.c_exponent c)
  end.

(** ** [String(v)] *)

Definition Object_prototype_toString : string := "Object.prototype.toString".

Definition Object_prototype_valueOf : string := "Object.prototype.valueOf".

(** The message of the host's [TypeError] for an object that none of its
    conversion methods turns into a primitive. *)
Definition cannot_convert : string := "Cannot convert object to primitive value".

(** [String(v)]. An object is converted by its [toString] when that is
    callable, and otherwise by its [valueOf]; [Object.prototype.toString]
    answers [[object Object]] and [Object.prototype.valueOf] answers the
    object itself, which is no primitive; when neither method gives a
    primitive the host throws a [TypeError]. An array joins the texts of its
    elements, left to right. Any other host function is not run, and the
    source text of a function is not kept: both are [Unmodelled]. *)
Fixpoint String_ (v : value) : outcome string :=
  match v with
  | VUndefined => Ok "undefined"
  | VNull => Ok "null"
  | VBoolean b => Ok (if b then "true" else "false")
  | VNumber n => Ok (Number_toString n)
  | VString s => Ok s
  | VArray l =>
      (fix join_elements (l : list value) : outcome string :=
         match l with
         | [] => Ok ""
         | x :: rest =>
             let element :=
               match x with
               | VUndefined | VNull => Ok ""
               | _ => String_ x
               end in
             match rest with
             | [] => element
             | _ :: _ =>
                 Out.bind element (fun a =>
                 Out.bind (join_elements rest) (fun b =>
                 Ok (a ++ "," ++ b)))
             end
         end) l
  | VObject own proto =>
      match obj_get own proto "toString" with
      | VFunction f =>
          if String.eqb f Object_prototype_toString
          then Ok "[object Object]" else Unmodelled
      | _ =>
          match obj_get own proto "valueOf" with
          | VFunction g =>
              if String.eqb g Object_prototype_valueOf
              then Throw cannot_convert else Unmodelled
          | _ => Throw cannot_convert
          end
      end
  | VFunction _ => Unmodelled
  end.

(** ** [JSON.stringify(v)] *)

Definition hex_digit (n : nat) : ascii :=
  ascii_of_nat (if (n <? 10)%nat then 48 + n else 87 + n).

Definition json_escape_char (c : ascii) : string :=
  let n := Str.code c in
  if Ascii.eqb c Str.dquote then String Str.backslash (String Str.dquote "")
  else if Ascii.eqb c Str.backslash then String Str.backslash (String Str.backslash "")
  else if (n =? 8)%nat then String Str.backslash "b"
  else if (n =? 9)%nat then String Str.backslash "t"
  else if (n =? 10)%nat then String Str.backslash "n"
  else if (n =? 12)%nat then String Str.backslash "f"
  else if (n =? 13)%nat then String Str.backslash "r"
  else if (n <? 32)%nat then
    String Str.backslash ("u00" ++ String (hex_digit (n / 16)) (String (hex_digit (n mod 16)) ""))
  else String c "".

Fixpoint json_escape (s : string) : string :=
  match s with
  | EmptyString => EmptyString
  | String c s' => json_escape_char c ++ json_escape s'
  end.

Definition json_quote (s : string) : string :=
  String Str.dquote (json_escape s) ++ String Str.dquote "".

(** The outer [None] is [Unmodelled]; the inner [None] is the result
    [undefined]. A callable [toJSON] is not run. *)
Fixpoint JSON_stringify (v : value) : option (option string) :=
  match v with
  | VUndefined => Some None
  | VNull => Some (Some "null")
  | VBoolean b => Some (Some (if b then "true" else "false"))
  | VNumber n =>
      if PrimFloat.is_nan n || PrimFloat.is_infinity n then Some (Some "null")
      else Some (Some (Number_toString n))
  | VString s => Some (Some (json_quote s))
  | VArray l =>
      option_map (fun parts => Some ("[" ++ Str.join "," parts ++ "]"))
        ((fix elements (l : list value) : option (list string) :=
            match l with
            | [] => Some []
            | x :: rest =>
                match JSON_stringify x, elements rest with
                | Some jx, Some jr =>
                    Some (match jx with Some s => s | None => "null" end :: jr)
                | _, _ => None
                end
            end) l)
  | VObject own proto =>
      match obj_get own proto "toJSON" with
      | VFunction _ => None
      | _ =>
          option_map (fun parts => Some ("{" ++ Str.join "," parts ++ "}"))
            ((fix members (l : list (string * value)) : option (list string) :=
                match l with
                | [] => Some []
                | (k, x) :: rest =>
                    match JSON_stringify x, members rest with
                    | Some jx, Some jr =>
                        Some (match jx with
                              | Some s => (json_quote k ++ ":" ++ s) :: jr
                              | None => jr
                              end)
                    | _, _ => None
                    end
                end) own)
      end
  | VFunction _ => Some None
  end.

(** ** Property access *)

(** A canonical array index: the decimal text of an integer in
    [0 .. 2^32 - 2]. *)
Definition parse_digits (s : string) : option Z :=
  match s with
  | EmptyString => None
  | _ =>
      fold_left
        (fun acc c =>
           match acc with
           | Some z =>
               let n := Str.code c in
               if ((48 <=? n) && (n <=? 57))%nat
               then Some (10 * z + Z.of_nat (n - 48))%Z else None
           | None => None
           end)
        (Str.chars s) (Some 0%Z)
  end.

Definition array_index (key : string) : option Z :=
  match parse_digits key with
  | Some z =>
      if String.eqb (Str.of_Z z) key && (z <? 2 ^ 32 - 1)%Z then Some z else None
  | None => None
  end.

Definition list_get {A} (l : list A) (i : Z) : option A :=
  if (i <? 0)%Z then None else nth_error l (Z.to_nat i).

(** [obj[key]]. Names looked up on the prototypes of arrays, strings and
    other primitives are left unmodelled. *)
Definition get (obj : value) (key : string) : option value :=
  match obj with
  | VObject own proto => Some (obj_get own proto key)
  | VArray l =>
      if String.eqb key "length" then Some (VNumber (of_nat (List.length l)))
      else
        match array_index key with
        | Some i =>
            Some (match list_get l i with Some v => v | None => VUndefined end)
        | None => None
        end
  | VString s =>
      if String.eqb key "length" then Some (VNumber (of_nat (String.length s)))
      else
        match array_index key with
        | Some i =>
            Some (match list_get (Str.chars s) i with
                  | Some c => VString (String c "")
                  | None => VUndefined
                  end)
        | None => None
        end
  | _ => None
  end.

(** [key in obj]; a primitive right operand is a host [TypeError]. *)
Definition has (key : string) (obj : value) : option bool :=
  match obj with
  | VObject own proto => Some (obj_has own proto key)
  | VArray l =>
      if String.eqb key "length" then Some true
      else
        match array_index key with
        | Some i => Some (i <? Z.of_nat (List.length l))%Z
        | None => None
        end
  | _ => None
  end.

(** [obj[key] = v] on a plain object. The [__proto__] setter and the
    integer-like keys, which the host enumerates ahead of the others, are left
    unmodelled. *)
Definition obj_set (own : Props) (key : string) (v : value) : option Props :=
  if String.eqb key "__proto__" then None
  else
    match array_index key with
    | Some _ => None
    | None => Some (JsMap.set own key v)
    end.

End Js.

(* ================================================================== *)
(** * Type registry ([core/type-registry.ts]) *)
(* ================================================================== *)

Inductive SerializationStrategy : Type :=
| Sjson
| Sstring
| Sobject.

(** [properties] maps a property name to its declared [type], in the order
    of [Object.entries]. *)
Record TypeSchema : Type := mkTypeSchema {
  properties : list (string * string);
  required : list string
}.

Record TypeConfig : Type := mkTypeConfig {
  schema : TypeSchema;
  serialization : SerializationStrategy
}.

Record RegisteredType : Type := mkRegisteredType {
  rt_name : string;
  rt_config : TypeConfig
}.

Module DefaultTypeRegistry.

(** The field [private types: RegisteredType[]]. *)
Definition t : Type := list RegisteredType.

Definition new : t := [].

(** [register(name, config)]. A [TypeConfig] always carries a schema and a
    strategy, so of the two argument checks only the one on the name can
    fail. *)
Definition register (types : t) (name : string) (config : TypeConfig)
    : outcome t :=
  if String.eqb name "" then Throw "Type name must be a non-empty string"
  else
    let types1 := filter (fun type => negb (String.eqb (rt_name type) name)) types in
    Ok (mkRegisteredType name config :: types1).

Definition hasRequiredProperties (own proto : Props) (required : list string)
    : bool :=
  forallb (fun prop => Js.obj_has own proto prop) required.

Definition validatePropertyType (v : value) (expectedType : string) : bool :=
  if Js.nullish v then true
  else if String.eqb expectedType "string" then String.eqb (Js.typeof v) "string"
  else if String.eqb expectedType "number" then
    match v with
    | VNumber n => negb (PrimFloat.is_nan n)
    | _ => false
    end
  else if String.eqb expectedType "boolean" then String.eqb (Js.typeof v) "boolean"
  else if String.eqb expectedType "object" then
    String.eqb (Js.typeof v) "object" && negb (Js.isArray v)
  else if String.eqb expectedType "array" then Js.isArray v
  else true.

Fixpoint validateProperties (own proto : Props)
    (entries : list (string * string)) : bool :=
  match entries with
  | [] => true
  | (propName, propType) :: rest =>
      if Js.obj_has own proto propName then
        if validatePropertyType (Js.obj_get own proto propName) propType
        then validateProperties own proto rest
        else false
      else validateProperties own proto rest
  end.

Definition matchesType (own proto : Props) (config : TypeConfig) : bool :=
  if negb (hasRequiredProperties own proto (required (schema config))) then false
  else validateProperties own proto (properties (schema config)).

(** [detectType(value)]; [None] is [null]. *)
Definition detectType (types : t) (v : value) : option string :=
  match v with
  | VObject own proto =>
      option_map rt_name (find (fun type => matchesType own proto (rt_config type)) types)
  | _ => None
  end.

Definition getRegisteredTypes (types : t) : list RegisteredType := types.

Definition hasType (types : t) (name : string) : bool :=
  existsb (fun type => String.eqb (rt_name type) name) types.

Definition String_value (v : value) : outcome value :=
  Out.bind (Js.String_ v) (fun s => Ok (VString s)).

Definition JSON_stringify_value (v : value) : outcome value :=
  Out.bind (Out.host (Js.JSON_stringify v))
    (fun r => Ok (match r with Some s => VString s | None => VUndefined end)).

(** [serialize(value, typeName)] *)
Definition serialize (types : t) (v : value) (typeName : string)
    : outcome value :=
  match find (fun type => String.eqb (rt_name type) typeName) types with
  | None => Throw ("Unknown type: " ++ typeName)
  | Some registeredType =>
      Out.try_catch
        (match serialization (rt_config registeredType) with
         | Sjson => JSON_stringify_value v
         | Sstring => String_value v
         | _ => String_value v
         end)
        (fun _ => String_value v)
  end.

End DefaultTypeRegistry.

(* ================================================================== *)
(** * The node tree *)
(* ================================================================== *)

(** The ESTree nodes the external parser produces. The children of a node
    are listed in the order in which [for (const key in node)] visits them.
    [OtherNode type] is a node of any other type, [type] being none of the
    names of the other constructors; nothing of it but its type is ever
    read. Positions are not kept. *)
Inductive Node : Type :=
| Literal (v : value)
| Identifier (name : string)
| MemberExpression (object property : Node) (computed : bool)
| CallExpression (callee : Node) (arguments : list Node)
| BinaryExpression (left : Node) (operator : string) (right : Node)
| LogicalExpression (left : Node) (operator : string) (right : Node)
| ConditionalExpression (test consequent alternate : Node)
| UnaryExpression (operator : string) (argument : Node)
| ArrayExpression (elements : list (option Node))
| ObjectExpression (props : list Node)
| Property (computed : bool) (key val : Node)
| ArrowFunctionExpression (params : list Node) (body : Node)
| TemplateLiteral (expressions quasis : list Node)
| TemplateElement
| OtherNode (type : string).

Definition node_type (n : Node) : string :=
  match n with
  | Literal _ => "Literal"
  | Identifier _ => "Identifier"
  | MemberExpression _ _ _ => "MemberExpression"
  | CallExpression _ _ => "CallExpression"
  | BinaryExpression _ _ _ => "BinaryExpression"
  | LogicalExpression _ _ _ => "LogicalExpression"
  | ConditionalExpression _ _ _ => "ConditionalExpression"
  | UnaryExpression _ _ => "UnaryExpression"
  | ArrayExpression _ => "ArrayExpression"
  | ObjectExpression _ => "ObjectExpression"
  | Property _ _ _ => "Property"
  | ArrowFunctionExpression _ _ => "ArrowFunctionExpression"
  | TemplateLiteral _ _ => "TemplateLiteral"
  | TemplateElement => "TemplateElement"
  | OtherNode type => type
  end.

Definition mem (x : string) (l : list string) : bool :=
  existsb (String.eqb x) l.

(* ================================================================== *)
(** * Function registry (the part the validator and the executor use) *)
(* ================================================================== *)

(** A registered function: [fn] is the host implementation, applied to the
    evaluated arguments. *)
Record SafeFunction : Type := mkSafeFunction {
  fn_name : string;
  fn : list value -> outcome value;
  minArgs : option nat;
  maxArgs : option nat;
  typeChecks : list (nat * (value -> bool))
}.

(** [private functions = new Map<string, SafeFunction>()] *)
Definition FunctionRegistry : Type := JsMap.t SafeFunction.

(* ================================================================== *)
(** * Security validator *)
(* ================================================================== *)

Inductive Severity : Type :=
| error
| warning.

Inductive ViolationType : Type :=
| blocked_identifier
| blocked_property
| invalid_node_type
| blocked_pattern
| complexity_limit
| depth_limit.

(** A violation, without its [node], [position] and [suggestion]. *)
Record SecurityViolation : Type := mkViolation {
  v_type : ViolationType;
  v_message : string;
  v_severity : option Severity
}.

Inductive RiskLevel : Type :=
| low
| medium
| high.

(** A validation result; of its metadata the risk level is kept. *)
Record SecurityValidation : Type := mkValidation {
  isValid : bool;
  violations : list SecurityViolation;
  riskLevel : option RiskLevel
}.

(** A custom rule; [rule_check] is [None] when the host predicate throws. *)
Record SecurityRule : Type := mkRule {
  rule_id : string;
  rule_severity : Severity;
  rule_check : Node -> option ExpressionContext -> option bool;
  rule_message : string
}.

Definition is_error (v : SecurityViolation) : bool :=
  match v_severity v with Some error => true | _ => false end.

Definition is_warning (v : SecurityViolation) : bool :=
  match v_severity v with Some warning => true | _ => false end.

Module SecurityValidator.

Definition maxCacheSize : nat := 500.

Definition blockedIdentifiers : list string :=
  [ "eval"; "Function"; "constructor"; "prototype"; "__proto__";
    "window"; "document"; "global"; "globalThis"; "self"; "parent"; "top"; "frames";
    "process"; "require"; "module"; "exports"; "__dirname"; "__filename";
    "Buffer"; "setImmediate"; "clearImmediate"; "setInterval"; "clearInterval";
    "alert"; "confirm"; "prompt"; "console"; "fetch"; "XMLHttpRequest";
    "localStorage"; "sessionStorage"; "indexedDB"; "location"; "history"; "navigator";
    "setTimeout"; "clearTimeout";
    "Worker"; "SharedWorker"; "ServiceWorker"; "importScripts"; "import";
    "WebAssembly";
    "WebSocket"; "EventSource"; "FileReader"; "Blob"; "URL"; "URLSearchParams";
    "postMessage"; "MessageChannel"; "BroadcastChannel";
    "Error"; "SyntaxError"; "ReferenceError"; "TypeError" ].

Definition blockedProperties : list string :=
  [ "constructor"; "prototype"; "__proto__"; "__defineGetter__"; "__defineSetter__";
    "__lookupGetter__"; "__lookupSetter__"; "valueOf"; "toString";
    "hasOwnProperty"; "isPrototypeOf"; "propertyIsEnumerable";
    "__defineProperty__"; "__getOwnPropertyDescriptor__"; "__getPrototypeOf__";
    "__setPrototypeOf__"; "apply"; "call"; "bind" ].

Definition supportedNodeTypes : list string :=
  [ "MemberExpression"; "CallExpression"; "Literal"; "Identifier";
    "BinaryExpression"; "ConditionalExpression"; "ArrayExpression";
    "ObjectExpression"; "Property"; "UnaryExpression"; "LogicalExpression";
    "ArrowFunctionExpression"; "TemplateLiteral"; "TemplateElement" ].

Definition blockedOperators : list string :=
  [ "instanceof"; "delete"; "new"; "typeof"; "void" ].

Definition callbackMethods : list string :=
  [ "filter"; "map"; "find"; "some"; "every"; "reduce" ].

(** ** The dangerous patterns, as matchers on the literal's text *)

(** Some suffix of [s] satisfies [p]: the pattern matches somewhere. *)
Fixpoint somewhere (p : string -> bool) (s : string) : bool :=
  p s ||
  match s with
  | EmptyString => false
  | String _ s' => somewhere p s'
  end.

Fixpoint after_prefix (pre s : string) : option string :=
  match pre, s with
  | EmptyString, _ => Some s
  | String a pre', String b s' =>
      if Ascii.eqb a b then after_prefix pre' s' else None
  | String _ _, EmptyString => None
  end.

Definition is_word (c : ascii) : bool :=
  let n := Str.code c in
  (((48 <=? n) && (n <=? 57)) || ((65 <=? n) && (n <=? 90)) ||
   ((97 <=? n) && (n <=? 122)) || (n =? 95))%nat.

Fixpoint skip (p : ascii -> bool) (s : string) : string :=
  match s with
  | String c s' => if p c then skip p s' else s
  | EmptyString => EmptyString
  end.

Definition starts_with_char (c : ascii) (s : string) : bool :=
  match s with
  | String d _ => Ascii.eqb c d
  | EmptyString => false
  end.

(** [/lit/i] for a lower-case literal *)
Definition test_literal (lit : string) (s : string) : bool :=
  Str.includes lit (Str.lower s).

(** [/name\s*\(/i] for a lower-case name *)
Definition test_call_form (name : string) (s : string) : bool :=
  somewhere
    (fun t =>
       match after_prefix name t with
       | Some rest => starts_with_char "("%char (skip Str.is_space rest)
       | None => false
       end)
    (Str.lower s).

(** [/on\w+\s*=/i] *)
Definition test_event_handler (s : string) : bool :=
  somewhere
    (fun t =>
       match after_prefix "on" t with
       | Some (String c rest) =>
           is_word c &&
           starts_with_char "="%char (skip Str.is_space (skip is_word rest))
       | _ => false
       end)
    (Str.lower s).

(** Each pattern with its [source] text. *)
Definition dangerousPatterns : list (string * (string -> bool)) :=
  [ ("javascript:", test_literal "javascript:");
    ("data:text\/html", test_literal "data:text/html");
    ("data:application\/javascript", test_literal "data:application/javascript");
    ("vbscript:", test_literal "vbscript:");
    ("<script", test_literal "<script");
    ("on\w+\s*=", test_event_handler);
    ("eval\s*\(", test_call_form "eval");
    ("Function\s*\(", test_call_form "function");
    ("setTimeout\s*\(", test_call_form "settimeout");
    ("setInterval\s*\(", test_call_form "setinterval") ].

(** ** The rules *)

Definition violation (type : ViolationType) (message : string) (severity : Severity)
    : SecurityViolation :=
  mkViolation type message (Some severity).

Definition validateIdentifier (name : string) : list SecurityViolation :=
  if mem name blockedIdentifiers then
    [violation blocked_identifier
       ("Identifier '" ++ name ++ "' is blocked for security reasons") error]
  else [].

Fixpoint isPrototypePollutionPattern (node : Node) : bool :=
  match node with
  | MemberExpression object property computed =>
      if computed &&
         match property with
         | Literal (VString propertyValue) => mem propertyValue blockedProperties
         | _ => false
         end
      then true
      else
        match object with
        | MemberExpression _ _ _ => isPrototypePollutionPattern object
        | _ => false
        end
  | _ => false
  end.

Fixpoint getPropertyChainDepth (node : Node) : nat :=
  match node with
  | MemberExpression object _ _ =>
      match object with
      | MemberExpression _ _ _ => S (getPropertyChainDepth object)
      | _ => 1
      end
  | _ => 1
  end.

Definition validateMemberExpression (node : Node) : list SecurityViolation :=
  (match node with
   | MemberExpression _ (Identifier name) false =>
       if mem name blockedProperties then
         [violation blocked_property
            ("Property '" ++ name ++ "' is blocked for security reasons") error]
       else []
   | _ => []
   end ++
   (if isPrototypePollutionPattern node then
      [violation blocked_pattern
         "Potential prototype pollution pattern detected" error]
    else []) ++
   (let chainDepth := getPropertyChainDepth node in
    if (10 <? chainDepth)%nat then
      [violation depth_limit
         ("Property chain too deep (" ++ Str.of_nat chainDepth ++ " levels)") warning]
    else []))%list.

Definition getMethodName (memberExpression : Node) : option string :=
  match memberExpression with
  | MemberExpression _ (Identifier name) false => Some name
  | _ => None
  end.

Definition staticNamespaces : list string :=
  [ "Object"; "Math"; "JSON"; "Date"; "Array"; "Crypto"; "String"; "Number" ].

Definition getFullMethodName (memberExpression : Node) : option string :=
  match memberExpression with
  | MemberExpression (Identifier objectName) (Identifier methodName) false =>
      if mem objectName staticNamespaces
      then Some (objectName ++ "." ++ methodName) else None
  | _ => None
  end.

(** A name that is neither [null] nor the empty string. *)
Definition truthy_name (n : option string) : bool :=
  match n with
  | Some s => negb (String.eqb s "")
  | None => false
  end.

Definition validateCallbackMethodCall (arguments : list Node)
    : list SecurityViolation :=
  match arguments with
  | [] =>
      [violation blocked_pattern
         "Callback methods require at least one argument" error]
  | ArrowFunctionExpression _ _ :: _ => []
  | _ :: _ =>
      [violation blocked_pattern
         "Callback methods require arrow function arguments" error]
  end.

Section Rules.

Variable functionRegistry : FunctionRegistry.
Variable customRules : list SecurityRule.

Definition validateCallExpression (callee : Node) (arguments : list Node)
    : list SecurityViolation :=
  (match callee with
   | Identifier functionName =>
       if negb (JsMap.has functionRegistry functionName) then
         [violation blocked_identifier
            ("Function '" ++ functionName ++
             "' is not in the allowed function registry") error]
       else []
   | MemberExpression _ _ _ =>
       let methodName := getMethodName callee in
       let fullMethodName := getFullMethodName callee in
       let isCallbackMethod :=
         truthy_name methodName &&
         match methodName with Some m => mem m callbackMethods | None => false end in
       if isCallbackMethod then validateCallbackMethodCall arguments
       else
         let hasMethod :=
           truthy_name methodName &&
           match methodName with
           | Some m => JsMap.has functionRegistry m
           | None => false
           end in
         let hasFullMethod :=
           truthy_name fullMethodName &&
           match fullMethodName with
           | Some m => JsMap.has functionRegistry m
           | None => false
           end in
         if negb hasMethod && negb hasFullMethod then
           [violation blocked_identifier
              ("Method '" ++
               (if truthy_name fullMethodName
                then match fullMethodName with Some m => m | None => "" end
                else match methodName with Some m => m | None => "null" end) ++
               "' is not in the allowed function registry") error]
         else []
   | _ => []
   end ++
   (if (20 <? List.length arguments)%nat then
      [violation complexity_limit
         ("Too many function arguments (" ++ Str.of_nat (List.length arguments) ++ ")")
         warning]
    else []))%list.

Definition validateOperator (operator : string) : list SecurityViolation :=
  if mem operator blockedOperators then
    [violation blocked_pattern ("Operator '" ++ operator ++ "' is not allowed") error]
  else [].

Definition validateBinaryExpression := validateOperator.
Definition validateUnaryExpression := validateOperator.

Definition validateArrowFunction (params : list Node) : list SecurityViolation :=
  ((if (4 <? List.length params)%nat then
      [violation complexity_limit
         ("Arrow functions cannot have more than 4 parameters (got " ++
          Str.of_nat (List.length params) ++ ")") error]
    else []) ++
   flat_map
     (fun param =>
        match param with
        | Identifier name =>
            if mem name blockedIdentifiers then
              [violation blocked_identifier
                 ("Parameter name '" ++ name ++ "' is blocked for security reasons")
                 error]
            else []
        | _ =>
            [violation invalid_node_type
               "Arrow function parameters must be simple identifiers" error]
        end)
     params)%list.

Definition validateLiteral (v : value) : list SecurityViolation :=
  match v with
  | VString s =>
      (flat_map
         (fun pattern : string * (string -> bool) =>
            if snd pattern s then
              [violation blocked_pattern
                 ("String literal contains dangerous pattern: " ++ fst pattern) error]
            else [])
         dangerousPatterns ++
       (if (10000 <? String.length s)%nat then
          [violation complexity_limit
             ("String literal too long (" ++ Str.of_nat (String.length s) ++
              " characters)") warning]
        else []))%list
  | _ => []
  end.

Definition validateObjectExpression (props : list Node) : list SecurityViolation :=
  if (50 <? List.length props)%nat then
    [violation complexity_limit
       ("Object literal has too many properties (" ++
        Str.of_nat (List.length props) ++ ")") warning]
  else [].

(** [applyBuiltInValidation]: the [switch] on [node.type]. *)
Definition applyBuiltInValidation (node : Node) : list SecurityViolation :=
  match node with
  | Identifier name => validateIdentifier name
  | MemberExpression _ _ _ => validateMemberExpression node
  | CallExpression callee arguments => validateCallExpression callee arguments
  | BinaryExpression _ operator _ => validateBinaryExpression operator
  | UnaryExpression operator _ => validateUnaryExpression operator
  | ArrowFunctionExpression params _ => validateArrowFunction params
  | Literal v => validateLiteral v
  | ObjectExpression props => validateObjectExpression props
  | _ => []
  end.

Definition applyCustomRules (node : Node) (context : option ExpressionContext)
    : list SecurityViolation :=
  flat_map
    (fun rule =>
       match rule_check rule node context with
       | Some true => [violation blocked_pattern (rule_message rule) (rule_severity rule)]
       | _ => []
       end)
    customRules.

(** [child && typeof child === 'object' && child.type] *)
Definition is_node (child : Node) : bool :=
  negb (String.eqb (node_type child) "").

(** [validateNode], returning the violations it pushes, in order. *)
Fixpoint validateNode (node : Node) (context : option ExpressionContext)
    {struct node} : list SecurityViolation :=
  if negb (mem (node_type node) supportedNodeTypes) then
    [violation invalid_node_type
       ("Node type '" ++ node_type node ++ "' is not allowed") error]
  else
    let child := fun c : Node => if is_node c then validateNode c context else [] in
    (applyBuiltInValidation node ++
     applyCustomRules node context ++
     (* validateChildren *)
     match node with
     | MemberExpression object property _ => child object ++ child property
     | CallExpression callee arguments => child callee ++ flat_map child arguments
     | BinaryExpression lhs _ rhs => child lhs ++ child rhs
     | LogicalExpression lhs _ rhs => child lhs ++ child rhs
     | ConditionalExpression test consequent alternate =>
         child test ++ child consequent ++ child alternate
     | UnaryExpression _ argument => child argument
     | ArrayExpression elements =>
         flat_map
           (fun e : option Node =>
              match e with Some c => child c | None => [] end)
           elements
     | ObjectExpression props => flat_map child props
     | Property _ key val => child key ++ child val
     | ArrowFunctionExpression params body => flat_map child params ++ child body
     | TemplateLiteral expressions quasis =>
         flat_map child expressions ++ flat_map child quasis
     | Literal _ | Identifier _ | TemplateElement | OtherNode _ => []
     end)%list.

End Rules.

Definition assessRiskLevel (vs : list SecurityViolation) : RiskLevel :=
  let errorCount := List.length (filter is_error vs) in
  let warningCount := List.length (filter is_warning vs) in
  if (0 <? errorCount)%nat then high
  else if (2 <? warningCount)%nat then medium
  else low.

End SecurityValidator.

(* ================================================================== *)
(** * Operators of the host language *)
(* ================================================================== *)

(** The operators the executor applies to evaluated operands. [None] is
    [Unmodelled]: reference identity of objects, text-to-number conversion
    outside the decimal integers, remainder, exponentiation and host errors. *)
Module JsOps.

Definition StringToNumber (s : string) : option float :=
  let t := Str.trim s in
  if String.eqb t "" then Some 0%float
  else if String.eqb t "Infinity" || String.eqb t "+Infinity" then Some infinity
  else if String.eqb t "-Infinity" then Some neg_infinity
  else
    let '(negative, digits) :=
      match t with
      | String c rest =>
          if Ascii.eqb c "-"%char then (true, rest)
          else if Ascii.eqb c "+"%char then (false, rest)
          else (false, t)
      | EmptyString => (false, t)
      end in
    match Js.parse_digits digits with
    | Some z =>
        if (z <? 2 ^ 53)%Z then
          let f := Js.of_Z_magnitude z in
          Some (if negative then PrimFloat.opp f else f)
        else None
    | None => None
    end.

(** [String(v)] when it returns a text. *)
Definition text (v : value) : option string :=
  match Js.String_ v with
  | Ok s => Some s
  | _ => None
  end.

(** [ToPrimitive]: arrays and plain objects convert through [toString]. *)
Definition ToPrimitive (v : value) : option value :=
  match v with
  | VArray _ | VObject _ _ => option_map VString (text v)
  | VFunction _ => None
  | _ => Some v
  end.

Definition ToNumber (v : value) : option float :=
  match ToPrimitive v with
  | Some VUndefined => Some nan
  | Some VNull => Some 0%float
  | Some (VBoolean b) => Some (if b then 1%float else 0%float)
  | Some (VNumber n) => Some n
  | Some (VString s) => StringToNumber s
  | _ => None
  end.

Definition add (l r : value) : option value :=
  match ToPrimitive l, ToPrimitive r with
  | Some lp, Some rp =>
      if Js.is_string lp || Js.is_string rp then
        match text lp, text rp with
        | Some a, Some b => Some (VString (a ++ b))
        | _, _ => None
        end
      else
        match ToNumber lp, ToNumber rp with
        | Some a, Some b => Some (VNumber (a + b)%float)
        | _, _ => None
        end
  | _, _ => None
  end.

Definition arith (op : float -> float -> float) (l r : value) : option value :=
  match ToNumber l, ToNumber r with
  | Some a, Some b => Some (VNumber (op a b))
  | _, _ => None
  end.

Definition is_reference (v : value) : bool :=
  match v with VArray _ | VObject _ _ | VFunction _ => true | _ => false end.

(** [l === r] *)
Definition strict_equals (l r : value) : option bool :=
  match l, r with
  | VUndefined, VUndefined => Some true
  | VNull, VNull => Some true
  | VBoolean a, VBoolean b => Some (Bool.eqb a b)
  | VNumber a, VNumber b => Some (PrimFloat.eqb a b)
  | VString a, VString b => Some (String.eqb a b)
  | _, _ => if is_reference l && is_reference r then None else Some false
  end.

(** [l == r] *)
Definition loose_equals (l r : value) : option bool :=
  if Js.nullish l || Js.nullish r then Some (Js.nullish l && Js.nullish r)
  else if is_reference l && is_reference r then None
  else
    match ToPrimitive l, ToPrimitive r with
    | Some (VString a), Some (VString b) => Some (String.eqb a b)
    | Some lp, Some rp =>
        match ToNumber lp, ToNumber rp with
        | Some a, Some b => Some (PrimFloat.eqb a b)
        | _, _ => None
        end
    | _, _ => None
    end.

(** The relational operators: [cmp_s] on two strings, [cmp_n] on numbers. *)
Definition relational (cmp_s : string -> string -> bool)
    (cmp_n : float -> float -> bool) (l r : value) : option value :=
  match ToPrimitive l, ToPrimitive r with
  | Some (VString a), Some (VString b) => Some (VBoolean (cmp_s a b))
  | Some lp, Some rp =>
      match ToNumber lp, ToNumber rp with
      | Some a, Some b => Some (VBoolean (cmp_n a b))
      | _, _ => None
      end
  | _, _ => None
  end.

Definition binary (operator : string) (l r : value) : option (option value) :=
  if String.eqb operator "+" then Some (add l r)
  else if String.eqb operator "-" then Some (arith PrimFloat.sub l r)
  else if String.eqb operator "*" then Some (arith PrimFloat.mul l r)
  else if String.eqb operator "/" then Some (arith PrimFloat.div l r)
  else if String.eqb operator "%" then Some None
  else if String.eqb operator "**" then Some None
  else if String.eqb operator "==" then Some (option_map VBoolean (loose_equals l r))
  else if String.eqb operator "!=" then
    Some (option_map (fun b => VBoolean (negb b)) (loose_equals l r))
  else if String.eqb operator "===" then Some (option_map VBoolean (strict_equals l r))
  else if String.eqb operator "!==" then
    Some (option_map (fun b => VBoolean (negb b)) (strict_equals l r))
  else if String.eqb operator "<" then Some (relational Str.ltb PrimFloat.ltb l r)
  else if String.eqb operator "<=" then Some (relational Str.leb PrimFloat.leb l r)
  else if String.eqb operator ">" then
    Some (relational (fun a b => Str.ltb b a) (fun a b => PrimFloat.ltb b a) l r)
  else if String.eqb operator ">=" then
    Some (relational (fun a b => Str.leb b a) (fun a b => PrimFloat.leb b a) l r)
  else if String.eqb operator "in" then
    Some (match text l with
          | Some key => option_map VBoolean (Js.has key r)
          | None => None
          end)
  else None.

Definition unary (operator : string) (argument : value) : option (option value) :=
  if String.eqb operator "+" then Some (option_map VNumber (ToNumber argument))
  else if String.eqb operator "-" then
    Some (option_map (fun n => VNumber (PrimFloat.opp n)) (ToNumber argument))
  else if String.eqb operator "!" then Some (Some (VBoolean (negb (Js.truthy argument))))
  else if String.eqb operator "typeof" then Some (Some (VString (Js.typeof argument)))
  else if String.eqb operator "void" then Some (Some VUndefined)
  else None.

End JsOps.

(* ================================================================== *)
(** * Results and the state of an evaluator *)
(* ================================================================== *)

Inductive ErrorType : Type :=
| syntax
| security
| runtime
| type_error
| complexity
| timeout.

(** [{ success: true, value }] or [{ success: false, error, errorType }],
    without the metadata. *)
Inductive EvaluationResult : Type :=
| Success (v : value)
| Failure (error : string) (errorType : ErrorType).

(** One entry of [processedExpressions]; [evaluated] is the hole's value or
    its error text. *)
Record ProcessedExpression : Type := mkProcessed {
  original : string;
  evaluated : value;
  startIndex : nat;
  endIndex : nat
}.

(** [{ success: true, result, processedExpressions }] or
    [{ success: false, error }]. *)
Inductive TemplateResult : Type :=
| TemplateSuccess (result : string) (processedExpressions : list ProcessedExpression)
| TemplateFailure (error : string).

Record ValidatorState : Type := mkValidatorState {
  validationCache : JsMap.t SecurityValidation;
  validationCacheSize : nat
}.

Record ExecutorStats : Type := mkExecutorStats {
  totalExecutions : nat;
  cacheHits : nat;
  cacheMisses : nat;
  errors : nat
}.

(** The mutable fields of [ASTExecutor]; the execution stack is kept by its
    length. *)
Record ExecutorState : Type := mkExecutorState {
  propertyCache : JsMap.t value;
  propertyCacheSize : nat;
  executionStack : nat;
  maxStackDepth : nat;
  stats : ExecutorStats
}.

Record EvaluatorOptions : Type := mkOptions {
  maxComplexity : float;
  maxDepth : float;
  strictMode : bool;
  enableCaching : bool
}.

Record KangarooStats : Type := mkKangarooStats {
  totalEvaluations : nat;
  successfulEvaluations : nat;
  failedEvaluations : nat;
  templateCacheHits : nat
}.

(** What the parser hands over for one expression: the node tree and the
    two measures the orchestrator checks. *)
Record ParsedExpression : Type := mkParsed {
  ast : Node;
  complexity_score : float;
  depth : float
}.

(** Everything an evaluator instance can reach: its registry and rules, the
    validator and executor it owns, the global type registry, its own
    template cache and counters, and the two services it takes from outside:
    [parseInternal], the external parser with the metadata pass on top
    ([None] is [null]), and [nodeJSON], the host's [JSON.stringify] on the
    parser's node objects (which carry positions this model does not keep). *)
Record World : Type := mkWorld {
  parseInternal : string -> option ParsedExpression;
  nodeJSON : Node -> string;
  functionRegistry : FunctionRegistry;
  customRules : list SecurityRule;
  validator : ValidatorState;
  executor : ExecutorState;
  typeRegistry : DefaultTypeRegistry.t;
  options : EvaluatorOptions;
  templateCache : JsMap.t TemplateResult;
  templateCacheSize : nat;
  kangarooStats : KangarooStats
}.

Definition set_validator (w : World) (v : ValidatorState) : World :=
  mkWorld (parseInternal w) (nodeJSON w) (functionRegistry w) (customRules w) v
    (executor w) (typeRegistry w) (options w) (templateCache w)
    (templateCacheSize w) (kangarooStats w).

Definition set_executor (w : World) (e : ExecutorState) : World :=
  mkWorld (parseInternal w) (nodeJSON w) (functionRegistry w) (customRules w)
    (validator w) e (typeRegistry w) (options w) (templateCache w)
    (templateCacheSize w) (kangarooStats w).

Definition set_templateCache (w : World) (c : JsMap.t TemplateResult) (n : nat)
    : World :=
  mkWorld (parseInternal w) (nodeJSON w) (functionRegistry w) (customRules w)
    (validator w) (executor w) (typeRegistry w) (options w) c n (kangarooStats w).

Definition set_kangarooStats (w : World) (s : KangarooStats) : World :=
  mkWorld (parseInternal w) (nodeJSON w) (functionRegistry w) (customRules w)
    (validator w) (executor w) (typeRegistry w) (options w) (templateCache w)
    (templateCacheSize w) s.

(** ** Stateful computations *)

Definition M (A : Type) : Type := World -> outcome A * World.

Module St.

Definition ret {A} (a : A) : M A := fun w => (Ok a, w).

Definition throw {A} (message : string) : M A := fun w => (Throw message, w).

Definition unmodelled {A} : M A := fun w => (Unmodelled, w).

Definition bind {A B} (m : M A) (f : A -> M B) : M B :=
  fun w =>
    match m w with
    | (Ok a, w1) => f a w1
    | (Throw e, w1) => (Throw e, w1)
    | (Unmodelled, w1) => (Unmodelled, w1)
    end.

Definition lift {A} (x : outcome A) : M A := fun w => (x, w).

Definition host {A} (x : option A) : M A := lift (Out.host x).

Definition get : M World := fun w => (Ok w, w).

Definition modify (f : World -> World) : M unit := fun w => (Ok tt, f w).

(** [try { body } catch (error) { handler(error.message) }] *)
Definition try_catch {A} (body : M A) (handler : string -> M A) : M A :=
  fun w =>
    match body w with
    | (Throw e, w1) => handler e w1
    | other => other
    end.

(** [try { body } finally { cleanup }] for a cleanup that does not throw. *)
Definition try_finally {A} (body : M A) (cleanup : World -> World) : M A :=
  fun w => let '(r, w1) := body w in (r, cleanup w1).

(** Left-to-right evaluation of a list, as [Array.prototype.map] does with a
    callback that may throw. *)
Fixpoint mapM {A B} (f : A -> M B) (l : list A) : M (list B) :=
  match l with
  | [] => ret []
  | x :: rest =>
      bind (f x) (fun y => bind (mapM f rest) (fun ys => ret (y :: ys)))
  end.

End St.

Declare Scope m_scope.
Delimit Scope m_scope with M.
Notation "x <- m ;; k" := (St.bind m (fun x => k))
  (at level 61, m at next level, right associativity) : m_scope.
Notation "m ;;; k" := (St.bind m (fun _ => k))
  (at level 61, right associativity) : m_scope.

Local Open Scope m_scope.

(* ================================================================== *)
(** * [SecurityValidator.validate] and its cache *)
(* ================================================================== *)

Module Validator.

(** [getCacheKey(node, context)] *)
Definition getCacheKey (w : World) (node : Node) (context : option ExpressionContext)
    : outcome string :=
  let nodeKey := node_type node ++ ":" ++ Str.take 100 (nodeJSON w node) in
  match context with
  | Some c =>
      match Js.JSON_stringify (context_value c) with
      | Some (Some j) => Ok (nodeKey ++ "|" ++ Str.take 50 j)
      | _ => Unmodelled
      end
  | None => Ok (nodeKey ++ "|")
  end.

Definition setCached (key : string) (v : SecurityValidation) : M unit :=
  St.modify (fun w =>
    let '(cache, size) :=
      cache_insert SecurityValidator.maxCacheSize
        (validationCache (validator w)) (validationCacheSize (validator w)) key v in
    set_validator w (mkValidatorState cache size)).

(** The walk of [validate] once the cache has missed. *)
Definition compute (w : World) (node : Node) (context : option ExpressionContext)
    : SecurityValidation :=
  let vs :=
    SecurityValidator.validateNode (functionRegistry w) (customRules w) node context in
  mkValidation (List.length vs =? 0)%nat vs
    (Some (SecurityValidator.assessRiskLevel vs)).

(** [validate(node, context?)] *)
Definition validate (node : Node) (context : option ExpressionContext)
    : M SecurityValidation :=
  w <- St.get ;;
  cacheKey <- St.lift (getCacheKey w node context) ;;
  match JsMap.get (validationCache (validator w)) cacheKey with
  | Some cached => St.ret cached
  | None =>
      let result := compute w node context in
      setCached cacheKey result ;;;
      St.ret result
  end.

End Validator.

(* ================================================================== *)
(** * Callback engine ([callbacks/operations.ts]) *)
(* ================================================================== *)

Module Callbacks.

Definition is_ident_start (c : ascii) : bool :=
  let n := Str.code c in
  (((65 <=? n) && (n <=? 90)) || ((97 <=? n) && (n <=? 122)) ||
   (n =? 95) || (n =? 36))%nat.

Definition is_ident_part (c : ascii) : bool :=
  is_ident_start c || ((48 <=? Str.code c) && (Str.code c <=? 57))%nat.

(** [/^[a-zA-Z_$][a-zA-Z0-9_$]*$/.test(name)] *)
Definition identifier_pattern (name : string) : bool :=
  match name with
  | EmptyString => false
  | String c rest => is_ident_start c && forallb is_ident_part (Str.chars rest)
  end.

(** [ASTCallbackEvaluator.validateArrowFunction] *)
Definition validateArrowFunction (arrowNode : Node) : M bool :=
  match arrowNode with
  | ArrowFunctionExpression params body =>
      if (3 <? List.length params)%nat then St.ret false
      else if negb (forallb
                      (fun param =>
                         match param with
                         | Identifier name => identifier_pattern name
                         | _ => false
                         end) params)
      then St.ret false
      else
        validation <- Validator.validate body None ;;
        St.ret (isValid validation)
  | _ => St.ret false
  end.

(** The [forEach] that binds parameters to arguments by position, while
    arguments last. *)
Fixpoint bind_params (own : Props) (params : list Node) (callbackArgs : list value)
    : option Props :=
  match params, callbackArgs with
  | Identifier name :: params', arg :: args' =>
      match Js.obj_set own name arg with
      | Some own' => bind_params own' params' args'
      | None => None
      end
  | _ :: _, _ :: _ => None
  | _, _ => Some own
  end.

Section WithExecutor.

(** [this.executor.execute(arrowNode.body, callbackContext)] as a function of
    the callback context. The executor hands it over together with the
    Arrow, which keeps its walk structural. *)
Variable execute_body : ExpressionContext -> M EvaluationResult.

(** [ASTCallbackEvaluator.executeCallback] *)
Definition executeCallback (arrowNode : Node) (callbackArgs : list value)
    (baseContext : ExpressionContext) : M value :=
  valid <- validateArrowFunction arrowNode ;;
  if negb valid then St.throw "Invalid or unsafe arrow function"
  else
    match arrowNode with
    | ArrowFunctionExpression params body =>
        (* { ...baseContext } with the parameters assigned on top *)
        own <- St.host (bind_params (ctx_own baseContext) params callbackArgs) ;;
        let callbackContext := mkContext own Js.Object_prototype in
        result <- execute_body callbackContext ;;
        match result with
        | Success v => St.ret v
        | Failure message _ =>
            St.throw (if String.eqb message "" then "Callback execution failed"
                      else message)
        end
    | _ => St.unmodelled
    end.

Definition index_value (index : nat) : value := VNumber (Js.of_nat index).

(** The callback handed to the host's array method by [filter], [find],
    [some] and [every]: the truthiness of the Arrow's result, [false] when
    it throws. *)
Definition test_element (array : value) (arrowNode : Node)
    (context : ExpressionContext) (item : value) (index : nat) : M bool :=
  St.try_catch
    (result <- executeCallback arrowNode [item; index_value index; array] context ;;
     St.ret (Js.truthy result))
    (fun _ => St.ret false).

Fixpoint filter_from (array : value) (arrowNode : Node) (context : ExpressionContext)
    (items : list value) (index : nat) : M (list value) :=
  match items with
  | [] => St.ret []
  | item :: rest =>
      keep <- test_element array arrowNode context item index ;;
      kept <- filter_from array arrowNode context rest (S index) ;;
      St.ret (if keep then item :: kept else kept)
  end.

Definition filter (array : value) (arrowNode : Node) (context : ExpressionContext)
    : M value :=
  match array with
  | VArray items =>
      kept <- filter_from array arrowNode context items 0 ;;
      St.ret (VArray kept)
  | _ => St.ret (VArray [])
  end.

Fixpoint map_from (array : value) (arrowNode : Node) (context : ExpressionContext)
    (items : list value) (index : nat) : M (list value) :=
  match items with
  | [] => St.ret []
  | item :: rest =>
      y <- St.try_catch
             (executeCallback arrowNode [item; index_value index; array] context)
             (fun _ => St.ret VUndefined) ;;
      ys <- map_from array arrowNode context rest (S index) ;;
      St.ret (y :: ys)
  end.

Definition map (array : value) (arrowNode : Node) (context : ExpressionContext)
    : M value :=
  match array with
  | VArray items =>
      ys <- map_from array arrowNode context items 0 ;;
      St.ret (VArray ys)
  | _ => St.ret (VArray [])
  end.

Fixpoint find_from (array : value) (arrowNode : Node) (context : ExpressionContext)
    (items : list value) (index : nat) : M value :=
  match items with
  | [] => St.ret VUndefined
  | item :: rest =>
      found <- test_element array arrowNode context item index ;;
      if found then St.ret item
      else find_from array arrowNode context rest (S index)
  end.

Definition find (array : value) (arrowNode : Node) (context : ExpressionContext)
    : M value :=
  match array with
  | VArray items => find_from array arrowNode context items 0
  | _ => St.ret VUndefined
  end.

Fixpoint some_from (array : value) (arrowNode : Node) (context : ExpressionContext)
    (items : list value) (index : nat) : M bool :=
  match items with
  | [] => St.ret false
  | item :: rest =>
      found <- test_element array arrowNode context item index ;;
      if found then St.ret true
      else some_from array arrowNode context rest (S index)
  end.

Definition some (array : value) (arrowNode : Node) (context : ExpressionContext)
    : M value :=
  match array with
  | VArray items =>
      b <- some_from array arrowNode context items 0 ;;
      St.ret (VBoolean b)
  | _ => St.ret (VBoolean false)
  end.

Fixpoint every_from (array : value) (arrowNode : Node) (context : ExpressionContext)
    (items : list value) (index : nat) : M bool :=
  match items with
  | [] => St.ret true
  | item :: rest =>
      holds <- test_element array arrowNode context item index ;;
      if holds then every_from array arrowNode context rest (S index)
      else St.ret false
  end.

Definition every (array : value) (arrowNode : Node) (context : ExpressionContext)
    : M value :=
  match array with
  | VArray items =>
      b <- every_from array arrowNode context items 0 ;;
      St.ret (VBoolean b)
  | _ => St.ret (VBoolean false)
  end.

(** One step of [reduce]'s callback: the Arrow's result, the accumulator
    when it throws. *)
Definition reduce_step (array : value) (arrowNode : Node)
    (context : ExpressionContext) (accumulator item : value) (index : nat)
    : M value :=
  St.try_catch
    (executeCallback arrowNode [accumulator; item; index_value index; array] context)
    (fun _ => St.ret accumulator).

Fixpoint reduce_from (array : value) (arrowNode : Node) (context : ExpressionContext)
    (accumulator : value) (items : list value) (index : nat) : M value :=
  match items with
  | [] => St.ret accumulator
  | item :: rest =>
      next <- reduce_step array arrowNode context accumulator item index ;;
      reduce_from array arrowNode context next rest (S index)
  end.

(** [ASTArrayOperations.reduce]: the host's [reduce] is always given an
    initial value, [undefined] when the call had none. *)
Definition reduce (array : value) (arrowNode : Node) (initialValue : value)
    (context : ExpressionContext) : M value :=
  match array with
  | VArray items => reduce_from array arrowNode context initialValue items 0
  | _ => St.ret initialValue
  end.

End WithExecutor.

End Callbacks.

(* ================================================================== *)
(** * Executor *)
(* ================================================================== *)

Module Executor.

Definition maxCacheSize : nat := 1000.

Definition update (f : ExecutorState -> ExecutorState) : M unit :=
  St.modify (fun w => set_executor w (f (executor w))).

Definition set_stack (n : nat) (e : ExecutorState) : ExecutorState :=
  mkExecutorState (propertyCache e) (propertyCacheSize e) n (maxStackDepth e) (stats e).

Definition set_stats (s : ExecutorStats) (e : ExecutorState) : ExecutorState :=
  mkExecutorState (propertyCache e) (propertyCacheSize e) (executionStack e)
    (maxStackDepth e) s.

Definition count_execution (e : ExecutorState) : ExecutorState :=
  let s := stats e in
  set_stats (mkExecutorStats (S (totalExecutions s)) (cacheHits s) (cacheMisses s) (errors s)) e.

Definition count_hit (e : ExecutorState) : ExecutorState :=
  let s := stats e in
  set_stats (mkExecutorStats (totalExecutions s) (S (cacheHits s)) (cacheMisses s) (errors s)) e.

Definition count_miss (e : ExecutorState) : ExecutorState :=
  let s := stats e in
  set_stats (mkExecutorStats (totalExecutions s) (cacheHits s) (S (cacheMisses s)) (errors s)) e.

Definition count_error (e : ExecutorState) : ExecutorState :=
  let s := stats e in
  set_stats (mkExecutorStats (totalExecutions s) (cacheHits s) (cacheMisses s) (S (errors s))) e.

(** [checkStackDepth(options.maxStackDepth || 50)] *)
Definition checkStackDepth : M unit :=
  w <- St.get ;;
  let maxDepth :=
    match maxStackDepth (executor w) with
    | O => 50
    | n => n
    end in
  if (maxDepth <=? executionStack (executor w))%nat then
    St.throw ("Maximum stack depth exceeded (" ++ Str.of_nat maxDepth ++ ")")
  else St.ret tt.

Definition categorizeError (message : string) : ErrorType :=
  let m := Str.lower message in
  if Str.includes "timeout" m then timeout
  else if Str.includes "blocked" m || Str.includes "security" m then security
  else if Str.includes "type" m || Str.includes "argument" m then type_error
  else if Str.includes "syntax" m || Str.includes "invalid" m then syntax
  else runtime.

Definition setCached (key : string) (v : value) : M unit :=
  update (fun e =>
    let '(cache, size) :=
      cache_insert maxCacheSize (propertyCache e) (propertyCacheSize e) key v in
    mkExecutorState cache size (executionStack e) (maxStackDepth e) (stats e)).

(** The property names [safePropertyAccess] refuses. *)
Definition blockedProps : list string :=
  [ "constructor"; "prototype"; "__proto__"; "__defineGetter__";
    "__defineSetter__"; "__lookupGetter__"; "__lookupSetter__";
    "valueOf"; "toString" ].

(** [typeof object !== 'object' || object === null] *)
Definition is_primitive_receiver (object : value) : bool :=
  negb (String.eqb (Js.typeof object) "object") ||
  match object with VNull => true | _ => false end.

(** [typeof result !== 'object' || result === null] *)
Definition is_primitive_result := is_primitive_receiver.

(** [safePropertyAccess(object, property)] *)
Definition safePropertyAccess (object property : value) : M value :=
  propertyText <- St.lift (Js.String_ property) ;;
  let cacheKey := Js.typeof object ++ ":" ++ propertyText in
  w <- St.get ;;
  hit <-
    (if is_primitive_receiver object then
       match JsMap.get (propertyCache (executor w)) cacheKey with
       | Some cached =>
           if negb (Js.is_undefined cached)
           then update count_hit ;;; St.ret (Some cached)
           else update count_miss ;;; St.ret None
       | None => update count_miss ;;; St.ret None
       end
     else St.ret None) ;;
  match hit with
  | Some cached => St.ret cached
  | None =>
      match property with
      | VString name =>
          if mem name blockedProps then
            St.throw ("Property '" ++ name ++ "' is blocked for security reasons")
          else St.ret tt
      | _ => St.ret tt
      end ;;;
      let out_of_bounds :=
        match object, property with
        | VArray l, VNumber i =>
            PrimFloat.ltb i 0 || PrimFloat.leb (Js.of_nat (List.length l)) i
        | _, _ => false
        end in
      if out_of_bounds then St.ret VUndefined
      else if match property with VString p => String.eqb p "length" | _ => false end
      then
        result <-
          match object with
          | VArray l => St.ret (VNumber (Js.of_nat (List.length l)))
          | VUndefined | VNull => St.ret (VNumber 0)
          | _ =>
              len <- St.host (Js.get object "length") ;;
              St.ret (if Js.nullish len then VNumber 0 else len)
          end ;;
        setCached cacheKey result ;;;
        St.ret result
      else
        result <- St.host (Js.get object propertyText) ;;
        (if is_primitive_result result then setCached cacheKey result else St.ret tt) ;;;
        St.ret result
  end.

(** [executeIdentifier(node, context)] *)
Definition executeIdentifier (name : string) (context : ExpressionContext) : value :=
  if Js.obj_has (ctx_own context) (ctx_proto context) name then
    Js.obj_get (ctx_own context) (ctx_proto context) name
  else if String.eqb name "undefined" then VUndefined
  else if String.eqb name "null" then VNull
  else if String.eqb name "true" then VBoolean true
  else if String.eqb name "false" then VBoolean false
  else if String.eqb name "Infinity" then VNumber infinity
  else if String.eqb name "NaN" then VNumber nan
  else VUndefined.

(** [validateFunctionCall(func, args, isMethodCall)] *)
Definition validateFunctionCall (func : SafeFunction) (args : list value)
    (isMethodCall : bool) : outcome unit :=
  let declared := match minArgs func with Some n => n | None => 0 end in
  let effectiveMinArgs := if isMethodCall then Nat.pred declared else declared in
  if (List.length args <? effectiveMinArgs)%nat then
    Throw ("Function '" ++ fn_name func ++ "' requires at least " ++
           Str.of_nat effectiveMinArgs ++ " arguments, got " ++
           Str.of_nat (List.length args))
  else if match maxArgs func with
          | Some effectiveMaxArgs => (effectiveMaxArgs <? List.length args)%nat
          | None => false
          end
  then
    Throw ("Function '" ++ fn_name func ++ "' accepts at most " ++
           Str.of_nat (match maxArgs func with Some n => n | None => 0 end) ++
           " arguments, got " ++ Str.of_nat (List.length args))
  else
    match
      List.find
        (fun check : nat * (value -> bool) =>
           match nth_error args (fst check) with
           | Some arg => negb (snd check arg)
           | None => false
           end)
        (typeChecks func)
    with
    | Some (argIndex, _) =>
        Throw ("Function '" ++ fn_name func ++ "' argument " ++
               Str.of_nat argIndex ++ " has invalid type")
    | None => Ok tt
    end.

(** [func.fn(...args)] with the rethrow of [executeFunction] and
    [executeMethod]. *)
Definition call (kind : string) (name : string) (func : SafeFunction)
    (args : list value) : outcome value :=
  Out.try_catch (fn func args)
    (fun message => Throw ("Error in " ++ kind ++ " '" ++ name ++ "': " ++ message)).

(** [executeFunction(name, args, context)] *)
Definition executeFunction (name : string) (args : list value) : M value :=
  w <- St.get ;;
  match JsMap.get (functionRegistry w) name with
  | None => St.throw ("Function '" ++ name ++ "' is not defined")
  | Some func =>
      St.lift (validateFunctionCall func args false) ;;;
      St.lift (call "function" name func args)
  end.

(** [executeMethod(object, methodName, args)] *)
Definition executeMethod (object : value) (methodName : string) (args : list value)
    : M value :=
  w <- St.get ;;
  match JsMap.get (functionRegistry w) methodName with
  | None => St.throw ("Method '" ++ methodName ++ "' is not defined")
  | Some func =>
      let allArgs := object :: args in
      St.lift (validateFunctionCall func allArgs true) ;;;
      St.lift (call "method" methodName func allArgs)
  end.

Definition isCallbackMethod (methodName : string) : bool :=
  mem methodName SecurityValidator.callbackMethods.

Definition getMethodName := SecurityValidator.getMethodName.
Definition getFullMethodName := SecurityValidator.getFullMethodName.

(** [execute]'s frame around the walk of one tree: the stack is emptied, the
    execution counted, a thrown error turned into a failed result. No error
    handler is installed. *)
Definition execute_with (walk : M value) : M EvaluationResult :=
  update (set_stack 0) ;;;
  St.try_finally
    (St.try_catch
       (update count_execution ;;;
        v <- walk ;;
        St.ret (Success v))
       (fun message =>
          update count_error ;;;
          St.ret (Failure message (categorizeError message))))
    (fun w => set_executor w (set_stack 0 (executor w))).

(** An argument of a callback method: an Arrow's node, kept as it is and
    paired with the execution of its body, or an evaluated value. *)
Definition CallbackArg : Type :=
  (Node * (ExpressionContext -> M EvaluationResult)) + value.

(** [executeCallbackMethod(array, methodName, args, context)] *)
Definition executeCallbackMethod (array : value) (methodName : string)
    (args : list CallbackArg) (context : ExpressionContext) : M value :=
  match args with
  | [] => St.throw (methodName ++ " requires a callback argument")
  | inl (callbackArg, execute_body) :: rest =>
      if String.eqb methodName "filter" then
        Callbacks.filter execute_body array callbackArg context
      else if String.eqb methodName "map" then
        Callbacks.map execute_body array callbackArg context
      else if String.eqb methodName "find" then
        Callbacks.find execute_body array callbackArg context
      else if String.eqb methodName "some" then
        Callbacks.some execute_body array callbackArg context
      else if String.eqb methodName "every" then
        Callbacks.every execute_body array callbackArg context
      else if String.eqb methodName "reduce" then
        match rest with
        | [] => Callbacks.reduce execute_body array callbackArg VUndefined context
        | inr initialValue :: _ =>
            Callbacks.reduce execute_body array callbackArg initialValue context
        | inl _ :: _ => St.unmodelled
        end
      else St.throw ("Unsupported callback method: " ++ methodName)
  | inr (VObject own proto) :: _ =>
      (* a context object shaped like an Arrow node would be run as one *)
      match Js.obj_get own proto "type" with
      | VString "ArrowFunctionExpression" => St.unmodelled
      | _ => St.throw (methodName ++ " requires an arrow function callback")
      end
  | inr _ :: _ => St.throw (methodName ++ " requires an arrow function callback")
  end.

(** [executeNode(node, context, options)] *)
Fixpoint executeNode (node : Node) (context : ExpressionContext) {struct node}
    : M value :=
  checkStackDepth ;;;
  update (fun e => set_stack (S (executionStack e)) e) ;;;
  St.try_finally
    (match node with
     | Literal v => St.ret v

     | Identifier name => St.ret (executeIdentifier name context)

     | MemberExpression object property computed =>
         obj <- executeNode object context ;;
         if Js.nullish obj then St.ret VUndefined
         else
           prop <-
             (if computed then executeNode property context
              else
                match property with
                | Identifier name => St.ret (VString name)
                | _ => St.throw "Invalid property access"
                end) ;;
           safePropertyAccess obj prop

     | CallExpression callee arguments =>
         let evaluate_all :=
           St.mapM (fun arg => executeNode arg context) arguments in
         match callee with
         | Identifier name =>
             args <- evaluate_all ;;
             executeFunction name args
         | MemberExpression calleeObject _ _ =>
             let methodName := getMethodName callee in
             let fullMethodName := getFullMethodName callee in
             match methodName with
             | Some method =>
                 if String.eqb method "" then St.throw "Invalid method call"
                 else
                   w <- St.get ;;
                   if match fullMethodName with
                      | Some full => JsMap.has (functionRegistry w) full
                      | None => false
                      end
                   then
                     args <- evaluate_all ;;
                     executeFunction
                       (match fullMethodName with Some full => full | None => "" end)
                       args
                   else
                     obj <- executeNode calleeObject context ;;
                     if isCallbackMethod method && Js.isArray obj then
                       evaluatedArgs <-
                         (fix evaluate_args (args : list Node) : M (list CallbackArg) :=
                            match args with
                            | [] => St.ret []
                            | arg :: rest =>
                                a <-
                                  match arg with
                                  | ArrowFunctionExpression _ body =>
                                      St.ret (inl (arg, fun c => execute_with (executeNode body c)))
                                  | _ =>
                                      v <- executeNode arg context ;;
                                      St.ret (inr v : CallbackArg)
                                  end ;;
                                rest' <- evaluate_args rest ;;
                                St.ret (a :: rest')
                            end) arguments ;;
                       executeCallbackMethod obj method evaluatedArgs context
                     else
                       args <- evaluate_all ;;
                       executeMethod obj method args
             | None => St.throw "Invalid method call"
             end
         | _ => St.throw "Unsupported function call type"
         end

     | BinaryExpression lhs operator rhs =>
         l <- executeNode lhs context ;;
         r <- executeNode rhs context ;;
         match JsOps.binary operator l r with
         | Some result => St.host result
         | None => St.throw ("Unsupported binary operator: " ++ operator)
         end

     | LogicalExpression lhs operator rhs =>
         l <- executeNode lhs context ;;
         if String.eqb operator "&&" then
           if Js.truthy l then executeNode rhs context else St.ret l
         else if String.eqb operator "||" then
           if Js.truthy l then St.ret l else executeNode rhs context
         else if String.eqb operator "??" then
           if Js.nullish l then executeNode rhs context else St.ret l
         else St.throw ("Unsupported logical operator: " ++ operator)

     | ConditionalExpression test consequent alternate =>
         t <- executeNode test context ;;
         if Js.truthy t then executeNode consequent context
         else executeNode alternate context

     | UnaryExpression operator argument =>
         a <- executeNode argument context ;;
         match JsOps.unary operator a with
         | Some result => St.host result
         | None => St.throw ("Unsupported unary operator: " ++ operator)
         end

     | ArrayExpression elements =>
         items <-
           St.mapM
             (fun element : option Node =>
                match element with
                | Some e => executeNode e context
                | None => St.ret VUndefined
                end)
             elements ;;
         St.ret (VArray items)

     | ObjectExpression props =>
         own <-
           (fix properties (props : list Node) (result : Props) : M Props :=
              match props with
              | [] => St.ret result
              | Property computed key val :: rest =>
                  k <-
                    (if computed then
                       kv <- executeNode key context ;;
                       St.lift (Js.String_ kv)
                     else
                       match key with
                       | Identifier name => St.ret name
                       | Literal v => St.lift (Js.String_ v)
                       | _ => St.throw "Invalid property key"
                       end) ;;
                  v <- executeNode val context ;;
                  result' <- St.host (Js.obj_set result k v) ;;
                  properties rest result'
              | _ :: _ => St.throw "Unsupported object property type"
              end) props [] ;;
         St.ret (Js.plain own)

     | _ => St.throw ("Unsupported node type: " ++ node_type node)
     end)
    (fun w => set_executor w (set_stack (Nat.pred (executionStack (executor w))) (executor w))).

(** [execute(node, context)], as the orchestrator and the callback engine
    call it: without per-call options. *)
Definition execute (node : Node) (context : ExpressionContext) : M EvaluationResult :=
  execute_with (executeNode node context).

End Executor.

(* ================================================================== *)
(** * Parser front-end: the template functions *)
(* ================================================================== *)

Record TemplateMatch : Type := mkMatch {
  fullMatch : string;
  expression : string;
  m_startIndex : nat;
  m_endIndex : nat;
  multiline : bool
}.

Module ASTParser.

Definition lbrace : ascii := "{"%char.
Definition rbrace : ascii := "}"%char.

(** After an opening [{{]: the body [[^{}]*] when the closing [}}] follows. *)
Fixpoint hole_body (s : string) : option string :=
  match s with
  | EmptyString => None
  | String c s' =>
      if Ascii.eqb c lbrace then None
      else if Ascii.eqb c rbrace then
        match s' with
        | String d _ => if Ascii.eqb d rbrace then Some "" else None
        | EmptyString => None
        end
      else option_map (String c) (hole_body s')
  end.

(** The body of the hole that starts exactly here, if one does. *)
Definition hole_here (s : string) : option string :=
  match SecurityValidator.after_prefix "{{" s with
  | Some rest => hole_body rest
  | None => None
  end.

(** [/\{\{[^{}]*\}\}/.test(text)] *)
Definition hasTemplateExpressions (text : string) : bool :=
  SecurityValidator.somewhere
    (fun t => match hole_here t with Some _ => true | None => false end) text.

(** The [exec] loop of [extractTemplateExpressions] from position [index];
    [skip] code units of the last match are still to be passed. *)
Fixpoint extract_from (s : string) (index skip : nat) : list TemplateMatch :=
  match s with
  | EmptyString => []
  | String _ s' =>
      match skip with
      | S k => extract_from s' (S index) k
      | O =>
          match hole_here s with
          | Some body =>
              let full := "{{" ++ body ++ "}}" in
              let expr := Str.trim body in
              ((if String.eqb expr "" then []
                else [mkMatch full expr index (index + String.length full)
                        (Str.includes (String (ascii_of_nat 10) "") expr)]) ++
               extract_from s' (S index) (String.length full - 1))%list
          | None => extract_from s' (S index) 0
          end
      end
  end.

Definition extractTemplateExpressions (template : string) : list TemplateMatch :=
  extract_from template 0 0.

(** The loop of [replaceTemplateExpressions], last match first. *)
Fixpoint replace_loop (replacer : string -> TemplateMatch -> M string)
    (matches : list TemplateMatch) (result : string) : M string :=
  match matches with
  | [] => St.ret result
  | m :: rest =>
      replacement <- replacer (expression m) m ;;
      replace_loop replacer rest
        (Str.take (m_startIndex m) result ++ replacement ++
         Str.drop (m_endIndex m) result)
  end.

Definition replaceTemplateExpressions (template : string)
    (replacer : string -> TemplateMatch -> M string) : M string :=
  replace_loop replacer (List.rev (extractTemplateExpressions template)) template.

(** [parse(expression)]. The parse cache is keyed by the whole trimmed text
    and memoises [parseInternal], so it is not kept. *)
Definition parse (w : World) (expr : string) : option ParsedExpression :=
  if String.eqb expr "" then None
  else
    let trimmed := Str.trim expr in
    if String.eqb trimmed "" then None else parseInternal w trimmed.

End ASTParser.

(* ================================================================== *)
(** * Orchestrator ([core/evaluator.ts]) *)
(* ================================================================== *)

(** What [evaluate] returns: the result of a direct expression, or of a
    template. *)
Inductive EvaluateOutput : Type :=
| Direct (r : EvaluationResult)
| Template (r : TemplateResult).

Module Kangaroo.

Definition maxTemplateCacheSize : nat := 100.

Definition update_stats (f : KangarooStats -> KangarooStats) : M unit :=
  St.modify (fun w => set_kangarooStats w (f (kangarooStats w))).

Definition count_evaluation (s : KangarooStats) : KangarooStats :=
  mkKangarooStats (S (totalEvaluations s)) (successfulEvaluations s)
    (failedEvaluations s) (templateCacheHits s).

Definition count_success (s : KangarooStats) : KangarooStats :=
  mkKangarooStats (totalEvaluations s) (S (successfulEvaluations s))
    (failedEvaluations s) (templateCacheHits s).

Definition count_failure (s : KangarooStats) : KangarooStats :=
  mkKangarooStats (totalEvaluations s) (successfulEvaluations s)
    (S (failedEvaluations s)) (templateCacheHits s).

Definition count_cache_hit (s : KangarooStats) : KangarooStats :=
  mkKangarooStats (totalEvaluations s) (successfulEvaluations s)
    (failedEvaluations s) (S (templateCacheHits s)).

(** [`${n}`] for a number *)
Definition number_text (n : float) : M string := St.ret (Js.Number_toString n).

(** [evaluateExpression(expression, context)] *)
Definition evaluateExpression (expr : string) (context : ExpressionContext)
    : M EvaluationResult :=
  St.try_catch
    (w <- St.get ;;
     match ASTParser.parse w expr with
     | None => St.ret (Failure ("Invalid syntax: " ++ expr) syntax)
     | Some parsed =>
         if PrimFloat.ltb (maxComplexity (options w)) (complexity_score parsed) then
           c <- number_text (complexity_score parsed) ;;
           m <- number_text (maxComplexity (options w)) ;;
           St.ret (Failure ("Expression too complex (" ++ c ++ " > " ++ m ++ ")") complexity)
         else if PrimFloat.ltb (maxDepth (options w)) (depth parsed) then
           d <- number_text (depth parsed) ;;
           m <- number_text (maxDepth (options w)) ;;
           St.ret (Failure ("Expression too deep (" ++ d ++ " > " ++ m ++ ")") complexity)
         else
           blocked <-
             (if strictMode (options w) then
                validation <- Validator.validate (ast parsed) (Some context) ;;
                if negb (isValid validation) then
                  St.ret (Some (Str.join "; " (List.map v_message (violations validation))))
                else St.ret None
              else St.ret None) ;;
           match blocked with
           | Some messages =>
               St.ret (Failure ("Security violation: " ++ messages) security)
           | None =>
               result <- Executor.execute (ast parsed) context ;;
               match result with
               | Success _ => update_stats count_success
               | Failure _ _ => update_stats count_failure
               end ;;;
               St.ret result
           end
     end)
    (fun message =>
       update_stats count_failure ;;;
       St.ret (Failure message runtime)).

(** [serialized.replace(/\\/g, '\\\\').replace(/"/g, '\\"')] *)
Definition escape_for_json_string (serialized : string) : string :=
  Str.replace_char Str.dquote (String Str.backslash (String Str.dquote ""))
    (Str.replace_char Str.backslash
       (String Str.backslash (String Str.backslash "")) serialized).

(** [serializeValue(value)] *)
Definition serializeValue (v : value) : M string :=
  if Js.nullish v then St.ret ""
  else
    w <- St.get ;;
    match DefaultTypeRegistry.detectType (typeRegistry w) v with
    | Some typeName =>
        if String.eqb typeName "" then St.lift (Js.String_ v)
        else
          serialized <- St.lift (DefaultTypeRegistry.serialize (typeRegistry w) v typeName) ;;
          let registeredType :=
            List.find (fun t => String.eqb (rt_name t) typeName)
              (DefaultTypeRegistry.getRegisteredTypes (typeRegistry w)) in
          match serialized with
          | VString s =>
              match option_map (fun t => serialization (rt_config t)) registeredType with
              | Some Sjson => St.ret (escape_for_json_string s)
              | _ => St.ret s
              end
          | _ => St.unmodelled
          end
    | None => St.lift (Js.String_ v)
    end.

(** [getTemplateCacheKey(template, context)] *)
Definition getTemplateCacheKey (template : string) (context : ExpressionContext)
    : string :=
  let contextKeys := Str.join "," (Str.sort (JsMap.keys (ctx_own context))) in
  template ++ "|" ++ contextKeys.

Definition setTemplateCached (key : string) (v : TemplateResult) : M unit :=
  St.modify (fun w =>
    let '(cache, size) :=
      cache_insert maxTemplateCacheSize (templateCache w) (templateCacheSize w) key v in
    set_templateCache w cache size).

(** The replacer of [evaluateTemplate] on one hole: the record it pushes onto
    [processedExpressions], then the text it returns or the error it throws. *)
Definition process_hole (context : ExpressionContext) (expr : string)
    (m : TemplateMatch) : M (ProcessedExpression * string) :=
  evalResult <- evaluateExpression expr context ;;
  match evalResult with
  | Success v =>
      text <- (if Js.nullish v then St.ret "" else serializeValue v) ;;
      St.ret (mkProcessed expr v (m_startIndex m) (m_endIndex m), text)
  | Failure message _ => St.throw message
  end.

(** [ASTParser.replaceTemplateExpressions] with that replacer, the pushed
    records collected along the way. *)
Fixpoint process_holes (context : ExpressionContext) (matches : list TemplateMatch)
    (result : string) (processed : list ProcessedExpression)
    : M (string * list ProcessedExpression) :=
  match matches with
  | [] => St.ret (result, processed)
  | m :: rest =>
      hole <- process_hole context (expression m) m ;;
      process_holes context rest
        (Str.take (m_startIndex m) result ++ snd hole ++ Str.drop (m_endIndex m) result)
        (processed ++ [fst hole])%list
  end.

(** [evaluateTemplate(template, context)] *)
Definition evaluateTemplate (template : string) (context : ExpressionContext)
    : M TemplateResult :=
  w <- St.get ;;
  let cacheKey := getTemplateCacheKey template context in
  match
    (if enableCaching (options w) then JsMap.get (templateCache w) cacheKey else None)
  with
  | Some cached =>
      update_stats count_cache_hit ;;;
      St.ret cached
  | None =>
      St.try_catch
        (done <-
           process_holes context
             (List.rev (ASTParser.extractTemplateExpressions template)) template [] ;;
         let templateResult := TemplateSuccess (fst done) (snd done) in
         (if enableCaching (options w)
          then setTemplateCached cacheKey templateResult else St.ret tt) ;;;
         St.ret templateResult)
        (fun message => St.ret (TemplateFailure message))
  end.

(** [evaluate(expression, context)] on a string *)
Definition evaluate (expr : string) (context : ExpressionContext) : M EvaluateOutput :=
  update_stats count_evaluation ;;;
  St.try_catch
    (if String.eqb expr "" then St.ret (Direct (Success (VString expr)))
     else
       let trimmed := Str.trim expr in
       if String.eqb trimmed "" then St.ret (Direct (Success (VString "")))
       else if ASTParser.hasTemplateExpressions trimmed then
         r <- evaluateTemplate trimmed context ;;
         St.ret (Template r)
       else
         r <- evaluateExpression trimmed context ;;
         St.ret (Direct r))
    (fun message =>
       update_stats count_failure ;;;
       St.ret (Direct (Failure message runtime))).

Definition assessOverallRisk := SecurityValidator.assessRiskLevel.

(** The body of the loop of [validate] for one expression. *)
Definition validate_one (expr : string) : M (list SecurityViolation) :=
  if String.eqb (Str.trim expr) "" then St.ret []
  else
    w <- St.get ;;
    match ASTParser.parse w expr with
    | None =>
        St.ret [mkViolation blocked_pattern ("Invalid syntax in expression: " ++ expr) None]
    | Some parsed =>
        tooComplex <-
          (if PrimFloat.ltb (maxComplexity (options w)) (complexity_score parsed) then
             c <- number_text (complexity_score parsed) ;;
             m <- number_text (maxComplexity (options w)) ;;
             St.ret [mkViolation complexity_limit
                       ("Expression too complex (" ++ c ++ " > " ++ m ++ ")") None]
           else St.ret []) ;;
        tooDeep <-
          (if PrimFloat.ltb (maxDepth (options w)) (depth parsed) then
             d <- number_text (depth parsed) ;;
             m <- number_text (maxDepth (options w)) ;;
             St.ret [mkViolation depth_limit
                       ("Expression too deep (" ++ d ++ " > " ++ m ++ ")") None]
           else St.ret []) ;;
        validation <- Validator.validate (ast parsed) None ;;
        St.ret (tooComplex ++ tooDeep ++ violations validation)%list
    end.

(** [validate(expression)] on a string *)
Definition validate (expr : string) : M SecurityValidation :=
  if String.eqb expr "" then St.ret (mkValidation true [] None)
  else
    let trimmed := Str.trim expr in
    if String.eqb trimmed "" then St.ret (mkValidation true [] None)
    else
      St.try_catch
        (let expressions :=
           if ASTParser.hasTemplateExpressions trimmed
           then List.map expression (ASTParser.extractTemplateExpressions trimmed)
           else [trimmed] in
         found <- St.mapM validate_one expressions ;;
         let allViolations := List.concat found in
         St.ret (mkValidation (List.length allViolations =? 0)%nat allViolations
                   (Some (assessOverallRisk allViolations))))
        (fun message =>
           St.ret (mkValidation false [mkViolation blocked_pattern message None] None)).

(** [registerType(name, config)] *)
Definition registerType (name : string) (config : TypeConfig) : M unit :=
  w <- St.get ;;
  types <- St.lift (DefaultTypeRegistry.register (typeRegistry w) name config) ;;
  St.modify (fun w =>
    mkWorld (parseInternal w) (nodeJSON w) (functionRegistry w) (customRules w)
      (validator w) (executor w) types (options w) (templateCache w)
      (templateCacheSize w) (kangarooStats w)).

(** A fresh instance over a parser, a registry and options: empty caches,
    zeroed counters, the executor's default stack depth. *)
Definition new (parser : string -> option ParsedExpression) (json : Node -> string)
    (registry : FunctionRegistry) (rules : list SecurityRule)
    (types : DefaultTypeRegistry.t) (opts : EvaluatorOptions) : World :=
  mkWorld parser json registry rules
    (mkValidatorState JsMap.empty 0)
    (mkExecutorState JsMap.empty 0 0 50 (mkExecutorStats 0 0 0 0))
    types opts JsMap.empty 0 (mkKangarooStats 0 0 0 0).

Definition defaultOptions : EvaluatorOptions := mkOptions 100 10 true true.

End Kangaroo.

(* ================================================================== *)
(** * Vocabulary and example data of the properties *)
(* ================================================================== *)

(** A sequence of registrations, each on the registry the one before left. *)
Fixpoint register_all (types : DefaultTypeRegistry.t)
    (entries : list (string * TypeConfig)) : outcome DefaultTypeRegistry.t :=
  match entries with
  | [] => Ok types
  | (name, config) :: rest =>
      Out.bind (DefaultTypeRegistry.register types name config)
        (fun types' => register_all types' rest)
  end.

(** A type recognised by a string property [file_id], and an object of it. *)
Definition demo_schema : TypeSchema :=
  mkTypeSchema [("file_id", "string")] ["file_id"].

Definition demo_item : Props :=
  [("file_id", VString "file_123"); ("name", VString "test.txt")].

(** A type recognised by a string property [user_id], which the object
    above does not have. *)
Definition other_schema : TypeSchema :=
  mkTypeSchema [("user_id", "string")] ["user_id"].

(** A registered type whose schema does not match the object. *)
Definition unmatched (own proto : Props) (type : RegisteredType) : Prop :=
  DefaultTypeRegistry.matchesType own proto (rt_config type) = false.

(** The names of the validator's property denylist that the executor's own
    list does not hold. *)
Definition unguarded_properties : list string :=
  [ "hasOwnProperty"; "isPrototypeOf"; "propertyIsEnumerable";
    "__defineProperty__"; "__getOwnPropertyDescriptor__"; "__getPrototypeOf__";
    "__setPrototypeOf__"; "apply"; "call"; "bind" ].

(** The worlds of the examples: an instance with no registered function,
    rule or type, and stand-ins for the two outside services. *)
Definition type_only_json (n : Node) : string := node_type n.

Definition no_parser (text : string) : option ParsedExpression := None.

Definition fresh_world : World :=
  Kangaroo.new no_parser type_only_json [] [] DefaultTypeRegistry.new
    Kangaroo.defaultOptions.

(** The scalar meaning of the six constant names, [undefined] for any other
    name. *)
Definition scalar_meaning (name : string) : value :=
  if String.eqb name "undefined" then VUndefined
  else if String.eqb name "null" then VNull
  else if String.eqb name "true" then VBoolean true
  else if String.eqb name "false" then VBoolean false
  else if String.eqb name "Infinity" then VNumber infinity
  else if String.eqb name "NaN" then VNumber nan
  else VUndefined.

(** [name.length], and a context with two strings of different lengths. *)
Definition length_of (name : string) : Node :=
  MemberExpression (Identifier name) (Identifier "length") false.

Definition two_strings : ExpressionContext :=
  Js.plain_context [("a", VString "hello"); ("b", VString "hi")].

(** The array literal [[1, 2, 3]] and the callback body [acc + x]. *)
Definition number (n : float) : Node := Literal (VNumber n).

Definition one_two_three : Node :=
  ArrayExpression [Some (number 1); Some (number 2); Some (number 3)].

Definition sum_body : Node :=
  BinaryExpression (Identifier "acc") "+" (Identifier "x").

(** [[1, 2, 3].reduce((params) => acc + x, 0)] *)
Definition reduce_sum (params : list string) : Node :=
  CallExpression
    (MemberExpression one_two_three (Identifier "reduce") false)
    [ArrowFunctionExpression (List.map Identifier params) sum_body; number 0].

(** A string literal of 10001 characters, its source text, and an instance
    whose parser knows this one expression (a lone literal has complexity
    0.5 and depth 0). *)
Definition long_text : string := Str.repeat "a"%char 10001.

Definition long_literal : Node := Literal (VString long_text).

Definition long_source : string :=
  String Str.dquote long_text ++ String Str.dquote "".

Definition literal_parser (text : string) : option ParsedExpression :=
  if String.eqb text long_source then Some (mkParsed long_literal 0.5 0) else None.

Definition long_world : World :=
  Kangaroo.new literal_parser type_only_json [] [] DefaultTypeRegistry.new
    Kangaroo.defaultOptions.

Definition empty_context : ExpressionContext := Js.plain_context [].

Definition long_violations : list SecurityViolation :=
  SecurityValidator.validateNode [] [] long_literal (Some empty_context).

(** Every name of the identifier denylist is a non-empty text without
    surrounding white space and without a template hole. *)
Definition plain_name (name : string) : bool :=
  negb (String.eqb name "") &&
  String.eqb (Str.trim name) name &&
  negb (ASTParser.hasTemplateExpressions name).

(** A parser that reads a text as one identifier. *)
Definition identifier_parser (text : string) : option ParsedExpression :=
  Some (mkParsed (Identifier text) 0.5 0).

Definition identifier_world : World :=
  Kangaroo.new identifier_parser type_only_json [] [] DefaultTypeRegistry.new
    Kangaroo.defaultOptions.

(** The text the host's [JSON.stringify] gives for the Identifier node the
    parser makes of a lone name. The parser reads the name inside the
    wrapping parentheses, so the node starts at offset and column 1, and it
    lists [type], [start], [end], [loc] and [name] in this order. For any
    other node the text is cut to the node's type. *)
Definition located_json (n : Node) : string :=
  match n with
  | Identifier name =>
      let stop := Str.of_nat (1 + String.length name) in
      "{" ++ Js.json_quote "type" ++ ":" ++ Js.json_quote "Identifier" ++ "," ++
      Js.json_quote "start" ++ ":1," ++ Js.json_quote "end" ++ ":" ++ stop ++ "," ++
      Js.json_quote "loc" ++ ":{" ++
      Js.json_quote "start" ++ ":{" ++ Js.json_quote "line" ++ ":1," ++
      Js.json_quote "column" ++ ":1}," ++
      Js.json_quote "end" ++ ":{" ++ Js.json_quote "line" ++ ":1," ++
      Js.json_quote "column" ++ ":" ++ stop ++ "}}," ++
      Js.json_quote "name" ++ ":" ++ Js.json_quote name ++ "}"
  | _ => node_type n
  end.

(** A parser that reads a text as one identifier, except the keyword
    [import], which is no expression. *)
Definition name_parser (text : string) : option ParsedExpression :=
  if String.eqb text "import" then None
  else Some (mkParsed (Identifier text) 0.5 0).

Definition name_world : World :=
  Kangaroo.new name_parser located_json [] [] DefaultTypeRegistry.new
    Kangaroo.defaultOptions.

(** A computation that leaves the instance's configuration as it found it. *)
Definition keeps_options {A} (m : M A) : Prop :=
  forall w, options (snd (m w)) = options w.

(** A callback argument whose body execution keeps the options. *)
Definition good_arg (a : Executor.CallbackArg) : Prop :=
  match a with
  | inl (_, run) => forall c, keeps_options (run c)
  | inr _ => True
  end.

(** Keeping the options, with a fact about the value returned. *)
Definition keeps_with {A} (Q : A -> Prop) (m : M A) : Prop :=
  forall w, options (snd (m w)) = options w /\ forall a, fst (m w) = Ok a -> Q a.

(** The walk of a node keeps the options, in every context. *)
Definition node_keeps (n : Node) : Prop :=
  forall context, keeps_options (Executor.executeNode n context).

(** What the walk needs of a node: itself, and the parts the walk of its
    parent reaches directly. *)
Definition node_keeps_deep (n : Node) : Prop :=
  node_keeps n /\
  match n with
  | MemberExpression o _ _ => node_keeps o
  | ArrowFunctionExpression _ body => node_keeps body
  | Property _ k v => node_keeps k /\ node_keeps v
  | _ => True
  end.

(** The step of [executeCallExpression] that keeps an Arrow argument as a
    node and evaluates any other argument. *)
Definition classify_arg (context : ExpressionContext) (arg : Node)
    : M Executor.CallbackArg :=
  match arg with
  | ArrowFunctionExpression _ body =>
      St.ret (inl (arg, fun c => Executor.execute_with (Executor.executeNode body c)))
  | _ =>
      St.bind (Executor.executeNode arg context)
        (fun v => St.ret (inr v : Executor.CallbackArg))
  end.

(** In the run of the hole loop from world [w], over [matches] in the order
    the loop takes them, some hole's expression evaluates to a failed result
    with this message: the holes before it were replaced, each from the world
    the one before left. *)
Inductive hole_fails (context : ExpressionContext)
    : list TemplateMatch -> World -> string -> Prop :=
| hole_fails_here : forall m rest w message errorType w',
    Kangaroo.evaluateExpression (expression m) context w
    = (Ok (Failure message errorType), w') ->
    hole_fails context (m :: rest) w message
| hole_fails_later : forall m rest w hole w' message,
    Kangaroo.process_hole context (expression m) m w = (Ok hole, w') ->
    hole_fails context rest w' message ->
    hole_fails context (m :: rest) w message.

(** Two contexts with the same variable name and different values. *)
Definition first_context : ExpressionContext :=
  Js.plain_context [("x", VString "first")].

Definition second_context : ExpressionContext :=
  Js.plain_context [("x", VString "second")].

(** ** Trees *)

(** Every node of a tree, the tree itself first, the children in the order
    of the validator's walk. *)
Fixpoint subnodes (n : Node) : list Node :=
  let all := flat_map subnodes in
  n ::
  match n with
  | MemberExpression object property _ => subnodes object ++ subnodes property
  | CallExpression callee arguments => subnodes callee ++ all arguments
  | BinaryExpression lhs _ rhs => subnodes lhs ++ subnodes rhs
  | LogicalExpression lhs _ rhs => subnodes lhs ++ subnodes rhs
  | ConditionalExpression test consequent alternate =>
      subnodes test ++ subnodes consequent ++ subnodes alternate
  | UnaryExpression _ argument => subnodes argument
  | ArrayExpression elements =>
      flat_map
        (fun e : option Node => match e with Some c => subnodes c | None => [] end)
        elements
  | ObjectExpression props => all props
  | Property _ key val => subnodes key ++ subnodes val
  | ArrowFunctionExpression params body => all params ++ subnodes body
  | TemplateLiteral expressions quasis => all expressions ++ all quasis
  | Literal _ | Identifier _ | TemplateElement | OtherNode _ => []
  end%list.

(** When the walk of a tree raises nothing, the built-in rules raise nothing
    at any of its nodes. *)
Definition walk_is_clean (registry : FunctionRegistry) (rules : list SecurityRule)
    (context : option ExpressionContext) (n : Node) : Prop :=
  SecurityValidator.validateNode registry rules n context = [] ->
  forall m, In m (subnodes n) -> SecurityValidator.applyBuiltInValidation registry m = [].

(** A custom rule whose check throws at every node. *)
Definition silent_rule : SecurityRule :=
  mkRule "silent" error (fun _ _ => None) "never raised".

(** [o[[name]]]: a computed access whose key is a one-element array. *)
Definition array_keyed (object : Node) (name : string) : Node :=
  MemberExpression object (ArrayExpression [Some (Literal (VString name))]) true.

(** The node types the validator supports and the executor has no case for. *)
Definition unexecuted_types : list string :=
  [ "Property"; "ArrowFunctionExpression"; "TemplateLiteral"; "TemplateElement" ].

(** [x => x] and the execution of a callback body as the executor hands it
    to the callback engine. *)
Definition identity_arrow : Node :=
  ArrowFunctionExpression [Identifier "x"] (Identifier "x").

Definition run_body (body : Node) : ExpressionContext -> M EvaluationResult :=
  fun c => Executor.execute body c.

(** ** States of the executor *)

(** The state in which [executeNode] runs the [switch] of a node entered in
    state [w], and the state it leaves behind a [switch] that ended in [w]. *)
Definition enter (w : World) : World :=
  set_executor w
    (Executor.set_stack (S (executionStack (executor w))) (executor w)).

Definition leave (w : World) : World :=
  set_executor w
    (Executor.set_stack (Nat.pred (executionStack (executor w))) (executor w)).

(** The stack-depth check passes. *)
Definition stack_has_room (w : World) : Prop :=
  Executor.checkStackDepth w = (Ok tt, w).

(** A registered function that returns its arguments, with the declared
    bounds on their number, and an instance whose registry holds it alone. *)
Definition echo (name : string) (lo hi : option nat) : SafeFunction :=
  mkSafeFunction name (fun args => Ok (VArray args)) lo hi [].

Definition function_world (f : SafeFunction) : World :=
  Kangaroo.new no_parser type_only_json [(fn_name f, f)] [] DefaultTypeRegistry.new
    Kangaroo.defaultOptions.

(** An instance with [strictMode] off. *)
Definition lenient_world : World :=
  Kangaroo.new identifier_parser type_only_json [] [] DefaultTypeRegistry.new
    (mkOptions 100 10 false true).

(** ** Computations *)

(** A computation that raises no error, whatever the state. *)
Definition never_throws {A} (m : M A) : Prop :=
  forall w message, fst (m w) <> Throw message.

(** [kept] is [items] with some elements left out, the order kept. *)
Inductive subsequence {A} : list A -> list A -> Prop :=
| subsequence_nil : subsequence [] []
| subsequence_keep : forall x kept items,
    subsequence kept items -> subsequence (x :: kept) (x :: items)
| subsequence_drop : forall x kept items,
    subsequence kept items -> subsequence kept (x :: items).

(** A computation that keeps an invariant of the instance, whatever it
    returns. *)
Definition preserves (Inv : World -> Prop) {A} (m : M A) : Prop :=
  forall w, Inv w -> Inv (snd (m w)).

(** A callback argument whose body execution keeps the invariant. *)
Definition sound_arg (Inv : World -> Prop) (a : Executor.CallbackArg) : Prop :=
  match a with
  | inl (_, run) => forall c, preserves Inv (run c)
  | inr _ => True
  end.

(** Keeping the invariant, with a fact about the value returned. *)
Definition preserves_with (Inv : World -> Prop) {A} (Q : A -> Prop) (m : M A) : Prop :=
  forall w, Inv w -> Inv (snd (m w)) /\ forall a, fst (m w) = Ok a -> Q a.

Definition node_preserves (Inv : World -> Prop) (n : Node) : Prop :=
  forall context, preserves Inv (Executor.executeNode n context).

Definition node_preserves_deep (Inv : World -> Prop) (n : Node) : Prop :=
  node_preserves Inv n /\
  match n with
  | MemberExpression o _ _ => node_preserves Inv o
  | ArrowFunctionExpression _ body => node_preserves Inv body
  | Property _ k v => node_preserves Inv k /\ node_preserves Inv v
  | _ => True
  end.

(** ** Caches *)

(** A cache within its bound: the counter is at least the number of entries
    and at most the maximum, an empty cache has counter zero, and no key is
    the empty string. *)
Definition cache_ok {V} (maxSize : nat) (cache : JsMap.t V) (size : nat) : Prop :=
  List.length cache <= size /\ size <= maxSize /\
  (cache = [] -> size = 0) /\
  Forall (fun k => k <> "") (JsMap.keys cache).

(** The three caches of an instance are within their bounds. *)
Definition caches_bounded (w : World) : Prop :=
  cache_ok SecurityValidator.maxCacheSize
    (validationCache (validator w)) (validationCacheSize (validator w)) /\
  cache_ok Executor.maxCacheSize
    (propertyCache (executor w)) (propertyCacheSize (executor w)) /\
  cache_ok Kangaroo.maxTemplateCacheSize (templateCache w) (templateCacheSize w).

(** The template cache and its counter are these. *)
Definition template_cache_is (cache : JsMap.t TemplateResult) (size : nat)
    (w : World) : Prop :=
  templateCache w = cache /\ templateCacheSize w = size.

(** ** Template holes *)

(** A match sits where it says: its text is the slice of the template from
    its start to its end, the text is a hole [{{body}}], and its expression
    is the body trimmed, not empty. *)
Definition located (template : string) (m : TemplateMatch) : Prop :=
  template = Str.take (m_startIndex m) template ++ fullMatch m ++
             Str.drop (m_endIndex m) template /\
  m_endIndex m = m_startIndex m + String.length (fullMatch m) /\
  m_endIndex m <= String.length template /\
  expression m <> "" /\
  exists body, fullMatch m = "{{" ++ body ++ "}}" /\ expression m = Str.trim body.

(** Matches in increasing order, none starting before [position] or before
    the end of the one before it. *)
Fixpoint ordered_from (position : nat) (matches : list TemplateMatch) : Prop :=
  match matches with
  | [] => True
  | m :: rest =>
      position <= m_startIndex m /\ m_startIndex m < m_endIndex m /\
      ordered_from (m_endIndex m) rest
  end.

(** A text without the character [c]. *)
Definition lacks (c : ascii) (s : string) : bool :=
  forallb (fun d => negb (Ascii.eqb c d)) (Str.chars s).

(** The only match of a template [pre ++ "{{" ++ body ++ "}}" ++ post] with
    one hole. *)
Definition the_hole (pre body : string) : TemplateMatch :=
  mkMatch ("{{" ++ body ++ "}}") (Str.trim body) (String.length pre)
    (String.length pre + String.length ("{{" ++ body ++ "}}"))
    (Str.includes (String (ascii_of_nat 10) "") (Str.trim body)).

(* ================================================================== *)
(** * Properties *)
(* ================================================================== *)

(** ** Maps and caches *)

Lemma JsMap_get_set_same : forall V (m : JsMap.t V) k v,
  JsMap.get (JsMap.set m k v) k = Some v.
Proof.
  induction m as [|[k' v'] m IH]; intros k v; simpl.
  - now rewrite String.eqb_refl.
  - destruct (String.eqb k k') eqn:E; simpl.
    + now rewrite String.eqb_refl.
    + rewrite E. apply IH.
Qed.

Lemma cache_insert_get : forall V maxSize (cache : JsMap.t V) size key v,
  JsMap.get (fst (cache_insert maxSize cache size key v)) key = Some v.
Proof.
  intros. unfold cache_insert.
  destruct (maxSize <=? size)%nat.
  - destruct (JsMap.first_key cache) as [firstKey|].
    + destruct (String.eqb firstKey ""); simpl; apply JsMap_get_set_same.
    + simpl. apply JsMap_get_set_same.
  - simpl. apply JsMap_get_set_same.
Qed.

(** ** Type registry *)

Lemma register_ok : forall types name config types',
  DefaultTypeRegistry.register types name config = Ok types' ->
  name <> "" /\
  types' = mkRegisteredType name config ::
           filter (fun type => negb (String.eqb (rt_name type) name)) types.
Proof.
  unfold DefaultTypeRegistry.register. intros types name config types' H.
  destruct (String.eqb name "") eqn:E; [discriminate|].
  apply String.eqb_neq in E. inversion H. auto.
Qed.

Lemma register_nonempty : forall types name config,
  name <> "" ->
  DefaultTypeRegistry.register types name config =
  Ok (mkRegisteredType name config ::
      filter (fun type => negb (String.eqb (rt_name type) name)) types).
Proof.
  intros. unfold DefaultTypeRegistry.register.
  apply String.eqb_neq in H. now rewrite H.
Qed.

Lemma register_all_app : forall l1 l2 types types2,
  register_all types (l1 ++ l2)%list = Ok types2 ->
  exists types1, register_all types l1 = Ok types1 /\ register_all types1 l2 = Ok types2.
Proof.
  induction l1 as [|[n c] l1 IH]; intros l2 types types2 H; simpl in *.
  - eauto.
  - destruct (DefaultTypeRegistry.register types n c) as [t| |]; simpl in *;
      try discriminate.
    apply IH. exact H.
Qed.

Lemma detectType_head : forall name config types own proto,
  DefaultTypeRegistry.matchesType own proto config = true ->
  DefaultTypeRegistry.detectType (mkRegisteredType name config :: types)
    (VObject own proto) = Some name.
Proof.
  intros. unfold DefaultTypeRegistry.detectType. simpl. now rewrite H.
Qed.

Lemma detectType_skips : forall own proto front type rest,
  Forall (unmatched own proto) front ->
  DefaultTypeRegistry.matchesType own proto (rt_config type) = true ->
  DefaultTypeRegistry.detectType (front ++ type :: rest)%list (VObject own proto)
  = Some (rt_name type).
Proof.
  intros own proto front type rest Hfront Hm.
  unfold DefaultTypeRegistry.detectType.
  induction Hfront as [|t front Ht _ IH]; simpl.
  - now rewrite Hm.
  - unfold unmatched in Ht. now rewrite Ht.
Qed.

(** Registrations under other names leave an entry in the sequence, and put
    in front of it only themselves and what was in front of it before. *)
Lemma register_all_keeps_entry :
  forall own proto nameB configB later front rest types2,
    Forall (fun entry => fst entry <> nameB /\
                         DefaultTypeRegistry.matchesType own proto (snd entry) = false)
           later ->
    Forall (unmatched own proto) front ->
    register_all (front ++ mkRegisteredType nameB configB :: rest)%list later
    = Ok types2 ->
    exists front' rest',
      types2 = (front' ++ mkRegisteredType nameB configB :: rest')%list /\
      Forall (unmatched own proto) front'.
Proof.
  intros own proto nameB configB later.
  induction later as [|[n c] later IH]; intros front rest types2 Hlater Hfront H.
  - simpl in H. inversion H; subst. eauto.
  - inversion Hlater as [|e l [Hn Hc] Hrest]; subst. simpl in Hn, Hc.
    simpl in H.
    destruct (DefaultTypeRegistry.register _ n c) as [t1| |] eqn:E; simpl in H;
      try discriminate.
    apply register_ok in E. destruct E as [_ E]. subst t1.
    rewrite filter_app in H. simpl in H.
    assert (Hkeep : negb (String.eqb nameB n) = true).
    { apply negb_true_iff, String.eqb_neq. congruence. }
    rewrite Hkeep in H.
    apply (IH (mkRegisteredType n c ::
               filter (fun type => negb (String.eqb (rt_name type) n)) front)
              _ _ Hrest) in H.
    + exact H.
    + constructor; [exact Hc|].
      apply Forall_forall. intros t Ht. apply filter_In in Ht.
      rewrite Forall_forall in Hfront. apply Hfront. tauto.
Qed.

(** C6. Take any sequence of registrations in which A is registered and,
    later, B, both with a schema that matches the value, B being the latest
    registration that matches it: the registrations after B, if any, do not
    match the value and do not replace B. The value is detected as B,
    wherever A and B stand in the sequence and whatever was registered
    before and between them. Registering A again puts A first, in front of
    the other entries with every entry named like A removed, and the value
    is detected as A. *)
Theorem most_recent_registration_wins :
  forall types before between later nameA configA nameB configB own proto types2,
    register_all types
      (before ++ (nameA, configA) :: between ++ (nameB, configB) :: later)%list
    = Ok types2 ->
    DefaultTypeRegistry.matchesType own proto configA = true ->
    DefaultTypeRegistry.matchesType own proto configB = true ->
    Forall (fun entry => fst entry <> nameB /\
                         DefaultTypeRegistry.matchesType own proto (snd entry) = false)
           later ->
    DefaultTypeRegistry.detectType types2 (VObject own proto) = Some nameB /\
    exists types3,
      DefaultTypeRegistry.register types2 nameA configA = Ok types3 /\
      types3 = mkRegisteredType nameA configA ::
               filter (fun type => negb (String.eqb (rt_name type) nameA)) types2 /\
      DefaultTypeRegistry.detectType types3 (VObject own proto) = Some nameA.
Proof.
  intros types before between later nameA configA nameB configB own proto types2
    H HA HB Hlater.
  apply register_all_app in H. destruct H as [t1 [_ H]].
  simpl in H.
  destruct (DefaultTypeRegistry.register t1 nameA configA) as [t1'| |] eqn:EA;
    simpl in H; try discriminate.
  apply register_ok in EA. destruct EA as [HnA _].
  apply register_all_app in H. destruct H as [t2 [_ H]].
  simpl in H.
  destruct (DefaultTypeRegistry.register t2 nameB configB) as [t2'| |] eqn:EB;
    simpl in H; try discriminate.
  apply register_ok in EB. destruct EB as [_ EB]. subst t2'.
  destruct (@register_all_keeps_entry own proto nameB configB later [] _ types2
              Hlater (Forall_nil _) H) as [front [rest [Htypes Hfront]]].
  split.
  - rewrite Htypes.
    apply (@detectType_skips own proto front (mkRegisteredType nameB configB) rest
             Hfront HB).
  - eexists. split; [apply register_nonempty; exact HnA|].
    split; [reflexivity|]. now apply detectType_head.
Qed.

Lemma most_recent_registration_wins_witness :
  DefaultTypeRegistry.detectType
    [ mkRegisteredType "UserItem" (mkTypeConfig other_schema Sjson);
      mkRegisteredType "GenericItem" (mkTypeConfig demo_schema Sstring);
      mkRegisteredType "FileItem" (mkTypeConfig demo_schema Sjson) ]
    (Js.plain demo_item) = Some "GenericItem" /\
  exists types3,
    DefaultTypeRegistry.register
      [ mkRegisteredType "UserItem" (mkTypeConfig other_schema Sjson);
        mkRegisteredType "GenericItem" (mkTypeConfig demo_schema Sstring);
        mkRegisteredType "FileItem" (mkTypeConfig demo_schema Sjson) ]
      "FileItem" (mkTypeConfig demo_schema Sjson) = Ok types3 /\
    types3 =
      mkRegisteredType "FileItem" (mkTypeConfig demo_schema Sjson) ::
      filter (fun type => negb (String.eqb (rt_name type) "FileItem"))
        [ mkRegisteredType "UserItem" (mkTypeConfig other_schema Sjson);
          mkRegisteredType "GenericItem" (mkTypeConfig demo_schema Sstring);
          mkRegisteredType "FileItem" (mkTypeConfig demo_schema Sjson) ] /\
    DefaultTypeRegistry.detectType types3 (Js.plain demo_item) = Some "FileItem".
Proof.
  apply (@most_recent_registration_wins [] [] []
           [("UserItem", mkTypeConfig other_schema Sjson)]
           "FileItem" (mkTypeConfig demo_schema Sjson)
           "GenericItem" (mkTypeConfig demo_schema Sstring)
           demo_item Js.Object_prototype).
  - reflexivity.
  - reflexivity.
  - reflexivity.
  - constructor; [|constructor]. split; [discriminate | reflexivity].
Defined.

(** C3. Where the code departs from the claim: for a type registered with
    the [object] strategy, [serialize] returns the string coercion of the
    value, a string, and not the value itself. Here on the registry's own
    test object [{ id: 'test_123', value: 42 }]. *)
Theorem serialize_object_strategy_returns_text :
  exists types,
    DefaultTypeRegistry.register DefaultTypeRegistry.new "TestType"
      (mkTypeConfig
         (mkTypeSchema [("id", "string"); ("value", "number")] ["id"]) Sobject)
    = Ok types /\
    DefaultTypeRegistry.detectType types
      (Js.plain [("id", VString "test_123"); ("value", VNumber 42)])
    = Some "TestType" /\
    DefaultTypeRegistry.serialize types
      (Js.plain [("id", VString "test_123"); ("value", VNumber 42)]) "TestType"
    = Ok (VString "[object Object]").
Proof.
  eexists. split; [reflexivity|]. split; reflexivity.
Qed.

(** The strategies [json] and [string] do what their names say. *)
Lemma serialize_json_strategy : forall types v typeName registered,
  find (fun type => String.eqb (rt_name type) typeName) types = Some registered ->
  serialization (rt_config registered) = Sjson ->
  forall text, Js.JSON_stringify v = Some (Some text) ->
  DefaultTypeRegistry.serialize types v typeName = Ok (VString text).
Proof.
  intros types v typeName registered Hfind Hs text Hj.
  unfold DefaultTypeRegistry.serialize. rewrite Hfind, Hs.
  unfold DefaultTypeRegistry.JSON_stringify_value. now rewrite Hj.
Qed.

Lemma serialize_string_strategy : forall types v typeName registered,
  find (fun type => String.eqb (rt_name type) typeName) types = Some registered ->
  serialization (rt_config registered) = Sstring ->
  forall text, Js.String_ v = Ok text ->
  DefaultTypeRegistry.serialize types v typeName = Ok (VString text).
Proof.
  intros types v typeName registered Hfind Hs text Hj.
  unfold DefaultTypeRegistry.serialize. rewrite Hfind, Hs.
  unfold DefaultTypeRegistry.String_value. now rewrite Hj.
Qed.

(** ** Executor: property access *)

Lemma safePropertyAccess_object : forall name own proto w,
  mem name Executor.blockedProps = false ->
  String.eqb name "length" = false ->
  fst (Executor.safePropertyAccess (VObject own proto) (VString name) w)
  = Ok (Js.obj_get own proto name).
Proof.
  intros name own proto w Hb Hl.
  unfold Executor.safePropertyAccess.
  cbn [Js.String_ St.host Out.host St.lift St.bind St.get St.ret
       Executor.is_primitive_receiver Js.typeof String.eqb Ascii.eqb Bool.eqb
       negb orb fst snd].
  rewrite Hb. cbn [St.ret St.bind]. rewrite Hl. cbn [Js.get St.host Out.host St.lift St.bind].
  destruct (Executor.is_primitive_result (Js.obj_get own proto name)).
  - unfold Executor.setCached, Executor.update, St.modify. reflexivity.
  - reflexivity.
Qed.

(** C2. Where the code departs from the claim: ten names of the property
    denylist are not refused at access time. Reading such a name on an
    object returns the property, whatever the state of the executor. *)
Theorem safePropertyAccess_lets_denylisted_names_through :
  forall name own proto w,
    In name unguarded_properties ->
    mem name SecurityValidator.blockedProperties = true /\
    fst (Executor.safePropertyAccess (VObject own proto) (VString name) w)
    = Ok (Js.obj_get own proto name).
Proof.
  intros name own proto w H.
  unfold unguarded_properties in H. simpl in H.
  repeat (destruct H as [H|H];
          [subst name; split; [reflexivity | apply safePropertyAccess_object; reflexivity]|]).
  contradiction.
Qed.

Lemma safePropertyAccess_lets_denylisted_names_through_witness :
  mem "bind" SecurityValidator.blockedProperties = true /\
  fst (Executor.safePropertyAccess (Js.plain [("bind", VNumber 1)]) (VString "bind")
         fresh_world)
  = Ok (Js.obj_get [("bind", VNumber 1)] Js.Object_prototype "bind").
Proof.
  apply (@safePropertyAccess_lets_denylisted_names_through
           "bind" [("bind", VNumber 1)] Js.Object_prototype fresh_world).
  simpl. tauto.
Defined.

(** ** Executor: identifiers *)

Lemma execute_identifier : forall name context w,
  fst (Executor.execute (Identifier name) context w)
  = Ok (Success (Executor.executeIdentifier name context)).
Proof.
  intros. unfold Executor.execute, Executor.execute_with.
  cbn [Executor.executeNode].
  unfold Executor.checkStackDepth, Executor.update, St.modify, St.try_finally,
    St.try_catch, St.bind, St.get, St.ret, St.throw.
  cbn [executor set_executor Executor.set_stack executionStack maxStackDepth
       Executor.count_execution Executor.set_stats fst snd].
  destruct (maxStackDepth (executor w)) as [|n]; reflexivity.
Qed.

(** C10, as the code has it. An Identifier evaluates to the context's
    property of that name whenever [name in context] holds, for an own key
    and for a name the context inherits alike, also when the name is one of
    [undefined], [null], [true], [false], [NaN], [Infinity]: an own key
    gives its own value, and a name with no own key gives the inherited
    value. Only a name for which [name in context] is false takes its
    scalar meaning, which is [undefined] for every name but the six. *)
Theorem identifier_context_shadows_constants :
  forall name context w,
    fst (Executor.execute (Identifier name) context w)
    = Ok (Success (Executor.executeIdentifier name context)) /\
    (Js.obj_has (ctx_own context) (ctx_proto context) name = true ->
     Executor.executeIdentifier name context
     = Js.obj_get (ctx_own context) (ctx_proto context) name) /\
    (forall v, JsMap.get (ctx_own context) name = Some v ->
               Executor.executeIdentifier name context = v) /\
    (forall v, JsMap.get (ctx_own context) name = None ->
               JsMap.get (ctx_proto context) name = Some v ->
               Executor.executeIdentifier name context = v) /\
    (Js.obj_has (ctx_own context) (ctx_proto context) name = false ->
     Executor.executeIdentifier name context = scalar_meaning name).
Proof.
  intros name context w. split; [apply execute_identifier|].
  split; [|split; [|split]].
  - intros Hin. unfold Executor.executeIdentifier. now rewrite Hin.
  - intros v Hv. unfold Executor.executeIdentifier, Js.obj_has, JsMap.has, Js.obj_get.
    now rewrite Hv.
  - intros v Hown Hv.
    unfold Executor.executeIdentifier, Js.obj_has, JsMap.has, Js.obj_get.
    now rewrite Hown, Hv.
  - intros Habsent. unfold Executor.executeIdentifier. now rewrite Habsent.
Qed.

(** C10, refuted as stated: the context [{}] has no key of its own, so the
    name [toString] is absent from its keys and is none of the six
    constants; the Identifier [toString] does not evaluate to [undefined]
    but to the function the context inherits. *)
Lemma name_without_own_key_is_inherited :
  ctx_own (Js.plain_context []) = [] /\
  scalar_meaning "toString" = VUndefined /\
  fst (Executor.execute (Identifier "toString") (Js.plain_context []) fresh_world)
  = Ok (Success (VFunction "Object.prototype.toString")) /\
  fst (Executor.execute (Identifier "toString") (Js.plain_context []) fresh_world)
  <> Ok (Success VUndefined).
Proof.
  split; [reflexivity|]. split; [reflexivity|].
  split; [reflexivity | discriminate].
Qed.

Example shadowed_undefined :
  fst (Executor.execute (Identifier "undefined")
         (Js.plain_context [("undefined", VNumber 5)]) fresh_world)
  = Ok (Success (VNumber 5)).
Proof. reflexivity. Qed.

(** ** Executor: the property cache *)

(** C9. The property cache is keyed by the receiver's [typeof] and the
    property name: in the single evaluation of [a.length + b.length] with
    [a = "hello"] and [b = "hi"], the second access is answered from the
    entry [string:length] the first one left, and the sum is 10; read alone
    on a fresh executor, [b.length] is 2. *)
Theorem property_cache_conflates_primitive_receivers :
  fst (Executor.execute (BinaryExpression (length_of "a") "+" (length_of "b"))
         two_strings fresh_world)
  = Ok (Success (VNumber 10)) /\
  fst (Executor.execute (length_of "b") two_strings fresh_world)
  = Ok (Success (VNumber 2)) /\
  JsMap.get
    (propertyCache (executor (snd (Executor.execute (length_of "a") two_strings fresh_world))))
    "string:length"
  = Some (VNumber 5).
Proof.
  repeat split; vm_compute; reflexivity.
Qed.

(** A primitive receiver with a defined entry under its key gets the entry,
    whatever the receiver is. *)
Lemma safePropertyAccess_cache_hit : forall object name cached w,
  Executor.is_primitive_receiver object = true ->
  JsMap.get (propertyCache (executor w)) (Js.typeof object ++ ":" ++ name) = Some cached ->
  Js.is_undefined cached = false ->
  fst (Executor.safePropertyAccess object (VString name) w) = Ok cached.
Proof.
  intros object name cached w Hp Hc Hu.
  unfold Executor.safePropertyAccess.
  cbn [Js.String_ St.host Out.host St.lift St.bind St.get].
  rewrite Hp, Hc, Hu. reflexivity.
Qed.

(** ** Callback engine *)

(** An Arrow with more than three parameters never runs: the callback
    evaluator refuses it, and [reduce] keeps the accumulator at each
    element. *)
Lemma reduce_from_refuses_four_parameters :
  forall execute_body whole params body context initialValue,
    (3 <? List.length params)%nat = true ->
    forall items index w,
      Callbacks.reduce_from execute_body whole (ArrowFunctionExpression params body)
        context initialValue items index w
      = (Ok initialValue, w).
Proof.
  intros execute_body whole params body context initialValue Hlt items.
  induction items as [|item rest IH]; intros index w.
  - reflexivity.
  - cbn [Callbacks.reduce_from]. unfold St.bind at 1.
    unfold Callbacks.reduce_step, St.try_catch, Callbacks.executeCallback,
      Callbacks.validateArrowFunction, St.bind at 1, St.ret, St.throw.
    rewrite Hlt. cbn. apply IH.
Qed.

Lemma reduce_refuses_four_parameters :
  forall execute_body items params body initialValue context w,
    (3 < List.length params)%nat ->
    Callbacks.reduce execute_body (VArray items)
      (ArrowFunctionExpression params body) initialValue context w
    = (Ok initialValue, w).
Proof.
  intros. unfold Callbacks.reduce.
  apply reduce_from_refuses_four_parameters. now apply Nat.ltb_lt.
Qed.

(** C4. Where the code departs from the claim: a [reduce] whose Arrow
    declares the four parameters (accumulator, element, index, array) passes
    the security validator, yet no invocation binds anything: the callback
    evaluator refuses Arrows of more than three parameters, each element's
    error is swallowed, and the initial value comes back. With two
    parameters the same fold gives the sum. *)
Theorem reduce_with_four_parameters_keeps_initial_value :
  SecurityValidator.validateNode [] []
    (reduce_sum ["acc"; "x"; "index"; "array"]) None = [] /\
  fst (Executor.execute (reduce_sum ["acc"; "x"; "index"; "array"])
         (Js.plain_context []) fresh_world)
  = Ok (Success (VNumber 0)) /\
  fst (Executor.execute (reduce_sum ["acc"; "x"]) (Js.plain_context []) fresh_world)
  = Ok (Success (VNumber 6)).
Proof.
  repeat split; vm_compute; reflexivity.
Qed.

(** With at most three parameters the arguments are bound by position. *)
Example reduce_binds_three_parameters :
  Callbacks.bind_params []
    [Identifier "acc"; Identifier "x"; Identifier "index"]
    [VNumber 0; VString "e"; VNumber 7; VArray []]
  = Some [("acc", VNumber 0); ("x", VString "e"); ("index", VNumber 7)].
Proof. reflexivity. Qed.

(** ** Security validator *)

Lemma validate_on_miss : forall w node context key,
  Validator.getCacheKey w node context = Ok key ->
  JsMap.get (validationCache (validator w)) key = None ->
  exists w',
    Validator.validate node context w = (Ok (Validator.compute w node context), w') /\
    options w' = options w /\
    kangarooStats w' = kangarooStats w.
Proof.
  intros w node context key Hkey Hmiss.
  unfold Validator.validate, St.bind, St.get, St.lift.
  rewrite Hkey, Hmiss.
  unfold Validator.setCached, St.modify, St.ret.
  destruct (cache_insert SecurityValidator.maxCacheSize (validationCache (validator w))
              (validationCacheSize (validator w)) key (Validator.compute w node context))
    as [cache size].
  eexists. split; [reflexivity|]. split; reflexivity.
Qed.

Lemma isValid_compute : forall w node context,
  isValid (Validator.compute w node context) = true <->
  SecurityValidator.validateNode (functionRegistry w) (customRules w) node context = [].
Proof.
  intros. unfold Validator.compute. cbn [isValid].
  destruct (SecurityValidator.validateNode (functionRegistry w) (customRules w) node context);
    simpl; split; intro H; try reflexivity; discriminate.
Qed.

(** C1, as the code has it. On a miss of the validation cache, [validate]
    returns the violations of the walk and accepts the tree exactly when the
    walk produced no violation at all, of either severity; and in strict
    mode, for an expression within the complexity and depth caps, any
    violation, a warning included, makes [evaluateExpression] return a
    security error that joins the messages. *)
Theorem validate_accepts_iff_no_violation :
  forall w expr parsed context key,
    ASTParser.parse w expr = Some parsed ->
    PrimFloat.ltb (maxComplexity (options w)) (complexity_score parsed) = false ->
    PrimFloat.ltb (maxDepth (options w)) (depth parsed) = false ->
    strictMode (options w) = true ->
    Validator.getCacheKey w (ast parsed) (Some context) = Ok key ->
    JsMap.get (validationCache (validator w)) key = None ->
    let vs :=
      SecurityValidator.validateNode (functionRegistry w) (customRules w)
        (ast parsed) (Some context) in
    (exists validation w1,
        Validator.validate (ast parsed) (Some context) w = (Ok validation, w1) /\
        violations validation = vs /\
        (isValid validation = true <-> vs = [])) /\
    (vs <> [] ->
     exists w2,
       Kangaroo.evaluateExpression expr context w
       = (Ok (Failure ("Security violation: " ++ Str.join "; " (List.map v_message vs))
                security), w2)).
Proof.
  intros w expr parsed context key Hparse Hc Hd Hstrict Hkey Hmiss vs.
  destruct (validate_on_miss w (ast parsed) (Some context) Hkey Hmiss)
    as [w1 [Hval _]].
  split.
  - exists (Validator.compute w (ast parsed) (Some context)), w1.
    split; [exact Hval|]. split; [reflexivity|]. apply isValid_compute.
  - intros Hvs.
    unfold Kangaroo.evaluateExpression, St.try_catch.
    unfold St.bind at 1. unfold St.get at 1.
    rewrite Hparse, Hc, Hd, Hstrict.
    unfold St.bind at 1. unfold St.bind at 1.
    rewrite Hval.
    assert (Hinvalid : isValid (Validator.compute w (ast parsed) (Some context)) = false).
    { destruct (isValid (Validator.compute w (ast parsed) (Some context))) eqn:E;
        [|reflexivity].
      apply isValid_compute in E. contradiction. }
    rewrite Hinvalid. cbn [negb St.ret].
    exists w1. reflexivity.
Qed.

(** C1, refuted as stated: the walk of a 10001-character string literal
    produces one violation, of warning severity, and no error; [validate]
    answers [isValid = false], and [evaluate] in strict mode returns a
    security error. *)
Lemma warning_only_tree_is_rejected :
  long_violations =
    [mkViolation complexity_limit "String literal too long (10001 characters)"
       (Some warning)] /\
  forallb is_warning long_violations = true /\
  existsb is_error long_violations = false /\
  option_map isValid
    (match fst (Validator.validate long_literal (Some empty_context) long_world) with
     | Ok validation => Some validation
     | _ => None
     end) = Some false /\
  strictMode (options long_world) = true /\
  fst (Kangaroo.evaluate long_source empty_context long_world)
  = Ok (Direct (Failure "Security violation: String literal too long (10001 characters)"
                  security)).
Proof.
  split; [vm_compute; reflexivity|].
  split; [vm_compute; reflexivity|].
  split; [vm_compute; reflexivity|].
  split; [vm_compute; reflexivity|].
  split; [reflexivity|].
  vm_compute; reflexivity.
Qed.

Lemma validate_accepts_iff_no_violation_witness :
  (exists validation w1,
      Validator.validate long_literal (Some empty_context) long_world
      = (Ok validation, w1) /\
      violations validation = long_violations /\
      (isValid validation = true <-> long_violations = [])) /\
  (long_violations <> [] ->
   exists w2,
     Kangaroo.evaluateExpression long_source empty_context long_world
     = (Ok (Failure ("Security violation: " ++
                     Str.join "; " (List.map v_message long_violations)) security), w2)).
Proof.
  apply (@validate_accepts_iff_no_violation long_world long_source
           (mkParsed long_literal 0.5 0) empty_context "Literal:Literal|{}").
  - vm_compute. reflexivity.
  - vm_compute. reflexivity.
  - vm_compute. reflexivity.
  - reflexivity.
  - vm_compute. reflexivity.
  - reflexivity.
Defined.

(** ** Orchestrator: [validate] on a bare identifier *)

Lemma blockedIdentifiers_plain :
  forallb plain_name SecurityValidator.blockedIdentifiers = true.
Proof. vm_compute. reflexivity. Qed.

Lemma validateNode_blocked_identifier : forall registry rules name context,
  mem name SecurityValidator.blockedIdentifiers = true ->
  exists rest,
    SecurityValidator.validateNode registry rules (Identifier name) context
    = SecurityValidator.violation blocked_identifier
        ("Identifier '" ++ name ++ "' is blocked for security reasons") error :: rest.
Proof.
  intros registry rules name context Hmem.
  cbn [SecurityValidator.validateNode node_type].
  change (mem "Identifier" SecurityValidator.supportedNodeTypes) with true.
  cbn [negb SecurityValidator.applyBuiltInValidation].
  unfold SecurityValidator.validateIdentifier. rewrite Hmem.
  simpl. eauto.
Qed.

Lemma mem_In : forall x l, In x l -> mem x l = true.
Proof.
  intros x l H. unfold mem. apply existsb_exists.
  exists x. split; [exact H | apply String.eqb_refl].
Qed.

(** C5, as the code has it. For every name of the identifier denylist that
    the parser reads as an Identifier node, [validate] on the bare name,
    when the validator's cache holds no result under the node's key, answers
    [isValid = false] with a violation of type [blocked_identifier]. *)
Theorem validate_rejects_blocked_identifier :
  forall w name parsed key,
    In name SecurityValidator.blockedIdentifiers ->
    parseInternal w name = Some parsed ->
    ast parsed = Identifier name ->
    Validator.getCacheKey w (Identifier name) None = Ok key ->
    JsMap.get (validationCache (validator w)) key = None ->
    exists result w',
      Kangaroo.validate name w = (Ok result, w') /\
      isValid result = false /\
      Exists (fun v => v_type v = blocked_identifier) (violations result).
Proof.
  intros w name parsed key Hin Hparse Hast Hkey Hmiss.
  pose proof blockedIdentifiers_plain as Hplain.
  rewrite forallb_forall in Hplain. specialize (Hplain name Hin).
  unfold plain_name in Hplain.
  apply andb_prop in Hplain. destruct Hplain as [Hplain Hholes].
  apply andb_prop in Hplain. destruct Hplain as [Hne Htrim].
  apply negb_true_iff in Hne. apply negb_true_iff in Hholes.
  apply String.eqb_eq in Htrim.
  destruct (validate_on_miss w (Identifier name) None Hkey Hmiss) as [w1 [Hval _]].
  destruct (@validateNode_blocked_identifier (functionRegistry w) (customRules w)
              name None (mem_In _ _ Hin)) as [rest Hvs].
  unfold Kangaroo.validate. rewrite Hne, Htrim, Hne, Hholes.
  unfold St.try_catch. cbn [St.mapM]. unfold St.bind at 1. unfold St.bind at 1.
  unfold Kangaroo.validate_one at 1. rewrite Htrim, Hne.
  unfold St.bind at 1. unfold St.get at 1.
  unfold ASTParser.parse. rewrite Hne, Htrim, Hne, Hparse.
  set (tooComplex :=
         if PrimFloat.ltb (maxComplexity (options w)) (complexity_score parsed)
         then _ else _).
  set (tooDeep :=
         if PrimFloat.ltb (maxDepth (options w)) (depth parsed) then _ else _).
  assert (HC : exists c, tooComplex w = (Ok c, w)).
  { subst tooComplex.
    destruct (PrimFloat.ltb (maxComplexity (options w)) (complexity_score parsed));
      eexists; reflexivity. }
  destruct HC as [c HC].
  assert (HD : exists d, tooDeep w = (Ok d, w)).
  { subst tooDeep.
    destruct (PrimFloat.ltb (maxDepth (options w)) (depth parsed));
      eexists; reflexivity. }
  destruct HD as [d HD].
  unfold St.bind at 1. rewrite HC.
  unfold St.bind at 1. rewrite HD.
  unfold St.bind at 1. rewrite Hast, Hval.
  unfold Validator.compute. rewrite Hvs. cbn [violations St.ret St.bind List.concat].
  eexists. exists w1. split; [reflexivity|].
  cbn [isValid violations]. split.
  - rewrite app_nil_r. rewrite !length_app. simpl.
    apply Nat.eqb_neq. lia.
  - rewrite app_nil_r. apply Exists_app. right. apply Exists_app. right.
    apply Exists_cons_hd. reflexivity.
Qed.

Lemma validate_rejects_blocked_identifier_witness :
  exists result w',
    Kangaroo.validate "eval" identifier_world = (Ok result, w') /\
    isValid result = false /\
    Exists (fun v => v_type v = blocked_identifier) (violations result).
Proof.
  apply (@validate_rejects_blocked_identifier identifier_world "eval"
           (mkParsed (Identifier "eval") 0.5 0) "Identifier:Identifier|").
  - simpl. tauto.
  - reflexivity.
  - reflexivity.
  - reflexivity.
  - reflexivity.
Defined.

(** C5, refuted as stated, on an instance that has validated nothing yet.
    The listed name [import] is a keyword and no expression: the parser
    refuses it, and [validate] answers with the single violation
    [Invalid syntax], of type [blocked_pattern], and none of type
    [blocked_identifier]. The listed name [eval] is read as an Identifier,
    whose cache key ends before the name: it is the key of the Identifier
    [item], and once [item] has been validated, [validate] on [eval] answers
    [isValid = true] with no violation. *)
Lemma blocked_identifier_is_not_always_reported :
  In "import" SecurityValidator.blockedIdentifiers /\
  fst (Kangaroo.validate "import" name_world)
  = Ok (mkValidation false
          [mkViolation blocked_pattern "Invalid syntax in expression: import" None]
          (Some low)) /\
  In "eval" SecurityValidator.blockedIdentifiers /\
  Validator.getCacheKey name_world (Identifier "eval") None
  = Validator.getCacheKey name_world (Identifier "item") None /\
  fst (Kangaroo.validate "item" name_world) = Ok (mkValidation true [] (Some low)) /\
  fst (Kangaroo.validate "eval" (snd (Kangaroo.validate "item" name_world)))
  = Ok (mkValidation true [] (Some low)).
Proof.
  split; [simpl; tauto|].
  split; [vm_compute; reflexivity|].
  split; [simpl; tauto|].
  split; [vm_compute; reflexivity|].
  split; vm_compute; reflexivity.
Qed.

(** ** The configuration is never written *)

Section NodeInduction.

Variable P : Node -> Prop.

Hypothesis HLiteral : forall v, P (Literal v).
Hypothesis HIdentifier : forall name, P (Identifier name).
Hypothesis HMember : forall o p c, P o -> P p -> P (MemberExpression o p c).
Hypothesis HCall : forall callee args, P callee -> Forall P args -> P (CallExpression callee args).
Hypothesis HBinary : forall l op r, P l -> P r -> P (BinaryExpression l op r).
Hypothesis HLogical : forall l op r, P l -> P r -> P (LogicalExpression l op r).
Hypothesis HConditional : forall t c a, P t -> P c -> P a -> P (ConditionalExpression t c a).
Hypothesis HUnary : forall op a, P a -> P (UnaryExpression op a).
Hypothesis HArray : forall elements,
  Forall (fun e : option Node => match e with Some n => P n | None => True end) elements ->
  P (ArrayExpression elements).
Hypothesis HObject : forall props, Forall P props -> P (ObjectExpression props).
Hypothesis HProperty : forall c k v, P k -> P v -> P (Property c k v).
Hypothesis HArrow : forall params body, Forall P params -> P body ->
  P (ArrowFunctionExpression params body).
Hypothesis HTemplateLiteral : forall e q, Forall P e -> Forall P q -> P (TemplateLiteral e q).
Hypothesis HTemplateElement : P TemplateElement.
Hypothesis HOther : forall t, P (OtherNode t).

Fixpoint Node_induction (n : Node) : P n :=
  let all :=
    fix all (l : list Node) : Forall P l :=
      match l with
      | [] => Forall_nil P
      | x :: r => @Forall_cons _ P x r (Node_induction x) (all r)
      end in
  match n with
  | Literal v => HLiteral v
  | Identifier name => HIdentifier name
  | MemberExpression o p c => @HMember o p c (Node_induction o) (Node_induction p)
  | CallExpression callee args => @HCall callee args (Node_induction callee) (all args)
  | BinaryExpression l op r => @HBinary l op r (Node_induction l) (Node_induction r)
  | LogicalExpression l op r => @HLogical l op r (Node_induction l) (Node_induction r)
  | ConditionalExpression t c a =>
      @HConditional t c a (Node_induction t) (Node_induction c) (Node_induction a)
  | UnaryExpression op a => @HUnary op a (Node_induction a)
  | ArrayExpression elements =>
      @HArray elements
        ((fix each (l : list (option Node))
            : Forall (fun e : option Node => match e with Some n => P n | None => True end) l :=
            match l with
            | [] => Forall_nil _
            | Some x :: r => @Forall_cons _ _ (Some x) r (Node_induction x) (each r)
            | None :: r => @Forall_cons _ _ None r I (each r)
            end) elements)
  | ObjectExpression props => @HObject props (all props)
  | Property c k v => @HProperty c k v (Node_induction k) (Node_induction v)
  | ArrowFunctionExpression params body =>
      @HArrow params body (all params) (Node_induction body)
  | TemplateLiteral e q => @HTemplateLiteral e q (all e) (all q)
  | TemplateElement => HTemplateElement
  | OtherNode t => HOther t
  end.

End NodeInduction.

Lemma keeps_ret : forall A (a : A), keeps_options (St.ret a).
Proof. intros A a w. reflexivity. Qed.

Lemma keeps_throw : forall A message, keeps_options (@St.throw A message).
Proof. intros A m w. reflexivity. Qed.

Lemma keeps_unmodelled : forall A, keeps_options (@St.unmodelled A).
Proof. intros A w. reflexivity. Qed.

Lemma keeps_lift : forall A (x : outcome A), keeps_options (St.lift x).
Proof. intros A x w. reflexivity. Qed.

Lemma keeps_host : forall A (x : option A), keeps_options (St.host x).
Proof. intros A x w. reflexivity. Qed.

Lemma keeps_get : keeps_options St.get.
Proof. intros w. reflexivity. Qed.

Lemma keeps_bind : forall A B (m : M A) (f : A -> M B),
  keeps_options m -> (forall a, keeps_options (f a)) -> keeps_options (St.bind m f).
Proof.
  intros A B m f Hm Hf w. unfold St.bind.
  specialize (Hm w). destruct (m w) as [[a| |] w1]; simpl in *; try exact Hm.
  rewrite (Hf a w1). exact Hm.
Qed.

Lemma keeps_try_catch : forall A (body : M A) handler,
  keeps_options body -> (forall e, keeps_options (handler e)) ->
  keeps_options (St.try_catch body handler).
Proof.
  intros A body handler Hb Hh w. unfold St.try_catch.
  specialize (Hb w). destruct (body w) as [[a| |] w1]; simpl in *; try exact Hb.
  rewrite (Hh message w1). exact Hb.
Qed.

Lemma keeps_try_finally : forall A (body : M A) cleanup,
  keeps_options body -> (forall w, options (cleanup w) = options w) ->
  keeps_options (St.try_finally body cleanup).
Proof.
  intros A body cleanup Hb Hc w. unfold St.try_finally.
  specialize (Hb w). destruct (body w) as [r w1]. simpl in *.
  rewrite Hc. exact Hb.
Qed.

Lemma keeps_modify : forall f,
  (forall w, options (f w) = options w) -> keeps_options (St.modify f).
Proof. intros f H w. apply H. Qed.

Lemma keeps_mapM : forall A B (f : A -> M B) l,
  Forall (fun x => keeps_options (f x)) l -> keeps_options (St.mapM f l).
Proof.
  intros A B f l H. induction H as [|x l Hx _ IH]; cbn [St.mapM].
  - apply keeps_ret.
  - apply keeps_bind; [exact Hx|]. intros y.
    apply keeps_bind; [exact IH|]. intros ys. apply keeps_ret.
Qed.

Ltac keeps_step :=
  first
    [ assumption
    | apply keeps_ret | apply keeps_throw | apply keeps_unmodelled
    | apply keeps_lift | apply keeps_host | apply keeps_get
    | apply keeps_bind; [|intros ?]
    | apply keeps_try_catch; [|intros ?]
    | apply keeps_try_finally; [|intros ?; reflexivity]
    | apply keeps_modify; intros ?; reflexivity
    | match goal with
      | |- keeps_options (match ?x with _ => _ end) => destruct x
      | |- keeps_options (if ?b then _ else _) => destruct b
      | |- keeps_options (let '(_, _) := ?x in _) => destruct x
      end ].

Ltac keeps := repeat keeps_step.

Lemma keeps_validate : forall node context,
  keeps_options (Validator.validate node context).
Proof.
  intros. unfold Validator.validate. keeps.
  unfold Validator.setCached. apply keeps_modify. intros w.
  destruct (cache_insert _ _ _ _ _). reflexivity.
Qed.

Lemma keeps_update : forall f, keeps_options (Executor.update f).
Proof. intros f w. reflexivity. Qed.

Lemma keeps_executor_setCached : forall k v, keeps_options (Executor.setCached k v).
Proof. intros k v w. reflexivity. Qed.

Lemma keeps_safePropertyAccess : forall object property,
  keeps_options (Executor.safePropertyAccess object property).
Proof.
  intros. unfold Executor.safePropertyAccess.
  repeat first [ apply keeps_update | apply keeps_executor_setCached | keeps_step ].
Qed.

Lemma keeps_executeFunction : forall name args,
  keeps_options (Executor.executeFunction name args).
Proof. intros. unfold Executor.executeFunction. keeps. Qed.

Lemma keeps_executeMethod : forall object methodName args,
  keeps_options (Executor.executeMethod object methodName args).
Proof. intros. unfold Executor.executeMethod. keeps. Qed.

Lemma keeps_checkStackDepth : keeps_options Executor.checkStackDepth.
Proof. unfold Executor.checkStackDepth. keeps. Qed.

Lemma keeps_execute_with : forall walk,
  keeps_options walk -> keeps_options (Executor.execute_with walk).
Proof.
  intros walk H. unfold Executor.execute_with.
  repeat first [ apply keeps_update | keeps_step ].
Qed.

Section CallbacksKeep.

Variable execute_body : ExpressionContext -> M EvaluationResult.
Hypothesis Hbody : forall c, keeps_options (execute_body c).

Lemma keeps_validateArrowFunction : forall arrowNode,
  keeps_options (Callbacks.validateArrowFunction arrowNode).
Proof.
  intros. unfold Callbacks.validateArrowFunction.
  repeat first [ apply keeps_validate | keeps_step ].
Qed.

Lemma keeps_executeCallback : forall arrowNode args context,
  keeps_options (Callbacks.executeCallback execute_body arrowNode args context).
Proof.
  intros. unfold Callbacks.executeCallback.
  repeat first [ apply keeps_validateArrowFunction | apply Hbody | keeps_step ].
Qed.

Lemma keeps_test_element : forall array arrowNode context item index,
  keeps_options (Callbacks.test_element execute_body array arrowNode context item index).
Proof.
  intros. unfold Callbacks.test_element.
  repeat first [ apply keeps_executeCallback | keeps_step ].
Qed.

Lemma keeps_filter_from : forall array arrowNode context items index,
  keeps_options (Callbacks.filter_from execute_body array arrowNode context items index).
Proof.
  intros array arrowNode context items.
  induction items as [|item rest IH]; intros index; cbn [Callbacks.filter_from].
  - keeps.
  - repeat first
      [ apply keeps_test_element | apply keeps_executeCallback | apply IH | keeps_step ].
Qed.

Lemma keeps_filter : forall array arrowNode context,
  keeps_options (Callbacks.filter execute_body array arrowNode context).
Proof.
  intros. unfold Callbacks.filter.
  destruct array; repeat first [ apply keeps_filter_from | keeps_step ].
Qed.

Lemma keeps_map_from : forall array arrowNode context items index,
  keeps_options (Callbacks.map_from execute_body array arrowNode context items index).
Proof.
  intros array arrowNode context items.
  induction items as [|item rest IH]; intros index; cbn [Callbacks.map_from].
  - keeps.
  - repeat first
      [ apply keeps_test_element | apply keeps_executeCallback | apply IH | keeps_step ].
Qed.

Lemma keeps_map : forall array arrowNode context,
  keeps_options (Callbacks.map execute_body array arrowNode context).
Proof.
  intros. unfold Callbacks.map.
  destruct array; repeat first [ apply keeps_map_from | keeps_step ].
Qed.

Lemma keeps_find_from : forall array arrowNode context items index,
  keeps_options (Callbacks.find_from execute_body array arrowNode context items index).
Proof.
  intros array arrowNode context items.
  induction items as [|item rest IH]; intros index; cbn [Callbacks.find_from].
  - keeps.
  - repeat first
      [ apply keeps_test_element | apply keeps_executeCallback | apply IH | keeps_step ].
Qed.

Lemma keeps_find : forall array arrowNode context,
  keeps_options (Callbacks.find execute_body array arrowNode context).
Proof.
  intros. unfold Callbacks.find.
  destruct array; repeat first [ apply keeps_find_from | keeps_step ].
Qed.

Lemma keeps_some_from : forall array arrowNode context items index,
  keeps_options (Callbacks.some_from execute_body array arrowNode context items index).
Proof.
  intros array arrowNode context items.
  induction items as [|item rest IH]; intros index; cbn [Callbacks.some_from].
  - keeps.
  - repeat first
      [ apply keeps_test_element | apply keeps_executeCallback | apply IH | keeps_step ].
Qed.

Lemma keeps_some : forall array arrowNode context,
  keeps_options (Callbacks.some execute_body array arrowNode context).
Proof.
  intros. unfold Callbacks.some.
  destruct array; repeat first [ apply keeps_some_from | keeps_step ].
Qed.

Lemma keeps_every_from : forall array arrowNode context items index,
  keeps_options (Callbacks.every_from execute_body array arrowNode context items index).
Proof.
  intros array arrowNode context items.
  induction items as [|item rest IH]; intros index; cbn [Callbacks.every_from].
  - keeps.
  - repeat first
      [ apply keeps_test_element | apply keeps_executeCallback | apply IH | keeps_step ].
Qed.

Lemma keeps_every : forall array arrowNode context,
  keeps_options (Callbacks.every execute_body array arrowNode context).
Proof.
  intros. unfold Callbacks.every.
  destruct array; repeat first [ apply keeps_every_from | keeps_step ].
Qed.

Lemma keeps_reduce_from : forall array arrowNode context items accumulator index,
  keeps_options
    (Callbacks.reduce_from execute_body array arrowNode context accumulator items index).
Proof.
  intros array arrowNode context items.
  induction items as [|item rest IH]; intros accumulator index;
    cbn [Callbacks.reduce_from].
  - keeps.
  - unfold Callbacks.reduce_step.
    repeat first [ apply keeps_executeCallback | apply IH | keeps_step ].
Qed.

Lemma keeps_reduce : forall array arrowNode initialValue context,
  keeps_options (Callbacks.reduce execute_body array arrowNode initialValue context).
Proof.
  intros. unfold Callbacks.reduce.
  destruct array; repeat first [ apply keeps_reduce_from | keeps_step ].
Qed.

End CallbacksKeep.

Lemma keeps_executeCallbackMethod : forall array methodName args context,
  Forall good_arg args ->
  keeps_options (Executor.executeCallbackMethod array methodName args context).
Proof.
  intros array methodName args context Hargs.
  unfold Executor.executeCallbackMethod.
  destruct Hargs as [|a rest Ha Hrest]; [keeps|].
  destruct a as [[callbackArg run]|v]; simpl in Ha.
  - repeat first
      [ apply keeps_filter | apply keeps_map | apply keeps_find | apply keeps_some
      | apply keeps_every | apply keeps_reduce | exact Ha | keeps_step ].
  - keeps.
Qed.

Lemma keeps_bind_with : forall A B (Q : A -> Prop) (m : M A) (f : A -> M B),
  keeps_with Q m -> (forall a, Q a -> keeps_options (f a)) ->
  keeps_options (St.bind m f).
Proof.
  intros A B Q m f Hm Hf w. unfold St.bind.
  destruct (Hm w) as [Ho Hq]. destruct (m w) as [[a| |] w1]; simpl in *; try exact Ho.
  rewrite (Hf a (Hq a eq_refl) w1). exact Ho.
Qed.

Ltac use_node_keeps :=
  match goal with
  | H : node_keeps ?n |- keeps_options (Executor.executeNode ?n _) => apply H
  end.

Ltac walk_step :=
  first
    [ use_node_keeps
    | apply keeps_checkStackDepth | apply keeps_update
    | apply keeps_safePropertyAccess | apply keeps_executeFunction
    | apply keeps_executeMethod
    | keeps_step ].

Ltac walk := repeat walk_step.

Ltac open_frame :=
  intros context; cbn [Executor.executeNode];
  apply keeps_bind; [apply keeps_checkStackDepth | intros _];
  apply keeps_bind; [apply keeps_update | intros _];
  apply keeps_try_finally; [| intros ?; reflexivity].

Lemma Forall_node_keeps : forall l, Forall node_keeps_deep l -> Forall node_keeps l.
Proof. intros l H. eapply Forall_impl; [|exact H]. intros n [Hn _]. exact Hn. Qed.

Lemma keeps_with_ret : forall A (Q : A -> Prop) a, Q a -> keeps_with Q (St.ret a).
Proof.
  intros A Q a Ha w. split; [reflexivity|]. intros x Hx. inversion Hx. subst. exact Ha.
Qed.

Lemma keeps_with_bind : forall A B (Q : A -> Prop) (R : B -> Prop) (m : M A) (f : A -> M B),
  keeps_with Q m -> (forall a, Q a -> keeps_with R (f a)) ->
  keeps_with R (St.bind m f).
Proof.
  intros A B Q R m f Hm Hf w. unfold St.bind.
  destruct (Hm w) as [Ho Hq]. destruct (m w) as [[a| |] w1]; cbn [fst snd] in *.
  - destruct (Hf a (Hq a eq_refl) w1) as [Ho' Hq']. split; [congruence | exact Hq'].
  - split; [exact Ho | intros ? Hx; discriminate].
  - split; [exact Ho | intros ? Hx; discriminate].
Qed.

Lemma classify_arg_keeps : forall context arg,
  node_keeps_deep arg -> keeps_with good_arg (classify_arg context arg).
Proof.
  intros context arg [Hself Hdeep].
  assert (Hplain : keeps_with good_arg
            (St.bind (Executor.executeNode arg context)
               (fun v => St.ret (inr v : Executor.CallbackArg)))).
  { intros w1. split.
    - apply keeps_bind; [apply Hself|intros ?; apply keeps_ret].
    - intros a Ha. unfold St.bind in Ha.
      destruct (Executor.executeNode arg context w1) as [[v| |] w2];
        simpl in Ha; try discriminate.
      inversion Ha. exact I. }
  destruct arg; try exact Hplain.
  intros w1. split; [reflexivity|].
  intros a Ha. inversion Ha. simpl. intros c.
  apply keeps_execute_with. apply Hdeep.
Qed.

Lemma executeNode_keeps_options_deep : forall n, node_keeps_deep n.
Proof.
  apply Node_induction.
  - (* Literal *) intros v. split; [|exact I]. open_frame. walk.
  - (* Identifier *) intros name. split; [|exact I]. open_frame. walk.
  - (* MemberExpression *)
    intros o p c [Ho _] [Hp _]. split; [|exact Ho]. open_frame. walk.
  - (* CallExpression *)
    intros callee args Hcallee Hargs. split; [|exact I].
    pose proof (Forall_node_keeps Hargs) as Hargs'.
    assert (Hall : forall context,
               keeps_options (St.mapM (fun arg => Executor.executeNode arg context) args)).
    { intros context. apply keeps_mapM. eapply Forall_impl; [|exact Hargs'].
      intros a Ha. apply Ha. }
    open_frame.
    destruct callee; try solve [walk].
    + (* Identifier *) apply keeps_bind; [apply Hall|intros ?]. walk.
    + (* MemberExpression *)
      destruct Hcallee as [_ Hobject].
      cbv zeta.
      destruct (Executor.getMethodName _) as [method|]; [|walk].
      destruct (String.eqb method ""); [walk|].
      apply keeps_bind; [apply keeps_get|intros w0].
      match goal with |- keeps_options (if ?b then _ else _) => destruct b end.
      * apply keeps_bind; [apply Hall|intros ?]. walk.
      * apply keeps_bind; [apply Hobject|intros obj].
        match goal with |- keeps_options (if ?b then _ else _) => destruct b end.
        -- eapply keeps_bind_with with (Q := Forall good_arg).
           ++ clear Hall Hargs'. induction Hargs as [|arg rest Harg _ IH].
              ** intros w. split; [reflexivity|]. intros a Ha. inversion Ha. constructor.
              ** intros w.
                 set (loop := fix evaluate_args (args : list Node) : M (list Executor.CallbackArg) := _) in *.
                 change (loop (arg :: rest)) with
                   (St.bind (classify_arg context arg)
                      (fun a => St.bind (loop rest) (fun rest' => St.ret (a :: rest')))).
                 revert w.
                 apply keeps_with_bind with (Q := good_arg);
                   [apply classify_arg_keeps; exact Harg | intros a Ha].
                 apply keeps_with_bind with (Q := Forall good_arg);
                   [exact IH | intros rest' Hrest'].
                 apply keeps_with_ret. constructor; assumption.
           ++ intros evaluatedArgs Hgood. apply keeps_executeCallbackMethod. exact Hgood.
        -- apply keeps_bind; [apply Hall|intros ?]. walk.
  - (* BinaryExpression *) intros l op r [Hl _] [Hr _]. split; [|exact I]. open_frame. walk.
  - (* LogicalExpression *) intros l op r [Hl _] [Hr _]. split; [|exact I]. open_frame. walk.
  - (* ConditionalExpression *)
    intros t c a [Ht _] [Hc _] [Ha _]. split; [|exact I]. open_frame. walk.
  - (* UnaryExpression *) intros op a [Ha _]. split; [|exact I]. open_frame. walk.
  - (* ArrayExpression *)
    intros elements Helements. split; [|exact I]. open_frame.
    apply keeps_bind; [|intros ?; walk].
    apply keeps_mapM. eapply Forall_impl; [|exact Helements].
    intros [e|] He; [apply He | apply keeps_ret].
  - (* ObjectExpression *)
    intros props Hprops. split; [|exact I]. open_frame.
    apply keeps_bind; [|intros ?; walk].
    generalize (@nil (string * value)).
    induction Hprops as [|prop rest Hprop _ IH]; intros result.
    + walk.
    + destruct prop; try solve [walk].
      destruct Hprop as [_ [Hk Hv]].
      repeat first [ apply IH | walk_step ].
  - (* Property *)
    intros c k v [Hk _] [Hv _]. split; [|split; assumption]. open_frame. walk.
  - (* ArrowFunctionExpression *)
    intros params body _ [Hbody _]. split; [|exact Hbody]. open_frame. walk.
  - (* TemplateLiteral *) intros e q _ _. split; [|exact I]. open_frame. walk.
  - (* TemplateElement *) split; [|exact I]. open_frame. walk.
  - (* OtherNode *) intros t. split; [|exact I]. open_frame. walk.
Qed.

Lemma executeNode_keeps_options : forall n context,
  keeps_options (Executor.executeNode n context).
Proof. intros n. apply (executeNode_keeps_options_deep n). Qed.

Lemma execute_keeps_options : forall n context,
  keeps_options (Executor.execute n context).
Proof.
  intros. unfold Executor.execute. apply keeps_execute_with.
  apply executeNode_keeps_options.
Qed.

Lemma keeps_update_stats : forall f, keeps_options (Kangaroo.update_stats f).
Proof. intros f w. reflexivity. Qed.

Lemma evaluateExpression_keeps_options : forall expr context,
  keeps_options (Kangaroo.evaluateExpression expr context).
Proof.
  intros. unfold Kangaroo.evaluateExpression, Kangaroo.number_text.
  repeat first
    [ apply keeps_validate | apply execute_keeps_options | apply keeps_update_stats
    | keeps_step ].
Qed.

Lemma serializeValue_keeps_options : forall v,
  keeps_options (Kangaroo.serializeValue v).
Proof. intros. unfold Kangaroo.serializeValue. keeps. Qed.

Lemma process_holes_keeps_options : forall context matches result processed,
  keeps_options (Kangaroo.process_holes context matches result processed).
Proof.
  intros context matches.
  induction matches as [|m rest IH]; intros result processed;
    cbn [Kangaroo.process_holes].
  - keeps.
  - unfold Kangaroo.process_hole.
    repeat first
      [ apply evaluateExpression_keeps_options | apply serializeValue_keeps_options
      | apply IH | keeps_step ].
Qed.

Lemma evaluateTemplate_keeps_options : forall template context,
  keeps_options (Kangaroo.evaluateTemplate template context).
Proof.
  intros. unfold Kangaroo.evaluateTemplate.
  repeat first
    [ apply process_holes_keeps_options | apply keeps_update_stats | keeps_step ].
  unfold Kangaroo.setTemplateCached. apply keeps_modify. intros w.
  destruct (cache_insert _ _ _ _ _). reflexivity.
Qed.

Lemma evaluate_keeps_options : forall expr context,
  keeps_options (Kangaroo.evaluate expr context).
Proof.
  intros. unfold Kangaroo.evaluate.
  repeat first
    [ apply evaluateTemplate_keeps_options | apply evaluateExpression_keeps_options
    | apply keeps_update_stats | keeps_step ].
Qed.

(** ** Orchestrator: templates *)

Lemma process_holes_aborts : forall context matches w message,
  hole_fails context matches w message ->
  forall result processed,
  exists w',
    Kangaroo.process_holes context matches result processed w = (Throw message, w').
Proof.
  intros context matches w message H.
  induction H as [m rest w message errorType w' Heval
                 | m rest w hole w' message Hhole _ IH];
    intros result processed.
  - exists w'. cbn [Kangaroo.process_holes]. unfold St.bind at 1.
    unfold Kangaroo.process_hole. unfold St.bind at 1. rewrite Heval. reflexivity.
  - cbn [Kangaroo.process_holes]. unfold St.bind at 1. rewrite Hhole.
    apply IH.
Qed.

(** C8. When the template cache does not answer and, in the run of the hole
    loop, the expression of some hole fails, [evaluateTemplate] returns the
    single error result [{ success: false, error }] carrying that hole's
    error; no template text comes back. *)
Theorem failing_hole_aborts_template :
  forall w template context message,
    (if enableCaching (options w)
     then JsMap.get (templateCache w) (Kangaroo.getTemplateCacheKey template context)
     else None) = None ->
    hole_fails context (List.rev (ASTParser.extractTemplateExpressions template)) w message ->
    exists w',
      Kangaroo.evaluateTemplate template context w = (Ok (TemplateFailure message), w').
Proof.
  intros w template context message Hmiss Hfails.
  destruct (process_holes_aborts Hfails template []) as [w' Hrun].
  unfold Kangaroo.evaluateTemplate. unfold St.bind at 1. unfold St.get at 1.
  rewrite Hmiss. unfold St.try_catch. unfold St.bind at 1. rewrite Hrun.
  exists w'. reflexivity.
Qed.

(** A template whose second hole does not parse, on an instance whose parser
    knows no expression. *)
Lemma failing_hole_aborts_template_witness :
  exists w',
    Kangaroo.evaluateTemplate "Hello {{name}} and {{(}}" empty_context fresh_world
    = (Ok (TemplateFailure "Invalid syntax: ("), w').
Proof.
  apply (@failing_hole_aborts_template fresh_world "Hello {{name}} and {{(}}"
           empty_context "Invalid syntax: (").
  - reflexivity.
  - eapply hole_fails_here. vm_compute. reflexivity.
Defined.

(** After a successful template evaluation with caching enabled, the cache
    answers the call's key with the call's result. *)
Lemma evaluateTemplate_caches : forall w template context text processed w1,
  enableCaching (options w) = true ->
  Kangaroo.evaluateTemplate template context w
  = (Ok (TemplateSuccess text processed), w1) ->
  JsMap.get (templateCache w1) (Kangaroo.getTemplateCacheKey template context)
  = Some (TemplateSuccess text processed).
Proof.
  intros w template context text processed w1 Hcaching Hcall.
  unfold Kangaroo.evaluateTemplate in Hcall.
  unfold St.bind at 1 in Hcall. unfold St.get at 1 in Hcall.
  rewrite Hcaching in Hcall.
  destruct (JsMap.get (templateCache w) (Kangaroo.getTemplateCacheKey template context))
    as [cached|] eqn:Hget.
  - unfold St.bind, Kangaroo.update_stats, St.modify, St.ret in Hcall.
    inversion Hcall; subst. exact Hget.
  - unfold St.try_catch in Hcall. unfold St.bind at 1 in Hcall.
    destruct (Kangaroo.process_holes context
                (List.rev (ASTParser.extractTemplateExpressions template)) template [] w)
      as [[done| |] w'] eqn:Hrun; try discriminate.
    unfold St.bind, Kangaroo.setTemplateCached, St.modify, St.ret in Hcall.
    inversion Hcall; subst.
    pose proof (cache_insert_get Kangaroo.maxTemplateCacheSize (templateCache w')
                  (templateCacheSize w')
                  (Kangaroo.getTemplateCacheKey template context)
                  (TemplateSuccess (fst done) (snd done))) as Hin.
    destruct (cache_insert Kangaroo.maxTemplateCacheSize (templateCache w')
                (templateCacheSize w') (Kangaroo.getTemplateCacheKey template context)
                (TemplateSuccess (fst done) (snd done))) as [cache size].
    exact Hin.
Qed.

Lemma evaluateTemplate_hit : forall w template context cached,
  enableCaching (options w) = true ->
  JsMap.get (templateCache w) (Kangaroo.getTemplateCacheKey template context)
  = Some cached ->
  exists w', Kangaroo.evaluateTemplate template context w = (Ok cached, w').
Proof.
  intros w template context cached Hc Hget.
  unfold Kangaroo.evaluateTemplate. unfold St.bind at 1. unfold St.get at 1.
  rewrite Hc, Hget.
  unfold St.bind, Kangaroo.update_stats, St.modify, St.ret.
  eexists. reflexivity.
Qed.

(** What a call of [evaluate] that returns a template result has done. *)
Lemma evaluate_template_inv : forall w expr context r w1,
  Kangaroo.evaluate expr context w = (Ok (Template r), w1) ->
  Kangaroo.evaluateTemplate (Str.trim expr) context
    (set_kangarooStats w (Kangaroo.count_evaluation (kangarooStats w)))
  = (Ok r, w1) /\
  String.eqb expr "" = false /\
  String.eqb (Str.trim expr) "" = false /\
  ASTParser.hasTemplateExpressions (Str.trim expr) = true.
Proof.
  intros w expr context r w1 H.
  unfold Kangaroo.evaluate in H. unfold St.bind at 1 in H.
  unfold Kangaroo.update_stats at 1, St.modify in H.
  unfold St.try_catch in H.
  destruct (String.eqb expr "") eqn:E1; [discriminate|].
  destruct (String.eqb (Str.trim expr) "") eqn:E2; [discriminate|].
  destruct (ASTParser.hasTemplateExpressions (Str.trim expr)) eqn:E3.
  - unfold St.bind at 1 in H.
    destruct (Kangaroo.evaluateTemplate (Str.trim expr) context _) as [[r'| |] w'] eqn:Ht;
      cbn in H; try discriminate.
    inversion H; subst. auto.
  - unfold St.bind at 1 in H.
    destruct (Kangaroo.evaluateExpression (Str.trim expr) context _) as [[r'| |] w'];
      cbn in H; discriminate.
Qed.

(** C7. On an instance with caching enabled, once [evaluate] has answered a
    template successfully, a later call with the same template and a context
    of the same sorted key names returns that earlier result, text and hole
    records, whatever values the later context holds. *)
Theorem template_cache_ignores_context_values :
  forall w expr context1 context2 text processed w1,
    enableCaching (options w) = true ->
    Str.sort (JsMap.keys (ctx_own context1)) = Str.sort (JsMap.keys (ctx_own context2)) ->
    Kangaroo.evaluate expr context1 w
    = (Ok (Template (TemplateSuccess text processed)), w1) ->
    exists w2,
      Kangaroo.evaluate expr context2 w1
      = (Ok (Template (TemplateSuccess text processed)), w2).
Proof.
  intros w expr context1 context2 text processed w1 Hc Hkeys Hcall.
  apply evaluate_template_inv in Hcall.
  destruct Hcall as [Hcall [E1 [E2 E3]]].
  pose proof (evaluateTemplate_keeps_options (Str.trim expr) context1
                (set_kangarooStats w (Kangaroo.count_evaluation (kangarooStats w))))
    as Hkeep.
  rewrite Hcall in Hkeep. cbn [snd set_kangarooStats options] in Hkeep.
  assert (Hc1 : enableCaching (options w1) = true) by (rewrite Hkeep; exact Hc).
  assert (Hc0 : enableCaching
                  (options (set_kangarooStats w
                              (Kangaroo.count_evaluation (kangarooStats w)))) = true)
    by exact Hc.
  pose proof (@evaluateTemplate_caches _ _ _ _ _ _ Hc0 Hcall) as Hcached.
  replace (Kangaroo.getTemplateCacheKey (Str.trim expr) context1)
    with (Kangaroo.getTemplateCacheKey (Str.trim expr) context2) in Hcached
    by (unfold Kangaroo.getTemplateCacheKey; now rewrite Hkeys).
  destruct (@evaluateTemplate_hit
              (set_kangarooStats w1 (Kangaroo.count_evaluation (kangarooStats w1)))
              (Str.trim expr) context2 _ Hc1 Hcached) as [w2 Hhit].
  exists w2.
  unfold Kangaroo.evaluate. unfold St.bind at 1.
  unfold Kangaroo.update_stats at 1, St.modify.
  unfold St.try_catch. rewrite E1, E2, E3.
  unfold St.bind at 1. rewrite Hhit. reflexivity.
Qed.

(** Two calls on one instance: the second context holds another value under
    the same key and gets the first call's text. *)
Lemma template_cache_ignores_context_values_witness :
  exists w2,
    Kangaroo.evaluate "Value: {{x}}" second_context
      (snd (Kangaroo.evaluate "Value: {{x}}" first_context identifier_world))
    = (Ok (Template (TemplateSuccess "Value: first"
                       [mkProcessed "x" (VString "first") 7 12])), w2).
Proof.
  apply (@template_cache_ignores_context_values identifier_world "Value: {{x}}"
           first_context second_context "Value: first"
           [mkProcessed "x" (VString "first") 7 12]
           (snd (Kangaroo.evaluate "Value: {{x}}" first_context identifier_world))).
  - reflexivity.
  - reflexivity.
  - vm_compute. reflexivity.
Defined.

(** On a fresh instance the second context gives its own value. *)
Example fresh_template_result :
  fst (Kangaroo.evaluate "Value: {{x}}" second_context identifier_world)
  = Ok (Template (TemplateSuccess "Value: second"
                    [mkProcessed "x" (VString "second") 7 12])).
Proof. vm_compute. reflexivity. Qed.

(* ================================================================== *)
(** * Further properties of the sources *)
(* ================================================================== *)

(** ** Strings and keys *)

Lemma key_is_not_empty : forall a sep b, a ++ String sep b <> "".
Proof. intros [|c a] sep b; discriminate. Qed.

Lemma append_is_not_empty : forall a b, a <> "" -> a ++ b <> "".
Proof. intros [|c a] b H; [contradiction | discriminate]. Qed.

Lemma append_assoc : forall a b c : string, (a ++ b) ++ c = a ++ b ++ c.
Proof. induction a as [|x a IH]; intros b c; simpl; [reflexivity | now rewrite IH]. Qed.

Lemma append_length : forall a b,
  String.length (a ++ b) = String.length a + String.length b.
Proof. induction a as [|x a IH]; intros b; simpl; [reflexivity | now rewrite IH]. Qed.

Lemma append_empty : forall a : string, a ++ "" = a.
Proof. induction a as [|x a IH]; simpl; [reflexivity | now rewrite IH]. Qed.

Lemma take_app : forall a b, Str.take (String.length a) (a ++ b) = a.
Proof.
  unfold Str.take. induction a as [|c a IH]; intros b; simpl.
  - destruct b; reflexivity.
  - now rewrite IH.
Qed.

Lemma drop_app : forall a b, Str.drop (String.length a) (a ++ b) = b.
Proof. induction a as [|c a IH]; intros b; simpl; [reflexivity | apply IH]. Qed.

Lemma slice_app : forall pre full rest,
  pre ++ full ++ rest
  = Str.take (String.length pre) (pre ++ full ++ rest) ++ full ++
    Str.drop (String.length pre + String.length full) (pre ++ full ++ rest).
Proof.
  intros pre full rest. rewrite take_app.
  replace (Str.drop (String.length pre + String.length full) (pre ++ full ++ rest))
    with rest; [reflexivity|].
  rewrite <- append_length, <- append_assoc. now rewrite drop_app.
Qed.

Lemma filter_none : forall A (f : A -> bool) l,
  List.length (filter f l) = 0 <-> Forall (fun x => f x = false) l.
Proof.
  intros A f l. induction l as [|x rest IH]; simpl.
  - split; [constructor | reflexivity].
  - destruct (f x) eqn:E; simpl.
    + split; [discriminate | intros H; inversion H; congruence].
    + rewrite IH. split; [intros H; constructor; assumption | intros H; inversion H; assumption].
Qed.

Lemma filter_some : forall A (f : A -> bool) l,
  0 < List.length (filter f l) <-> Exists (fun x => f x = true) l.
Proof.
  intros A f l. induction l as [|x rest IH]; simpl.
  - split; [lia | intros H; inversion H].
  - destruct (f x) eqn:E; simpl.
    + split; [intros _; left; exact E | lia].
    + rewrite IH. split; [intros H; right; exact H|].
      intros H. inversion H; subst; [congruence|assumption].
Qed.

(** ** Type registry: registration and detection *)

Lemma hasType_register_other : forall types name other,
  other <> name ->
  DefaultTypeRegistry.hasType
    (filter (fun type => negb (String.eqb (rt_name type) name)) types) other
  = DefaultTypeRegistry.hasType types other.
Proof.
  intros types name other Hne. unfold DefaultTypeRegistry.hasType.
  induction types as [|t rest IH]; simpl; [reflexivity|].
  destruct (String.eqb (rt_name t) name) eqn:E; simpl.
  - apply String.eqb_eq in E. rewrite IH.
    destruct (String.eqb (rt_name t) other) eqn:E2; [|reflexivity].
    apply String.eqb_eq in E2. congruence.
  - now rewrite IH.
Qed.

Lemma names_after_filter : forall (types : DefaultTypeRegistry.t) name,
  NoDup (List.map rt_name types) ->
  NoDup (List.map rt_name
           (filter (fun type => negb (String.eqb (rt_name type) name)) types)) /\
  ~ In name (List.map rt_name
               (filter (fun type => negb (String.eqb (rt_name type) name)) types)).
Proof.
  intros types name. induction types as [|t rest IH]; simpl; intros Hnd.
  - split; [constructor | intros []].
  - inversion Hnd as [|? ? Hnot Hrest]; subst.
    destruct (IH Hrest) as [IH1 IH2].
    destruct (String.eqb (rt_name t) name) eqn:E; simpl.
    + split; assumption.
    + split.
      * constructor; [|exact IH1].
        intros Hin. apply Hnot. apply in_map_iff in Hin.
        destruct Hin as [x [Hx Hin]]. apply filter_In in Hin.
        apply in_map_iff. exists x. tauto.
      * intros [Heq|Hin]; [|tauto].
        apply String.eqb_neq in E. congruence.
Qed.

(** X1. [register] keeps the registered names pairwise distinct: on a
    registry without a repeated name it leaves one without a repeated name,
    in which the registered name is known, and the answer of [hasType] for
    every other name is what it was. *)
Theorem register_keeps_names_distinct :
  forall types name config types',
    NoDup (List.map rt_name types) ->
    DefaultTypeRegistry.register types name config = Ok types' ->
    NoDup (List.map rt_name (DefaultTypeRegistry.getRegisteredTypes types')) /\
    DefaultTypeRegistry.hasType types' name = true /\
    (forall other, other <> name ->
       DefaultTypeRegistry.hasType types' other = DefaultTypeRegistry.hasType types other).
Proof.
  intros types name config types' Hnd Hreg.
  unfold DefaultTypeRegistry.register in Hreg.
  destruct (String.eqb name "") eqn:E; [discriminate|].
  inversion Hreg; subst types'; clear Hreg.
  destruct (@names_after_filter types name Hnd) as [H1 H2].
  unfold DefaultTypeRegistry.getRegisteredTypes. split; [|split].
  - simpl. constructor; assumption.
  - unfold DefaultTypeRegistry.hasType. simpl. now rewrite String.eqb_refl.
  - intros other Hne. unfold DefaultTypeRegistry.hasType at 1. simpl.
    assert (String.eqb name other = false) as -> by (apply String.eqb_neq; congruence).
    simpl. apply hasType_register_other. exact Hne.
Qed.

Lemma register_keeps_names_distinct_witness :
  NoDup (List.map rt_name
           (DefaultTypeRegistry.getRegisteredTypes
              [mkRegisteredType "A" (mkTypeConfig demo_schema Sjson);
               mkRegisteredType "B" (mkTypeConfig demo_schema Sstring)])) /\
  DefaultTypeRegistry.hasType
    [mkRegisteredType "A" (mkTypeConfig demo_schema Sjson);
     mkRegisteredType "B" (mkTypeConfig demo_schema Sstring)] "A" = true /\
  (forall other, other <> "A" ->
     DefaultTypeRegistry.hasType
       [mkRegisteredType "A" (mkTypeConfig demo_schema Sjson);
        mkRegisteredType "B" (mkTypeConfig demo_schema Sstring)] other
     = DefaultTypeRegistry.hasType
         [mkRegisteredType "B" (mkTypeConfig demo_schema Sstring);
          mkRegisteredType "A" (mkTypeConfig demo_schema Sobject)] other).
Proof.
  apply (@register_keeps_names_distinct
           [mkRegisteredType "B" (mkTypeConfig demo_schema Sstring);
            mkRegisteredType "A" (mkTypeConfig demo_schema Sobject)]
           "A" (mkTypeConfig demo_schema Sjson)).
  - repeat constructor; simpl; intuition discriminate.
  - reflexivity.
Defined.

(** X2. The name [detectType] returns is that of a registered type whose
    schema the value matches: the value is a plain object, it has every
    required property, and every declared property it has passes the check
    of its declared type. *)
Theorem detectType_names_a_matching_registration :
  forall types v name,
    DefaultTypeRegistry.detectType types v = Some name ->
    exists own proto config,
      v = VObject own proto /\
      In (mkRegisteredType name config) types /\
      DefaultTypeRegistry.matchesType own proto config = true /\
      (forall prop, In prop (required (schema config)) ->
                    Js.obj_has own proto prop = true) /\
      (forall prop type,
         In (prop, type) (properties (schema config)) ->
         Js.obj_has own proto prop = true ->
         DefaultTypeRegistry.validatePropertyType (Js.obj_get own proto prop) type = true).
Proof.
  intros types v name H. unfold DefaultTypeRegistry.detectType in H.
  destruct v; try discriminate.
  destruct (find _ types) as [t|] eqn:F; [|discriminate].
  simpl in H. inversion H; subst name; clear H.
  apply find_some in F. destruct F as [Hin Hm].
  exists own, proto, (rt_config t). split; [reflexivity|].
  split; [destruct t; exact Hin|]. split; [exact Hm|].
  unfold DefaultTypeRegistry.matchesType in Hm.
  destruct (DefaultTypeRegistry.hasRequiredProperties own proto _) eqn:R;
    simpl in Hm; [|discriminate].
  split.
  - intros prop Hp. unfold DefaultTypeRegistry.hasRequiredProperties in R.
    rewrite forallb_forall in R. apply R. exact Hp.
  - intros prop type Hp Hhas. revert Hm Hp.
    generalize (properties (schema (rt_config t))).
    induction l as [|[p ty] rest IH]; simpl; intros Hm Hp; [contradiction|].
    destruct Hp as [Heq|Hp].
    + inversion Heq; subst. rewrite Hhas in Hm.
      destruct (DefaultTypeRegistry.validatePropertyType _ _); [reflexivity|discriminate].
    + apply IH; [|exact Hp].
      destruct (Js.obj_has own proto p); [|exact Hm].
      destruct (DefaultTypeRegistry.validatePropertyType (Js.obj_get own proto p) ty);
        [exact Hm|discriminate].
Qed.

Lemma detectType_names_a_matching_registration_witness :
  exists own proto config,
    VObject demo_item Js.Object_prototype = VObject own proto /\
    In (mkRegisteredType "FileItem" config)
       [mkRegisteredType "FileItem" (mkTypeConfig demo_schema Sjson)] /\
    DefaultTypeRegistry.matchesType own proto config = true /\
    (forall prop, In prop (required (schema config)) ->
                  Js.obj_has own proto prop = true) /\
    (forall prop type,
       In (prop, type) (properties (schema config)) ->
       Js.obj_has own proto prop = true ->
       DefaultTypeRegistry.validatePropertyType (Js.obj_get own proto prop) type = true).
Proof.
  apply (@detectType_names_a_matching_registration
           [mkRegisteredType "FileItem" (mkTypeConfig demo_schema Sjson)]
           (VObject demo_item Js.Object_prototype) "FileItem").
  reflexivity.
Defined.

Lemma find_by_name_hasType : forall types typeName,
  DefaultTypeRegistry.hasType types typeName = true <->
  exists registered,
    find (fun type => String.eqb (rt_name type) typeName) types = Some registered.
Proof.
  intros types typeName. unfold DefaultTypeRegistry.hasType. split.
  - intros H. destruct (find _ types) as [t|] eqn:F; [eauto|].
    apply existsb_exists in H. destruct H as [t [Hin Heq]].
    pose proof (find_none _ _ F t Hin) as Hn. simpl in Hn. congruence.
  - intros [t F]. apply find_some in F. destruct F as [Hin Heq].
    apply existsb_exists. exists t. split; assumption.
Qed.

(** X3. What [serialize] returns and what it throws. For a type name that
    is not registered it throws [Unknown type: <name>]. For a registered
    name with the [json] strategy, a value is returned as its JSON text
    ([undefined] where [JSON.stringify] gives none). For a registered name
    with another strategy, a value that [String] converts is returned as
    that text; and when [String(value)] throws, as it does for an object
    with no usable [toString] or [valueOf], [serialize] throws the same
    error: the fallback in the [catch] is the same conversion, outside any
    [try]. *)
Theorem serialize_throws_what_String_throws :
  forall types v typeName,
    (DefaultTypeRegistry.hasType types typeName = false ->
     DefaultTypeRegistry.serialize types v typeName
     = Throw ("Unknown type: " ++ typeName)) /\
    (forall registered,
       find (fun type => String.eqb (rt_name type) typeName) types = Some registered ->
       (serialization (rt_config registered) = Sjson ->
        forall encoded, Js.JSON_stringify v = Some encoded ->
          DefaultTypeRegistry.serialize types v typeName
          = Ok (match encoded with Some s => VString s | None => VUndefined end)) /\
       (serialization (rt_config registered) <> Sjson ->
        (forall text, Js.String_ v = Ok text ->
           DefaultTypeRegistry.serialize types v typeName = Ok (VString text)) /\
        (forall message, Js.String_ v = Throw message ->
           DefaultTypeRegistry.serialize types v typeName = Throw message))).
Proof.
  intros types v typeName. split.
  - intros Hno. unfold DefaultTypeRegistry.serialize.
    destruct (find _ types) as [t|] eqn:F; [|reflexivity].
    assert (DefaultTypeRegistry.hasType types typeName = true)
      by (apply find_by_name_hasType; eauto).
    congruence.
  - intros registered F. unfold DefaultTypeRegistry.serialize. rewrite F.
    unfold DefaultTypeRegistry.String_value, DefaultTypeRegistry.JSON_stringify_value.
    split.
    + intros S encoded E. rewrite S, E. reflexivity.
    + intros S. split.
      * intros text E.
        destruct (serialization (rt_config registered)); [contradiction| |];
          rewrite E; reflexivity.
      * intros message E.
        destruct (serialization (rt_config registered)); [contradiction| |];
          rewrite E; reflexivity.
Qed.

Lemma serialize_throws_what_String_throws_witness :
  DefaultTypeRegistry.serialize
    [mkRegisteredType "Bare" (mkTypeConfig (mkTypeSchema [] []) Sstring)]
    (VObject [] []) "Bare"
  = Throw "Cannot convert object to primitive value".
Proof.
  refine (proj2 (proj2 (proj2
            (@serialize_throws_what_String_throws
               [mkRegisteredType "Bare" (mkTypeConfig (mkTypeSchema [] []) Sstring)]
               (VObject [] []) "Bare")
            (mkRegisteredType "Bare" (mkTypeConfig (mkTypeSchema [] []) Sstring))
            _) _) _ _).
  - reflexivity.
  - discriminate.
  - reflexivity.
Defined.

(** ** Security validator: what an accepted tree holds *)

Section Accepted.

Variable registry : FunctionRegistry.
Variable rules : list SecurityRule.
Variable context : option ExpressionContext.

Lemma typeless_is_leaf : forall c,
  SecurityValidator.is_node c = false ->
  subnodes c = [c] /\ SecurityValidator.applyBuiltInValidation registry c = [].
Proof.
  intros c H. unfold SecurityValidator.is_node in H.
  destruct c; simpl in H; try discriminate. split; reflexivity.
Qed.

Lemma clean_child : forall c,
  walk_is_clean registry rules context c ->
  (if SecurityValidator.is_node c
   then SecurityValidator.validateNode registry rules c context else []) = [] ->
  forall m, In m (subnodes c) -> SecurityValidator.applyBuiltInValidation registry m = [].
Proof.
  intros c Hc H m Hm. destruct (SecurityValidator.is_node c) eqn:E.
  - apply Hc; assumption.
  - destruct (typeless_is_leaf c E) as [Hs Ha]. rewrite Hs in Hm.
    destruct Hm as [<-|[]]. exact Ha.
Qed.

Lemma clean_children : forall l,
  Forall (walk_is_clean registry rules context) l ->
  flat_map
    (fun c => if SecurityValidator.is_node c
              then SecurityValidator.validateNode registry rules c context else []) l = [] ->
  forall m, In m (flat_map subnodes l) ->
            SecurityValidator.applyBuiltInValidation registry m = [].
Proof.
  intros l H. induction H as [|c rest Hc _ IH]; simpl; intros Hnil m Hm; [contradiction|].
  apply app_eq_nil in Hnil. destruct Hnil as [H1 H2].
  apply in_app_or in Hm. destruct Hm as [Hm|Hm].
  - apply (@clean_child c); assumption.
  - apply IH; assumption.
Qed.

Ltac by_child :=
  match goal with
  | Hm : In _ (subnodes ?c) |- _ => apply (@clean_child c); assumption
  | Hm : In _ (flat_map subnodes ?l) |- _ => apply (@clean_children l); assumption
  end.

Ltac open_walk H :=
  unfold walk_is_clean; intros H m Hm;
  cbn [SecurityValidator.validateNode] in H;
  match type of H with
  | (if ?b then _ else _) = [] => destruct b; [discriminate|]
  end;
  apply app_eq_nil in H; destruct H as [Hself H];
  apply app_eq_nil in H; destruct H as [_ H];
  cbn [subnodes] in Hm; destruct Hm as [<-|Hm]; [exact Hself|].

Ltac two_children H Hm :=
  let Ha := fresh "Ha" in
  let Hb := fresh "Hb" in
  apply app_eq_nil in H; destruct H as [Ha Hb];
  apply in_app_or in Hm; destruct Hm as [Hm|Hm]; by_child.

Lemma validateNode_clean : forall n, walk_is_clean registry rules context n.
Proof.
  apply Node_induction.
  - intros v. open_walk H. contradiction.
  - intros name. open_walk H. contradiction.
  - intros o p c Ho Hp. open_walk H. two_children H Hm.
  - intros callee args Hc Hargs. open_walk H. two_children H Hm.
  - intros l op r Hl Hr. open_walk H. two_children H Hm.
  - intros l op r Hl Hr. open_walk H. two_children H Hm.
  - intros t c a Ht Hc Ha. open_walk H.
    apply app_eq_nil in H. destruct H as [H1 H2].
    apply in_app_or in Hm. destruct Hm as [Hm|Hm]; [by_child|].
    two_children H2 Hm.
  - intros op a Ha. open_walk H. by_child.
  - intros elements He. open_walk H.
    induction He as [|e rest Hx _ IH]; simpl in *; [contradiction|].
    apply app_eq_nil in H. destruct H as [H1 H2].
    apply in_app_or in Hm. destruct Hm as [Hm|Hm].
    + destruct e as [c|]; [|contradiction]. by_child.
    + apply IH; assumption.
  - intros props Hp. open_walk H. by_child.
  - intros c k v Hk Hv. open_walk H. two_children H Hm.
  - intros params body Hp Hb. open_walk H. two_children H Hm.
  - intros e q He Hq. open_walk H. two_children H Hm.
  - open_walk H. contradiction.
  - intros t. open_walk H. contradiction.
Qed.

End Accepted.

(** X4. In a tree the walk accepts (it raised no violation) no node is an
    identifier of the identifier denylist, no static member access names a
    property of the property denylist, no binary or unary node carries a
    blocked operator, and every function called by its bare name is in the
    registry. *)
Theorem accepted_tree_has_no_blocked_name :
  forall registry rules n context,
    SecurityValidator.validateNode registry rules n context = [] ->
    (forall name, In (Identifier name) (subnodes n) ->
       mem name SecurityValidator.blockedIdentifiers = false) /\
    (forall object name,
       In (MemberExpression object (Identifier name) false) (subnodes n) ->
       mem name SecurityValidator.blockedProperties = false) /\
    (forall lhs operator rhs, In (BinaryExpression lhs operator rhs) (subnodes n) ->
       mem operator SecurityValidator.blockedOperators = false) /\
    (forall operator argument, In (UnaryExpression operator argument) (subnodes n) ->
       mem operator SecurityValidator.blockedOperators = false) /\
    (forall name arguments,
       In (CallExpression (Identifier name) arguments) (subnodes n) ->
       JsMap.has registry name = true).
Proof.
  intros registry rules n context H.
  pose proof (@validateNode_clean registry rules context n H) as Hclean.
  repeat split.
  - intros name Hin. specialize (Hclean _ Hin). simpl in Hclean.
    unfold SecurityValidator.validateIdentifier in Hclean.
    destruct (mem name _); [discriminate|reflexivity].
  - intros object name Hin. specialize (Hclean _ Hin).
    cbn [SecurityValidator.applyBuiltInValidation] in Hclean.
    unfold SecurityValidator.validateMemberExpression in Hclean.
    apply app_eq_nil in Hclean. destruct Hclean as [Hc _].
    destruct (mem name _); [discriminate|reflexivity].
  - intros lhs operator rhs Hin. specialize (Hclean _ Hin). simpl in Hclean.
    unfold SecurityValidator.validateBinaryExpression,
      SecurityValidator.validateOperator in Hclean.
    destruct (mem operator _); [discriminate|reflexivity].
  - intros operator argument Hin. specialize (Hclean _ Hin). simpl in Hclean.
    unfold SecurityValidator.validateUnaryExpression,
      SecurityValidator.validateOperator in Hclean.
    destruct (mem operator _); [discriminate|reflexivity].
  - intros name arguments Hin. specialize (Hclean _ Hin).
    cbn [SecurityValidator.applyBuiltInValidation] in Hclean.
    unfold SecurityValidator.validateCallExpression in Hclean.
    apply app_eq_nil in Hclean. destruct Hclean as [Hc _].
    destruct (JsMap.has registry name); [reflexivity|discriminate].
Qed.

Lemma accepted_tree_has_no_blocked_name_witness :
  mem "a" SecurityValidator.blockedIdentifiers = false.
Proof.
  refine (proj1 (@accepted_tree_has_no_blocked_name [] [] (length_of "a") None _) "a" _).
  - reflexivity.
  - simpl. tauto.
Defined.

Section FailingRule.

Variable registry : FunctionRegistry.
Variable rule : SecurityRule.
Variable rules : list SecurityRule.
Variable context : option ExpressionContext.
Hypothesis Hrule : forall node, rule_check rule node context <> Some true.

Lemma applyCustomRules_skips : forall node,
  SecurityValidator.applyCustomRules (rule :: rules) node context
  = SecurityValidator.applyCustomRules rules node context.
Proof.
  intros node. unfold SecurityValidator.applyCustomRules. cbn [flat_map].
  specialize (Hrule node).
  destruct (rule_check rule node context) as [[|]|]; [congruence | reflexivity | reflexivity].
Qed.

Lemma children_skip : forall l,
  Forall (fun c =>
            SecurityValidator.validateNode registry (rule :: rules) c context
            = SecurityValidator.validateNode registry rules c context) l ->
  flat_map (fun c => if SecurityValidator.is_node c
                     then SecurityValidator.validateNode registry (rule :: rules) c context
                     else []) l
  = flat_map (fun c => if SecurityValidator.is_node c
                       then SecurityValidator.validateNode registry rules c context
                       else []) l.
Proof.
  intros l H. induction H as [|c rest Hc _ IH]; cbn [flat_map]; [reflexivity|].
  now rewrite Hc, IH.
Qed.

Lemma validateNode_skips_rule : forall n,
  SecurityValidator.validateNode registry (rule :: rules) n context
  = SecurityValidator.validateNode registry rules n context.
Proof.
  apply Node_induction; intros;
    cbn [SecurityValidator.validateNode];
    (match goal with |- (if ?b then _ else _) = _ => destruct b; [reflexivity|] end);
    rewrite applyCustomRules_skips;
    repeat match goal with
           | H : SecurityValidator.validateNode _ _ _ _ = _ |- _ => rewrite H; clear H
           | H : Forall _ _ |- _ => rewrite (children_skip H); clear H
           end;
    try reflexivity.
  (* ArrayExpression: the elements may be holes *)
  do 2 f_equal.
  match goal with H : Forall _ ?l |- _ => induction H as [|e rest He _ IH] end;
    cbn [flat_map]; [reflexivity|].
  rewrite IH. destruct e as [c|]; [|reflexivity]. now rewrite He.
Qed.

End FailingRule.

(** X5. A custom rule whose check never answers [true] in a context (it
    answers [false] or throws, and a throw is swallowed) changes nothing:
    the walk raises the violations it raises without the rule. *)
Theorem failing_custom_rule_is_ignored :
  forall registry rule rules n context,
    (forall node, rule_check rule node context <> Some true) ->
    SecurityValidator.validateNode registry (rule :: rules) n context
    = SecurityValidator.validateNode registry rules n context.
Proof.
  intros registry rule rules n context H. apply validateNode_skips_rule. exact H.
Qed.

Lemma failing_custom_rule_is_ignored_witness :
  SecurityValidator.validateNode [] [silent_rule] (Identifier "eval") None
  = SecurityValidator.validateNode [] [] (Identifier "eval") None.
Proof.
  apply (@failing_custom_rule_is_ignored [] silent_rule [] (Identifier "eval") None).
  intros node H. discriminate H.
Defined.

(** X6. [assessRiskLevel] reads the severities only: the level is [high]
    exactly when some violation is an error, [medium] exactly when none is
    and more than two are warnings, [low] exactly when none is an error and
    at most two are warnings. *)
Theorem assessRiskLevel_reads_severities :
  forall vs,
    (SecurityValidator.assessRiskLevel vs = high <->
       Exists (fun v => is_error v = true) vs) /\
    (SecurityValidator.assessRiskLevel vs = medium <->
       Forall (fun v => is_error v = false) vs /\
       2 < List.length (filter is_warning vs)) /\
    (SecurityValidator.assessRiskLevel vs = low <->
       Forall (fun v => is_error v = false) vs /\
       List.length (filter is_warning vs) <= 2).
Proof.
  intros vs. unfold SecurityValidator.assessRiskLevel.
  rewrite <- filter_some, <- filter_none.
  destruct (Nat.ltb_spec 0 (List.length (filter is_error vs)));
    destruct (Nat.ltb_spec 2 (List.length (filter is_warning vs)));
    repeat split; intros; try discriminate; try lia; try tauto.
Qed.

(** X7. Once [validate] has answered for a node, it answers any node whose
    cache key is the same (the node type, the first 100 characters of the
    node's JSON, the first 50 of the context's) with that same result, from
    the cache and without a walk; the state is left as it is. *)
Theorem validate_answers_same_key_from_cache :
  forall w node1 context1 node2 context2 result w1,
    Validator.getCacheKey w node1 context1 = Validator.getCacheKey w node2 context2 ->
    Validator.validate node1 context1 w = (Ok result, w1) ->
    Validator.validate node2 context2 w1 = (Ok result, w1).
Proof.
  intros w node1 context1 node2 context2 result w1 Hkey H.
  unfold Validator.validate, St.bind, St.get, St.lift in H.
  destruct (Validator.getCacheKey w node1 context1) as [key| |] eqn:K; try discriminate.
  assert (K2 : forall w', nodeJSON w' = nodeJSON w ->
                 Validator.getCacheKey w' node2 context2 = Ok key).
  { intros w' Hj. rewrite Hkey. unfold Validator.getCacheKey. now rewrite Hj. }
  destruct (JsMap.get (validationCache (validator w)) key) as [cached|] eqn:G.
  - inversion H; subst. unfold Validator.validate, St.bind, St.get, St.lift.
    rewrite (K2 w1 eq_refl), G. reflexivity.
  - unfold Validator.setCached, St.modify, St.ret in H.
    destruct (cache_insert _ _ _ _ _) as [cache size] eqn:C.
    inversion H; subst. clear H.
    unfold Validator.validate, St.bind, St.get, St.lift.
    rewrite (K2 (set_validator w (mkValidatorState cache size)) eq_refl). simpl.
    pose proof (cache_insert_get SecurityValidator.maxCacheSize
                  (validationCache (validator w)) (validationCacheSize (validator w))
                  key (Validator.compute w node1 context1)) as Hget.
    rewrite C in Hget. simpl in Hget. rewrite Hget. reflexivity.
Qed.

Lemma validate_answers_same_key_from_cache_witness :
  Validator.validate (Identifier "eval") None
    (snd (Validator.validate (Identifier "item") None fresh_world))
  = (Ok (mkValidation true [] (Some low)),
     snd (Validator.validate (Identifier "item") None fresh_world)).
Proof.
  apply (@validate_answers_same_key_from_cache fresh_world
           (Identifier "item") None (Identifier "eval") None).
  - reflexivity.
  - vm_compute. reflexivity.
Defined.

(** ** Executor: the access-time denylist *)

Lemma blocked_message_is_security : forall name,
  In name Executor.blockedProps ->
  Executor.categorizeError ("Property '" ++ name ++ "' is blocked for security reasons")
  = security.
Proof.
  intros name H. unfold Executor.blockedProps in H. simpl in H.
  repeat (destruct H as [<-|H]; [vm_compute; reflexivity|]). contradiction.
Qed.

(** X8. A string key that is one of the nine names of the executor's own
    list is refused by [safePropertyAccess] on every object and array, and
    on a primitive receiver whenever the property cache holds nothing under
    the key [typeof receiver:name]; the error is classified [security]. *)
Theorem safePropertyAccess_refuses_runtime_denylist :
  forall name object w,
    In name Executor.blockedProps ->
    (Executor.is_primitive_receiver object = true ->
     JsMap.get (propertyCache (executor w)) (Js.typeof object ++ ":" ++ name) = None) ->
    fst (Executor.safePropertyAccess object (VString name) w)
    = Throw ("Property '" ++ name ++ "' is blocked for security reasons") /\
    Executor.categorizeError ("Property '" ++ name ++ "' is blocked for security reasons")
    = security.
Proof.
  intros name object w Hin Hmiss. split; [|apply blocked_message_is_security; exact Hin].
  unfold Executor.safePropertyAccess.
  unfold St.bind at 1. cbn [St.host St.lift Out.host Js.String_].
  unfold St.bind at 1. unfold St.get at 1.
  destruct (Executor.is_primitive_receiver object) eqn:P.
  - rewrite (Hmiss eq_refl).
    unfold St.bind, Executor.update, St.modify, St.ret, St.throw.
    with_strategy opaque [mem] cbn.
    rewrite (mem_In _ _ Hin). reflexivity.
  - unfold St.bind, St.ret, St.throw.
    with_strategy opaque [mem] cbn.
    rewrite (mem_In _ _ Hin). reflexivity.
Qed.

Lemma safePropertyAccess_refuses_runtime_denylist_witness :
  fst (Executor.safePropertyAccess (Js.plain [("a", VNumber 1)]) (VString "constructor")
         fresh_world)
  = Throw "Property 'constructor' is blocked for security reasons".
Proof.
  apply (@safePropertyAccess_refuses_runtime_denylist "constructor"
           (Js.plain [("a", VNumber 1)]) fresh_world).
  - simpl. tauto.
  - discriminate.
Defined.

(** X9. The access-time list is consulted for string keys only. A key that
    is a one-element array holding one of the nine names is turned into
    that name by the host's property access, and [safePropertyAccess]
    returns the property of the object; the validator's walk raises nothing
    for the expression [o[[name]]] either (no custom rule installed). *)
Theorem array_key_escapes_runtime_denylist :
  forall name registry own proto w,
    In name Executor.blockedProps ->
    SecurityValidator.validateNode registry [] (array_keyed (Identifier "o") name) None
    = [] /\
    fst (Executor.safePropertyAccess (VObject own proto) (VArray [VString name]) w)
    = Ok (Js.obj_get own proto name).
Proof.
  intros name registry own proto w Hin. split.
  - unfold Executor.blockedProps in Hin. simpl in Hin.
    repeat (destruct Hin as [<-|Hin]; [vm_compute; reflexivity|]). contradiction.
  - unfold Executor.safePropertyAccess.
    unfold St.bind at 1. cbn [St.host St.lift Out.host Js.String_].
    unfold St.bind at 1. unfold St.get at 1.
    cbn [Executor.is_primitive_receiver Js.typeof String.eqb Ascii.eqb Bool.eqb negb orb].
    unfold St.bind at 1. unfold St.ret at 1.
    unfold St.bind at 1. unfold St.ret at 1.
    cbn [Js.get St.host St.lift Out.host].
    unfold St.bind at 1.
    unfold St.bind at 1.
    cbn [St.host St.lift Out.host].
    destruct (Executor.is_primitive_result (Js.obj_get own proto name)); reflexivity.
Qed.

Lemma array_key_escapes_runtime_denylist_witness :
  SecurityValidator.validateNode [] [] (array_keyed (Identifier "o") "constructor") None
  = [] /\
  fst (Executor.safePropertyAccess (VObject [] Js.Object_prototype)
         (VArray [VString "constructor"]) fresh_world)
  = Ok (Js.obj_get [] Js.Object_prototype "constructor").
Proof.
  apply (@array_key_escapes_runtime_denylist "constructor" [] [] Js.Object_prototype
           fresh_world).
  simpl. tauto.
Defined.

(** ** Executor: the walk *)

Lemma executeNode_enters : forall A (body : M A) w,
  stack_has_room w ->
  (Executor.checkStackDepth ;;;
   Executor.update (fun e => Executor.set_stack (S (executionStack e)) e) ;;;
   St.try_finally body
     (fun w => set_executor w
                 (Executor.set_stack (Nat.pred (executionStack (executor w)))
                    (executor w))))%M w
  = let '(r, w1) := body (enter w) in (r, leave w1).
Proof.
  intros A body w Hroom. unfold St.bind at 1. rewrite Hroom.
  unfold St.bind at 1. unfold Executor.update, St.modify at 1.
  unfold St.try_finally. fold (enter w).
  destruct (body (enter w)) as [r w1]. reflexivity.
Qed.

(** X10. The logical operators short-circuit: when the left operand
    evaluates to a falsy value, [&&] yields that value; when it evaluates to
    a truthy one, [||] yields it; when it evaluates to neither [null] nor
    [undefined], [??] yields it. In each case the right operand, whatever it
    is, is not executed: the state is the one the left operand left, with
    the frame popped. *)
Theorem logical_operators_short_circuit :
  forall lhs rhs context w l w1,
    stack_has_room w ->
    Executor.executeNode lhs context (enter w) = (Ok l, w1) ->
    (Js.truthy l = false ->
     Executor.executeNode (LogicalExpression lhs "&&" rhs) context w = (Ok l, leave w1)) /\
    (Js.truthy l = true ->
     Executor.executeNode (LogicalExpression lhs "||" rhs) context w = (Ok l, leave w1)) /\
    (Js.nullish l = false ->
     Executor.executeNode (LogicalExpression lhs "??" rhs) context w = (Ok l, leave w1)).
Proof.
  intros lhs rhs context w l w1 Hroom Hlhs.
  repeat split; intros Hl; cbn [Executor.executeNode];
    rewrite (executeNode_enters _ Hroom);
    unfold St.bind at 1; rewrite Hlhs;
    cbn [String.eqb Ascii.eqb Bool.eqb]; rewrite Hl; reflexivity.
Qed.

Lemma logical_operators_short_circuit_witness :
  Executor.executeNode
    (LogicalExpression (Literal (VBoolean false)) "&&" (Identifier "x"))
    empty_context fresh_world
  = (Ok (VBoolean false),
     leave (snd (Executor.executeNode (Literal (VBoolean false)) empty_context
                   (enter fresh_world)))).
Proof.
  refine (proj1 (@logical_operators_short_circuit
                   (Literal (VBoolean false)) (Identifier "x") empty_context fresh_world
                   (VBoolean false) _ _ _) _); reflexivity.
Defined.

(** X11. A member access whose object evaluates to [null] or [undefined]
    yields [undefined] and raises nothing; a computed key is not evaluated. *)
Theorem member_of_nullish_is_undefined :
  forall object property computed context w o w1,
    stack_has_room w ->
    Executor.executeNode object context (enter w) = (Ok o, w1) ->
    Js.nullish o = true ->
    Executor.executeNode (MemberExpression object property computed) context w
    = (Ok VUndefined, leave w1).
Proof.
  intros object property computed context w o w1 Hroom Hobject Hnull.
  cbn [Executor.executeNode]. rewrite (executeNode_enters _ Hroom).
  unfold St.bind at 1. rewrite Hobject. rewrite Hnull. reflexivity.
Qed.

Lemma member_of_nullish_is_undefined_witness :
  Executor.executeNode
    (MemberExpression (Identifier "missing") (Identifier "name") false)
    empty_context fresh_world
  = (Ok VUndefined,
     leave (snd (Executor.executeNode (Identifier "missing") empty_context
                   (enter fresh_world)))).
Proof.
  apply (@member_of_nullish_is_undefined
           (Identifier "missing") (Identifier "name") false empty_context fresh_world
           VUndefined); reflexivity.
Defined.

(** X12. Four node types that the validator supports have no case in the
    executor: executing a [Property], an [ArrowFunctionExpression], a
    [TemplateLiteral] or a [TemplateElement] as an expression fails with
    [Unsupported node type: <type>], an error classified [type]. *)
Theorem execute_unsupported_node_type :
  forall n context w,
    In (node_type n) unexecuted_types ->
    mem (node_type n) SecurityValidator.supportedNodeTypes = true /\
    fst (Executor.execute n context w)
    = Ok (Failure ("Unsupported node type: " ++ node_type n) type_error).
Proof.
  intros n context w H.
  assert (Hcat : Executor.categorizeError ("Unsupported node type: " ++ node_type n)
                 = type_error
                 /\ mem (node_type n) SecurityValidator.supportedNodeTypes = true).
  { unfold unexecuted_types in H. simpl in H.
    repeat (destruct H as [<-|H]; [split; vm_compute; reflexivity|]). contradiction. }
  destruct Hcat as [Hcat Hsup]. split; [exact Hsup|].
  assert (Hthrow : forall w0, stack_has_room w0 ->
            fst (Executor.executeNode n context w0)
            = Throw ("Unsupported node type: " ++ node_type n)).
  { intros w0 Hroom.
    destruct n; simpl in H; unfold unexecuted_types in H; simpl in H;
      try (exfalso; intuition discriminate);
      cbn [Executor.executeNode]; rewrite (executeNode_enters _ Hroom); reflexivity. }
  unfold Executor.execute, Executor.execute_with.
  unfold St.bind at 1. unfold Executor.update at 1, St.modify at 1.
  unfold St.try_finally, St.try_catch.
  unfold St.bind at 1. unfold Executor.update at 1, St.modify at 1.
  unfold St.bind at 1.
  match goal with
  | |- context [Executor.executeNode n context ?w0] =>
      assert (Hroom : stack_has_room w0);
        [| specialize (Hthrow w0 Hroom);
           destruct (Executor.executeNode n context w0) as [r w2] ]
  end.
  - unfold stack_has_room, Executor.checkStackDepth, St.bind, St.get. simpl.
    destruct (maxStackDepth (executor w)); reflexivity.
  - simpl in Hthrow. subst r.
    unfold St.bind, Executor.update, St.modify, St.ret. cbn [fst].
    rewrite <- Hcat. reflexivity.
Qed.

Lemma execute_unsupported_node_type_witness :
  mem "ArrowFunctionExpression" SecurityValidator.supportedNodeTypes = true /\
  fst (Executor.execute identity_arrow empty_context fresh_world)
  = Ok (Failure "Unsupported node type: ArrowFunctionExpression" type_error).
Proof.
  apply (@execute_unsupported_node_type identity_arrow empty_context fresh_world).
  simpl. tauto.
Defined.

(** ** Executor: registered functions *)

Lemma executeFunction_refused : forall w name func args message,
  JsMap.get (functionRegistry w) name = Some func ->
  Executor.validateFunctionCall func args false = Throw message ->
  Executor.executeFunction name args w = (Throw message, w).
Proof.
  intros w name func args message Hget Hv.
  unfold Executor.executeFunction, St.bind at 1, St.get at 1. rewrite Hget.
  unfold St.bind, St.lift. rewrite Hv. reflexivity.
Qed.

(** X13. A registered function whose [minArgs] is above its [maxArgs] can
    never be called by name: whatever the arguments, the call fails on the
    argument count, with too few or with too many, and the implementation
    is not reached. *)
Theorem inverted_bounds_refuse_every_call :
  forall w name func args lo hi,
    JsMap.get (functionRegistry w) name = Some func ->
    minArgs func = Some lo ->
    maxArgs func = Some hi ->
    hi < lo ->
    Executor.executeFunction name args w
    = (Throw ("Function '" ++ fn_name func ++ "' requires at least " ++
              Str.of_nat lo ++ " arguments, got " ++ Str.of_nat (List.length args)), w) \/
    Executor.executeFunction name args w
    = (Throw ("Function '" ++ fn_name func ++ "' accepts at most " ++
              Str.of_nat hi ++ " arguments, got " ++ Str.of_nat (List.length args)), w).
Proof.
  intros w name func args lo hi Hget Hlo Hhi Hlt.
  destruct (Nat.ltb_spec (List.length args) lo) as [Hfew|Hmany].
  - left. eapply executeFunction_refused; [exact Hget|].
    unfold Executor.validateFunctionCall. rewrite Hlo.
    apply Nat.ltb_lt in Hfew. rewrite Hfew. reflexivity.
  - right. eapply executeFunction_refused; [exact Hget|].
    unfold Executor.validateFunctionCall. rewrite Hlo, Hhi.
    assert (Hover : (hi <? List.length args)%nat = true) by (apply Nat.ltb_lt; lia).
    apply Nat.ltb_ge in Hmany. rewrite Hmany, Hover. reflexivity.
Qed.

Lemma inverted_bounds_refuse_every_call_witness :
  Executor.executeFunction "f" [VNumber 1] (function_world (echo "f" (Some 2) (Some 1)))
  = (Throw ("Function '" ++ "f" ++ "' requires at least " ++
            Str.of_nat 2 ++ " arguments, got " ++ Str.of_nat 1),
     function_world (echo "f" (Some 2) (Some 1))) \/
  Executor.executeFunction "f" [VNumber 1] (function_world (echo "f" (Some 2) (Some 1)))
  = (Throw ("Function '" ++ "f" ++ "' accepts at most " ++
            Str.of_nat 1 ++ " arguments, got " ++ Str.of_nat 1),
     function_world (echo "f" (Some 2) (Some 1))).
Proof.
  apply (@inverted_bounds_refuse_every_call
           (function_world (echo "f" (Some 2) (Some 1))) "f"
           (echo "f" (Some 2) (Some 1)) [VNumber 1] 2 1).
  - reflexivity.
  - reflexivity.
  - reflexivity.
  - lia.
Defined.

(** X14. In a method call the receiver is passed as the first argument and
    counted with the others, and the declared minimum is lowered by one
    besides: a registered function without a maximum and without type
    checks is invoked on the receiver and the arguments as soon as the
    arguments written number at least [minArgs - 2]. *)
Theorem method_call_lowers_the_minimum :
  forall w methodName func object args,
    JsMap.get (functionRegistry w) methodName = Some func ->
    maxArgs func = None ->
    typeChecks func = [] ->
    match minArgs func with Some n => n | None => 0 end <= List.length args + 2 ->
    Executor.executeMethod object methodName args w
    = (Executor.call "method" methodName func (object :: args), w).
Proof.
  intros w methodName func object args Hget Hmax Hchecks Hmin.
  unfold Executor.executeMethod, St.bind at 1, St.get at 1. rewrite Hget.
  unfold St.bind, St.lift, Executor.validateFunctionCall. rewrite Hmax, Hchecks.
  cbn [List.length List.find].
  destruct (Nat.ltb_spec (S (List.length args))
              (Nat.pred match minArgs func with Some n => n | None => 0 end)); [lia|].
  destruct (Executor.call "method" methodName func (object :: args)); reflexivity.
Qed.

Lemma method_call_lowers_the_minimum_witness :
  Executor.executeMethod (VString "abc") "pair" []
    (function_world (echo "pair" (Some 2) None))
  = (Executor.call "method" "pair" (echo "pair" (Some 2) None) [VString "abc"],
     function_world (echo "pair" (Some 2) None)).
Proof.
  apply (@method_call_lowers_the_minimum
           (function_world (echo "pair" (Some 2) None)) "pair"
           (echo "pair" (Some 2) None) (VString "abc") []).
  - reflexivity.
  - reflexivity.
  - reflexivity.
  - simpl. lia.
Defined.

(** ** Callback engine: the array operations *)

Lemma never_throws_ret : forall A (a : A), never_throws (St.ret a).
Proof. intros A a w m. discriminate. Qed.

Lemma never_throws_bind : forall A B (m : M A) (f : A -> M B),
  never_throws m -> (forall a, never_throws (f a)) -> never_throws (St.bind m f).
Proof.
  intros A B m f Hm Hf w message. unfold St.bind.
  specialize (Hm w). destruct (m w) as [[a| |] w1]; simpl in *.
  - apply Hf.
  - exfalso. apply (Hm message0). reflexivity.
  - discriminate.
Qed.

Lemma never_throws_caught : forall A (body : M A) (fallback : A),
  never_throws (St.try_catch body (fun _ => St.ret fallback)).
Proof.
  intros A body fallback w message. unfold St.try_catch.
  destruct (body w) as [[a| |] w1]; simpl; discriminate.
Qed.

Section CallbackLoops.

Variable execute_body : ExpressionContext -> M EvaluationResult.
Variable arrowNode : Node.
Variable context : ExpressionContext.

Lemma test_element_never_throws : forall array item index,
  never_throws (Callbacks.test_element execute_body array arrowNode context item index).
Proof. intros. apply never_throws_caught. Qed.

Ltac quiet IH :=
  repeat first
    [ apply never_throws_ret
    | apply test_element_never_throws
    | apply never_throws_caught
    | apply IH
    | apply never_throws_bind; [|intros ?]
    | match goal with |- never_throws (if ?b then _ else _) => destruct b end ].

Lemma filter_from_never_throws : forall array items index,
  never_throws (Callbacks.filter_from execute_body array arrowNode context items index).
Proof.
  intros array items. induction items as [|item rest IH]; intros index;
    cbn [Callbacks.filter_from]; quiet IH.
Qed.

Lemma map_from_never_throws : forall array items index,
  never_throws (Callbacks.map_from execute_body array arrowNode context items index).
Proof.
  intros array items. induction items as [|item rest IH]; intros index;
    cbn [Callbacks.map_from]; quiet IH.
Qed.

Lemma find_from_never_throws : forall array items index,
  never_throws (Callbacks.find_from execute_body array arrowNode context items index).
Proof.
  intros array items. induction items as [|item rest IH]; intros index;
    cbn [Callbacks.find_from]; quiet IH.
Qed.

Lemma some_from_never_throws : forall array items index,
  never_throws (Callbacks.some_from execute_body array arrowNode context items index).
Proof.
  intros array items. induction items as [|item rest IH]; intros index;
    cbn [Callbacks.some_from]; quiet IH.
Qed.

Lemma every_from_never_throws : forall array items index,
  never_throws (Callbacks.every_from execute_body array arrowNode context items index).
Proof.
  intros array items. induction items as [|item rest IH]; intros index;
    cbn [Callbacks.every_from]; quiet IH.
Qed.

Lemma reduce_from_never_throws : forall array items accumulator index,
  never_throws
    (Callbacks.reduce_from execute_body array arrowNode context accumulator items index).
Proof.
  intros array items. induction items as [|item rest IH]; intros accumulator index;
    cbn [Callbacks.reduce_from]; unfold Callbacks.reduce_step; quiet IH.
Qed.

End CallbackLoops.

(** X15. The six array operations raise nothing, whatever the receiver,
    the Arrow and the execution of its body do: an error of the callback at
    an element is swallowed at that element. *)
Theorem array_operations_never_throw :
  forall execute_body array arrowNode initialValue context,
    never_throws (Callbacks.filter execute_body array arrowNode context) /\
    never_throws (Callbacks.map execute_body array arrowNode context) /\
    never_throws (Callbacks.find execute_body array arrowNode context) /\
    never_throws (Callbacks.some execute_body array arrowNode context) /\
    never_throws (Callbacks.every execute_body array arrowNode context) /\
    never_throws (Callbacks.reduce execute_body array arrowNode initialValue context).
Proof.
  intros. unfold Callbacks.filter, Callbacks.map, Callbacks.find, Callbacks.some,
    Callbacks.every, Callbacks.reduce.
  repeat split; destruct array;
    repeat first
      [ apply never_throws_ret
      | apply filter_from_never_throws | apply map_from_never_throws
      | apply find_from_never_throws | apply some_from_never_throws
      | apply every_from_never_throws | apply reduce_from_never_throws
      | apply never_throws_bind; [|intros ?] ].
Qed.

Lemma map_from_length : forall execute_body array arrowNode context items index w ys w',
  Callbacks.map_from execute_body array arrowNode context items index w = (Ok ys, w') ->
  List.length ys = List.length items.
Proof.
  intros execute_body array arrowNode context items.
  induction items as [|item rest IH]; intros index w ys w' H; cbn [Callbacks.map_from] in H.
  - inversion H. reflexivity.
  - unfold St.bind at 1 in H.
    destruct (St.try_catch _ _ w) as [[y| |] w1]; try discriminate.
    unfold St.bind at 1 in H.
    destruct (Callbacks.map_from _ _ _ _ rest (S index) w1) as [[ys'| |] w2] eqn:E;
      try discriminate.
    inversion H; subst. simpl. f_equal. eapply IH. exact E.
Qed.

(** X16. [map] on an array returns an array of the same length: an element
    whose callback fails contributes [undefined], none is dropped. *)
Theorem map_keeps_length :
  forall execute_body items arrowNode context w v w',
    Callbacks.map execute_body (VArray items) arrowNode context w = (Ok v, w') ->
    exists ys, v = VArray ys /\ List.length ys = List.length items.
Proof.
  intros execute_body items arrowNode context w v w' H.
  unfold Callbacks.map, St.bind in H.
  destruct (Callbacks.map_from _ _ _ _ items 0 w) as [[ys| |] w1] eqn:E; try discriminate.
  inversion H; subst. exists ys. split; [reflexivity|].
  eapply map_from_length. exact E.
Qed.

Lemma map_keeps_length_witness :
  exists ys, VArray [VNumber 1; VNumber 2] = VArray ys /\ List.length ys = 2.
Proof.
  apply (@map_keeps_length (run_body (Identifier "x")) [VNumber 1; VNumber 2]
           identity_arrow empty_context fresh_world (VArray [VNumber 1; VNumber 2])
           (snd (Callbacks.map (run_body (Identifier "x")) (VArray [VNumber 1; VNumber 2])
                   identity_arrow empty_context fresh_world))).
  vm_compute. reflexivity.
Defined.

Lemma filter_from_subsequence :
  forall execute_body array arrowNode context items index w kept w',
  Callbacks.filter_from execute_body array arrowNode context items index w = (Ok kept, w') ->
  subsequence kept items.
Proof.
  intros execute_body array arrowNode context items.
  induction items as [|item rest IH]; intros index w kept w' H;
    cbn [Callbacks.filter_from] in H.
  - inversion H. constructor.
  - unfold St.bind at 1 in H.
    destruct (Callbacks.test_element _ _ _ _ _ _ w) as [[keep| |] w1]; try discriminate.
    unfold St.bind at 1 in H.
    destruct (Callbacks.filter_from _ _ _ _ rest (S index) w1) as [[kept'| |] w2] eqn:E;
      try discriminate.
    inversion H; subst. destruct keep; constructor; eapply IH; exact E.
Qed.

(** X17. [filter] on an array returns elements of that array, in their
    order: the array with some elements left out. *)
Theorem filter_keeps_subsequence :
  forall execute_body items arrowNode context w v w',
    Callbacks.filter execute_body (VArray items) arrowNode context w = (Ok v, w') ->
    exists kept, v = VArray kept /\ subsequence kept items.
Proof.
  intros execute_body items arrowNode context w v w' H.
  unfold Callbacks.filter, St.bind in H.
  destruct (Callbacks.filter_from _ _ _ _ items 0 w) as [[kept| |] w1] eqn:E; try discriminate.
  inversion H; subst. exists kept. split; [reflexivity|].
  eapply filter_from_subsequence. exact E.
Qed.

Lemma filter_keeps_subsequence_witness :
  exists kept, VArray [VNumber 2] = VArray kept /\ subsequence kept [VNumber 0; VNumber 2].
Proof.
  apply (@filter_keeps_subsequence (run_body (Identifier "x")) [VNumber 0; VNumber 2]
           identity_arrow empty_context fresh_world (VArray [VNumber 2])
           (snd (Callbacks.filter (run_body (Identifier "x")) (VArray [VNumber 0; VNumber 2])
                   identity_arrow empty_context fresh_world))).
  vm_compute. reflexivity.
Defined.

Section Refused.

Variable execute_body : ExpressionContext -> M EvaluationResult.
Variable params : list Node.
Variable body : Node.
Variable context : ExpressionContext.
Hypothesis Hparams : 3 < List.length params.

Lemma test_element_refused : forall array item index w,
  Callbacks.test_element execute_body array (ArrowFunctionExpression params body)
    context item index w = (Ok false, w).
Proof.
  intros. unfold Callbacks.test_element, St.try_catch, St.bind at 1.
  unfold Callbacks.executeCallback, St.bind at 1.
  unfold Callbacks.validateArrowFunction.
  destruct (Nat.ltb_spec 3 (List.length params)); [|lia]. reflexivity.
Qed.

Lemma filter_from_refused : forall array items index w,
  Callbacks.filter_from execute_body array (ArrowFunctionExpression params body)
    context items index w = (Ok [], w).
Proof.
  intros array items. induction items as [|item rest IH]; intros index w;
    cbn [Callbacks.filter_from]; [reflexivity|].
  unfold St.bind at 1. rewrite test_element_refused.
  unfold St.bind at 1. rewrite IH. reflexivity.
Qed.

Lemma map_from_refused : forall array items index w,
  Callbacks.map_from execute_body array (ArrowFunctionExpression params body)
    context items index w = (Ok (List.map (fun _ => VUndefined) items), w).
Proof.
  intros array items. induction items as [|item rest IH]; intros index w;
    cbn [Callbacks.map_from]; [reflexivity|].
  unfold St.bind at 1. unfold St.try_catch.
  unfold Callbacks.executeCallback, St.bind at 1.
  unfold Callbacks.validateArrowFunction.
  destruct (Nat.ltb_spec 3 (List.length params)); [|lia].
  cbn [St.ret negb St.throw].
  unfold St.bind at 1. rewrite IH. reflexivity.
Qed.

Lemma find_from_refused : forall array items index w,
  Callbacks.find_from execute_body array (ArrowFunctionExpression params body)
    context items index w = (Ok VUndefined, w).
Proof.
  intros array items. induction items as [|item rest IH]; intros index w;
    cbn [Callbacks.find_from]; [reflexivity|].
  unfold St.bind at 1. rewrite test_element_refused. apply IH.
Qed.

Lemma some_from_refused : forall array items index w,
  Callbacks.some_from execute_body array (ArrowFunctionExpression params body)
    context items index w = (Ok false, w).
Proof.
  intros array items. induction items as [|item rest IH]; intros index w;
    cbn [Callbacks.some_from]; [reflexivity|].
  unfold St.bind at 1. rewrite test_element_refused. apply IH.
Qed.

End Refused.

(** X18. An Arrow with more than three parameters is refused by the
    callback engine at every element, silently: [filter] returns the empty
    array, [map] an array of [undefined] of the same length, [find]
    [undefined], [some] [false], [every] [false] on a non-empty array and
    [true] on an empty one; the body is never executed and the state is
    untouched. *)
Theorem refused_arrow_degrades_silently :
  forall execute_body params body context items w,
    3 < List.length params ->
    let arrow := ArrowFunctionExpression params body in
    Callbacks.filter execute_body (VArray items) arrow context w = (Ok (VArray []), w) /\
    Callbacks.map execute_body (VArray items) arrow context w
    = (Ok (VArray (List.map (fun _ => VUndefined) items)), w) /\
    Callbacks.find execute_body (VArray items) arrow context w = (Ok VUndefined, w) /\
    Callbacks.some execute_body (VArray items) arrow context w = (Ok (VBoolean false), w) /\
    Callbacks.every execute_body (VArray items) arrow context w
    = (Ok (VBoolean match items with [] => true | _ :: _ => false end), w).
Proof.
  intros execute_body params body context items w Hparams arrow. subst arrow.
  unfold Callbacks.filter, Callbacks.map, Callbacks.find, Callbacks.some, Callbacks.every.
  repeat split.
  - unfold St.bind.
    rewrite (@filter_from_refused execute_body params body context Hparams). reflexivity.
  - unfold St.bind.
    rewrite (@map_from_refused execute_body params body context Hparams). reflexivity.
  - apply find_from_refused. exact Hparams.
  - unfold St.bind.
    rewrite (@some_from_refused execute_body params body context Hparams). reflexivity.
  - destruct items as [|item rest]; [reflexivity|].
    cbn [Callbacks.every_from]. unfold St.bind at 1. unfold St.bind at 1.
    rewrite (@test_element_refused execute_body params body context Hparams). reflexivity.
Qed.

Lemma refused_arrow_degrades_silently_witness :
  Callbacks.filter (run_body (Identifier "a")) (VArray [VNumber 1; VNumber 2])
    (ArrowFunctionExpression
       [Identifier "a"; Identifier "b"; Identifier "c"; Identifier "d"] (Identifier "a"))
    empty_context fresh_world
  = (Ok (VArray []), fresh_world).
Proof.
  refine (proj1 (@refused_arrow_degrades_silently (run_body (Identifier "a"))
                   [Identifier "a"; Identifier "b"; Identifier "c"; Identifier "d"]
                   (Identifier "a") empty_context [VNumber 1; VNumber 2] fresh_world _)).
  simpl. lia.
Defined.

(** ** Parser: template holes *)

Lemma after_prefix_app : forall pre s rest,
  SecurityValidator.after_prefix pre s = Some rest -> s = pre ++ rest.
Proof.
  induction pre as [|a pre IH]; intros s rest H; simpl in *.
  - now inversion H.
  - destruct s as [|b s]; [discriminate|].
    destruct (Ascii.eqb a b) eqn:E; [|discriminate].
    apply Ascii.eqb_eq in E. subst b. simpl. f_equal. apply IH. exact H.
Qed.

Lemma hole_body_app : forall s body,
  ASTParser.hole_body s = Some body -> exists rest, s = body ++ "}}" ++ rest.
Proof.
  induction s as [|c s IH]; intros body H; simpl in H; [discriminate|].
  destruct (Ascii.eqb c ASTParser.lbrace) eqn:L; [discriminate|].
  destruct (Ascii.eqb c ASTParser.rbrace) eqn:R.
  - destruct s as [|d s']; [discriminate|].
    destruct (Ascii.eqb d ASTParser.rbrace) eqn:R2; [|discriminate].
    inversion H; subst. apply Ascii.eqb_eq in R, R2. subst. exists s'. reflexivity.
  - destruct (ASTParser.hole_body s) as [body'|] eqn:B; [|discriminate].
    simpl in H. inversion H; subst. destruct (IH body' eq_refl) as [rest Hrest].
    exists rest. simpl. now rewrite Hrest.
Qed.

Lemma hole_here_app : forall s body,
  ASTParser.hole_here s = Some body -> exists rest, s = ("{{" ++ body ++ "}}") ++ rest.
Proof.
  intros s body H. unfold ASTParser.hole_here in H.
  destruct (SecurityValidator.after_prefix "{{" s) as [r|] eqn:A; [|discriminate].
  apply after_prefix_app in A. apply hole_body_app in H. destruct H as [rest Hr].
  exists rest. subst. simpl. rewrite append_assoc. reflexivity.
Qed.

(** What the loop finds in [s], the part of the template after [pre]. *)
Lemma extract_from_located : forall s pre skip m,
  In m (ASTParser.extract_from s (String.length pre) skip) ->
  located (pre ++ s) m.
Proof.
  induction s as [|c s IH]; intros pre skip m H; simpl in H; [contradiction|].
  assert (Hnext : forall k, In m (ASTParser.extract_from s (S (String.length pre)) k) ->
                            located (pre ++ String c s) m).
  { intros k Hk.
    replace (pre ++ String c s) with ((pre ++ String c "") ++ s)
      by (rewrite append_assoc; reflexivity).
    apply (IH (pre ++ String c "") k).
    rewrite append_length. simpl. rewrite Nat.add_1_r. exact Hk. }
  destruct skip as [|k]; [|apply (Hnext k); exact H].
  destruct (ASTParser.hole_here (String c s)) as [body|] eqn:Hh; [|apply (Hnext 0); exact H].
  apply in_app_or in H. destruct H as [H|H]; [|eapply Hnext; exact H].
  destruct (String.eqb (Str.trim body) "") eqn:E; [contradiction|].
  destruct H as [<-|[]]. apply String.eqb_neq in E.
  destruct (hole_here_app _ Hh) as [rest Hrest].
  unfold located. cbn [m_startIndex m_endIndex fullMatch expression].
  rewrite Hrest. split; [|split; [|split; [|split]]].
  - exact (slice_app pre ("{{" ++ body ++ "}}") rest).
  - reflexivity.
  - rewrite ?append_length. simpl. rewrite ?append_length. simpl. lia.
  - exact E.
  - exists body. split; reflexivity.
Qed.

Lemma ordered_from_weaken : forall ms p q,
  q <= p -> ordered_from p ms -> ordered_from q ms.
Proof.
  intros [|m rest] p q Hle H; simpl in *; [exact I|].
  destruct H as (H1 & H2 & H3). repeat split; [lia | exact H2 | exact H3].
Qed.

Lemma extract_from_ordered : forall s index skip,
  ordered_from (index + skip) (ASTParser.extract_from s index skip).
Proof.
  induction s as [|c s IH]; intros index skip; simpl; [exact I|].
  destruct skip as [|k].
  - destruct (ASTParser.hole_here (String c s)) as [body|] eqn:Hh.
    + assert (Hlen : 4 <= String.length ("{{" ++ body ++ "}}")).
      { simpl. rewrite append_length. simpl. lia. }
      specialize (IH (S index) (String.length ("{{" ++ body ++ "}}") - 1)).
      replace (S index + (String.length ("{{" ++ body ++ "}}") - 1))
        with (index + String.length ("{{" ++ body ++ "}}")) in IH by lia.
      destruct (String.eqb (Str.trim body) ""); simpl.
      * eapply ordered_from_weaken; [|exact IH]. lia.
      * repeat split; [lia | lia | exact IH].
    + eapply ordered_from_weaken; [|apply (IH (S index) 0)]. lia.
  - replace (index + S k) with (S index + k) by lia. apply IH.
Qed.

Lemma extracted_all_located : forall template,
  Forall (located template) (ASTParser.extractTemplateExpressions template).
Proof.
  intros template. unfold ASTParser.extractTemplateExpressions.
  apply Forall_forall. intros m Hm.
  apply (@extract_from_located template "" 0 m). exact Hm.
Qed.

(** X19. The matches [extractTemplateExpressions] returns come in
    increasing order without overlap, and each sits where it says: the
    template text from its start index to its end index is its full match,
    a hole [{{body}}] inside the template, and its expression is the body
    trimmed and is not empty. *)
Theorem extracted_holes_are_located :
  forall template,
    ordered_from 0 (ASTParser.extractTemplateExpressions template) /\
    Forall (located template) (ASTParser.extractTemplateExpressions template).
Proof.
  intros template. split.
  - apply (extract_from_ordered template 0 0).
  - apply extracted_all_located.
Qed.

Lemma replace_loop_own_text : forall template matches w,
  Forall (located template) matches ->
  ASTParser.replace_loop (fun _ m => St.ret (fullMatch m)) matches template w
  = (Ok template, w).
Proof.
  intros template matches w H. induction H as [|m rest Hm _ IH]; simpl; [reflexivity|].
  unfold St.bind, St.ret. destruct Hm as [Hm _]. rewrite <- Hm. exact IH.
Qed.

(** X20. [replaceTemplateExpressions] touches the holes only: with a
    replacer that returns each hole's own text, the result is the template,
    character for character. *)
Theorem replace_with_own_text_is_identity :
  forall template w,
    ASTParser.replaceTemplateExpressions template (fun _ m => St.ret (fullMatch m)) w
    = (Ok template, w).
Proof.
  intros template w. unfold ASTParser.replaceTemplateExpressions.
  apply replace_loop_own_text. apply Forall_rev.
  apply extracted_all_located.
Qed.

Lemma extract_from_found : forall s index skip,
  ASTParser.extract_from s index skip <> [] ->
  ASTParser.hasTemplateExpressions s = true.
Proof.
  unfold ASTParser.hasTemplateExpressions.
  induction s as [|c s IH]; intros index skip H; simpl in H; [contradiction|].
  cbn [SecurityValidator.somewhere].
  destruct skip as [|k].
  - destruct (ASTParser.hole_here (String c s)) as [body|] eqn:Hh; [reflexivity|].
    simpl. eapply IH. exact H.
  - rewrite (IH _ _ H). apply orb_true_r.
Qed.

(** X21. A text that [hasTemplateExpressions] does not take for a template
    has no match to extract: every text with a hole to fill is routed to
    the template path. *)
Theorem text_without_hole_has_no_match :
  forall text,
    ASTParser.hasTemplateExpressions text = false ->
    ASTParser.extractTemplateExpressions text = [].
Proof.
  intros text H. unfold ASTParser.extractTemplateExpressions.
  destruct (ASTParser.extract_from text 0 0) as [|m rest] eqn:E; [reflexivity|].
  assert (Hfound : ASTParser.hasTemplateExpressions text = true).
  { apply (@extract_from_found text 0 0). rewrite E. discriminate. }
  congruence.
Qed.

Lemma text_without_hole_has_no_match_witness :
  ASTParser.extractTemplateExpressions "a + b" = [].
Proof.
  apply (@text_without_hole_has_no_match "a + b"). reflexivity.
Defined.

(** ** Orchestrator: templates and modes *)

(** X22. The other way round fails: a text whose holes are all blank
    ([{{}}], [{{ }}]) is taken for a template and has no match. When the
    template cache does not answer, [evaluateTemplate] then succeeds with
    the text unchanged, the blank holes still in it, and no hole record. *)
Theorem blank_holes_are_left_in_place :
  forall template context w,
    ASTParser.extractTemplateExpressions template = [] ->
    (if enableCaching (options w)
     then JsMap.get (templateCache w) (Kangaroo.getTemplateCacheKey template context)
     else None) = None ->
    exists w',
      Kangaroo.evaluateTemplate template context w
      = (Ok (TemplateSuccess template []), w').
Proof.
  intros template context w Hnone Hmiss.
  unfold Kangaroo.evaluateTemplate, St.bind at 1, St.get at 1. cbv beta iota.
  rewrite Hmiss, Hnone. simpl.
  unfold St.try_catch, St.bind, St.ret. simpl.
  destruct (enableCaching (options w)); eexists; reflexivity.
Qed.

Lemma blank_holes_are_left_in_place_witness :
  ASTParser.hasTemplateExpressions "{{ }} and {{}}" = true /\
  exists w',
    Kangaroo.evaluateTemplate "{{ }} and {{}}" empty_context fresh_world
    = (Ok (TemplateSuccess "{{ }} and {{}}" []), w').
Proof.
  split; [reflexivity|].
  apply (@blank_holes_are_left_in_place "{{ }} and {{}}" empty_context fresh_world);
    reflexivity.
Defined.

Lemma lacks_cons : forall c d s,
  lacks c (String d s) = true -> Ascii.eqb c d = false /\ lacks c s = true.
Proof.
  intros c d s H. unfold lacks in *. simpl in H.
  apply andb_true_iff in H. destruct H as [H1 H2].
  split; [now apply negb_true_iff in H1 | exact H2].
Qed.

Lemma hole_here_plain : forall c s,
  Ascii.eqb ASTParser.lbrace c = false -> ASTParser.hole_here (String c s) = None.
Proof.
  intros c s H. unfold ASTParser.hole_here.
  change "{{" with (String ASTParser.lbrace (String ASTParser.lbrace "")).
  cbn [SecurityValidator.after_prefix]. now rewrite H.
Qed.

Lemma extract_from_plain : forall pre s index,
  lacks ASTParser.lbrace pre = true ->
  ASTParser.extract_from (pre ++ s) index 0
  = ASTParser.extract_from s (index + String.length pre) 0.
Proof.
  induction pre as [|c pre IH]; intros s index H; simpl.
  - now rewrite Nat.add_0_r.
  - apply lacks_cons in H. destruct H as [Hc Hpre].
    cbn [ASTParser.extract_from]. rewrite (@hole_here_plain c (pre ++ s) Hc).
    rewrite (IH s (S index) Hpre). f_equal. lia.
Qed.

Lemma extract_from_plain_end : forall post index,
  lacks ASTParser.lbrace post = true ->
  ASTParser.extract_from post index 0 = [].
Proof.
  intros post index H. rewrite <- (append_empty post).
  rewrite (extract_from_plain post "" index H). reflexivity.
Qed.

Lemma extract_from_skip : forall a b index,
  ASTParser.extract_from (a ++ b) index (String.length a)
  = ASTParser.extract_from b (index + String.length a) 0.
Proof.
  induction a as [|c a IH]; intros b index; simpl.
  - now rewrite Nat.add_0_r.
  - rewrite IH. f_equal. lia.
Qed.

Lemma hole_body_found : forall body rest,
  lacks ASTParser.lbrace body = true -> lacks ASTParser.rbrace body = true ->
  ASTParser.hole_body
    (body ++ String ASTParser.rbrace (String ASTParser.rbrace rest)) = Some body.
Proof.
  induction body as [|c body IH]; intros rest Hl Hr.
  - reflexivity.
  - apply lacks_cons in Hl. apply lacks_cons in Hr.
    destruct Hl as [Hl1 Hl2]. destruct Hr as [Hr1 Hr2].
    rewrite Ascii.eqb_sym in Hl1. rewrite Ascii.eqb_sym in Hr1.
    cbn [String.append ASTParser.hole_body].
    rewrite Hl1, Hr1. rewrite (IH rest Hl2 Hr2). reflexivity.
Qed.

Lemma extract_from_hole : forall c s index body,
  ASTParser.hole_here (String c s) = Some body ->
  ASTParser.extract_from (String c s) index 0
  = ((if String.eqb (Str.trim body) "" then []
      else [mkMatch ("{{" ++ body ++ "}}") (Str.trim body) index
              (index + String.length ("{{" ++ body ++ "}}"))
              (Str.includes (String (ascii_of_nat 10) "") (Str.trim body))]) ++
     ASTParser.extract_from s (S index) (String.length ("{{" ++ body ++ "}}") - 1))%list.
Proof. intros c s index body H. cbn [ASTParser.extract_from]. rewrite H. reflexivity. Qed.

Lemma extract_one_hole : forall pre body post,
  lacks ASTParser.lbrace pre = true ->
  lacks ASTParser.lbrace body = true -> lacks ASTParser.rbrace body = true ->
  lacks ASTParser.lbrace post = true ->
  Str.trim body <> "" ->
  ASTParser.extractTemplateExpressions (pre ++ "{{" ++ body ++ "}}" ++ post)
  = [the_hole pre body].
Proof.
  intros pre body post Hpre Hbl Hbr Hpost Htrim.
  unfold ASTParser.extractTemplateExpressions.
  rewrite (extract_from_plain pre _ 0 Hpre).
  change ("{{" ++ body ++ "}}" ++ post)
    with (String "{" (String "{" (body ++ "}}" ++ post))).
  assert (Hh : ASTParser.hole_here (String "{" (String "{" (body ++ "}}" ++ post)))
               = Some body).
  { unfold ASTParser.hole_here.
    change "{{" with (String ASTParser.lbrace (String ASTParser.lbrace "")).
    change (String "{" (String "{" (body ++ "}}" ++ post)))
      with (String ASTParser.lbrace (String ASTParser.lbrace
              (body ++ String ASTParser.rbrace (String ASTParser.rbrace post)))).
    cbn [SecurityValidator.after_prefix]. rewrite !Ascii.eqb_refl.
    apply hole_body_found; assumption. }
  rewrite (@extract_from_hole _ _ (0 + String.length pre) body Hh).
  apply String.eqb_neq in Htrim. rewrite Htrim.
  replace (String "{" (body ++ "}}" ++ post)) with ((String "{" (body ++ "}}")) ++ post)
    by (simpl; rewrite append_assoc; reflexivity).
  replace (String.length ("{{" ++ body ++ "}}") - 1)
    with (String.length (String "{" (body ++ "}}"))) by (simpl; lia).
  rewrite extract_from_skip. rewrite (extract_from_plain_end _ _ Hpost).
  reflexivity.
Qed.

(** X23. A template with one hole is filled in place. For a template
    [pre{{body}}post] whose [pre] and [post] hold no opening brace and whose
    body holds no brace and is not blank: when the template cache does not
    answer, the expression (the body trimmed) evaluates to a value and the
    value serializes to a text, [evaluateTemplate] succeeds with [pre], that
    text and [post] in a row, and one hole record that carries the
    expression, the value and the indices of the hole. *)
Theorem one_hole_template_is_filled_in_place :
  forall pre body post context w v w1 text w2,
    lacks ASTParser.lbrace pre = true ->
    lacks ASTParser.lbrace body = true -> lacks ASTParser.rbrace body = true ->
    lacks ASTParser.lbrace post = true ->
    Str.trim body <> "" ->
    (if enableCaching (options w)
     then JsMap.get (templateCache w)
            (Kangaroo.getTemplateCacheKey (pre ++ "{{" ++ body ++ "}}" ++ post) context)
     else None) = None ->
    Kangaroo.evaluateExpression (Str.trim body) context w = (Ok (Success v), w1) ->
    Kangaroo.serializeValue v w1 = (Ok text, w2) ->
    exists w3,
      Kangaroo.evaluateTemplate (pre ++ "{{" ++ body ++ "}}" ++ post) context w
      = (Ok (TemplateSuccess (pre ++ text ++ post)
               [mkProcessed (Str.trim body) v (String.length pre)
                  (String.length pre + String.length ("{{" ++ body ++ "}}"))]),
         w3).
Proof.
  intros pre body post context w v w1 text w2 Hpre Hbl Hbr Hpost Htrim Hmiss Heval Hser.
  unfold Kangaroo.evaluateTemplate, St.bind at 1, St.get at 1. cbv beta iota.
  rewrite Hmiss. rewrite (extract_one_hole pre body post Hpre Hbl Hbr Hpost Htrim).
  cbn [List.rev List.app Kangaroo.process_holes].
  unfold St.try_catch.
  unfold St.bind at 1. unfold St.bind at 1.
  unfold Kangaroo.process_hole. cbn [expression the_hole].
  unfold St.bind at 1. rewrite Heval.
  unfold St.bind at 1.
  assert (Htext : (if Js.nullish v then St.ret "" else Kangaroo.serializeValue v) w1
                  = (Ok text, w2)).
  { destruct (Js.nullish v) eqn:N; [|exact Hser].
    unfold Kangaroo.serializeValue in Hser. rewrite N in Hser. exact Hser. }
  rewrite Htext. cbn [St.ret fst snd m_startIndex m_endIndex the_hole List.app].
  replace (Str.take (String.length pre) (pre ++ "{{" ++ body ++ "}}" ++ post)) with pre
    by (now rewrite take_app).
  replace (Str.drop (String.length pre + String.length ("{{" ++ body ++ "}}"))
             (pre ++ "{{" ++ body ++ "}}" ++ post)) with post.
  2:{ rewrite <- append_length.
      replace (pre ++ "{{" ++ body ++ "}}" ++ post)
        with ((pre ++ "{{" ++ body ++ "}}") ++ post).
      - now rewrite drop_app.
      - rewrite !append_assoc. reflexivity. }
  destruct (enableCaching (options w)).
  - unfold St.bind, Kangaroo.setTemplateCached, St.modify, St.ret. eexists. reflexivity.
  - unfold St.bind, St.ret. eexists. reflexivity.
Qed.

Lemma one_hole_template_is_filled_in_place_witness :
  exists w3,
    Kangaroo.evaluateTemplate ("Value: " ++ "{{" ++ " x " ++ "}}" ++ "!")
      first_context identifier_world
    = (Ok (TemplateSuccess ("Value: " ++ "first" ++ "!")
             [mkProcessed (Str.trim " x ") (VString "first") (String.length "Value: ")
                (String.length "Value: " + String.length ("{{" ++ " x " ++ "}}"))]),
       w3).
Proof.
  apply (@one_hole_template_is_filled_in_place "Value: " " x " "!" first_context
           identifier_world (VString "first")
           (snd (Kangaroo.evaluateExpression (Str.trim " x ") first_context identifier_world))
           "first"
           (snd (Kangaroo.evaluateExpression (Str.trim " x ") first_context identifier_world))).
  - reflexivity.
  - reflexivity.
  - reflexivity.
  - reflexivity.
  - intros H. vm_compute in H. discriminate H.
  - reflexivity.
  - vm_compute. reflexivity.
  - vm_compute. reflexivity.
Defined.

(** X24. With [strictMode] off the security validator is not consulted.
    For an expression that parses within the complexity and depth caps,
    [evaluateExpression] returns what the executor returns for the tree,
    whatever violations the tree holds, and the validator's state after it
    is the one the execution left. *)
Theorem non_strict_mode_skips_validation :
  forall w expr parsed context,
    ASTParser.parse w expr = Some parsed ->
    PrimFloat.ltb (maxComplexity (options w)) (complexity_score parsed) = false ->
    PrimFloat.ltb (maxDepth (options w)) (depth parsed) = false ->
    strictMode (options w) = false ->
    fst (Kangaroo.evaluateExpression expr context w)
    = fst (Executor.execute (ast parsed) context w) /\
    validator (snd (Kangaroo.evaluateExpression expr context w))
    = validator (snd (Executor.execute (ast parsed) context w)).
Proof.
  intros w expr parsed context Hparse Hc Hd Hstrict.
  assert (Hnever : forall m, fst (Executor.execute (ast parsed) context w) <> Throw m).
  { intros m. unfold Executor.execute, Executor.execute_with.
    unfold St.bind at 1. unfold Executor.update at 1, St.modify at 1.
    unfold St.try_finally, St.try_catch.
    match goal with
    | |- fst (let '(r, w1) := match ?body with _ => _ end in _) <> _ =>
        destruct body as [[a| |] w1]
    end; discriminate. }
  remember (Kangaroo.evaluateExpression expr context w) as outcome eqn:E.
  unfold Kangaroo.evaluateExpression, St.try_catch in E.
  unfold St.bind at 1, St.get at 1 in E. rewrite Hparse, Hc, Hd, Hstrict in E.
  unfold St.bind at 1 in E. unfold St.ret at 1 in E.
  unfold St.bind at 1 in E.
  destruct (Executor.execute (ast parsed) context w) as [[result| |] w1]; cbn [fst snd] in *.
  - destruct result; unfold St.bind, Kangaroo.update_stats, St.modify, St.ret in E;
      subst outcome; split; reflexivity.
  - exfalso. apply (Hnever message). reflexivity.
  - subst outcome. split; reflexivity.
Qed.

Lemma non_strict_mode_skips_validation_witness :
  SecurityValidator.validateNode [] [] (Identifier "eval") (Some empty_context) <> [] /\
  fst (Kangaroo.evaluateExpression "eval" empty_context lenient_world)
  = fst (Executor.execute (Identifier "eval") empty_context lenient_world).
Proof.
  split; [discriminate|].
  refine (proj1 (@non_strict_mode_skips_validation lenient_world "eval"
                   (mkParsed (Identifier "eval") 0.5 0) empty_context _ _ _ _));
    reflexivity.
Defined.

(** ** Invariants of an instance *)

(** A property of the instance that the writes of the sources keep is kept
    by every evaluation. The writes are: the executor's stack and counters,
    an insertion into the property cache or the validation cache under a
    key that is not empty, and the orchestrator's counters. *)
Section Preservation.

Variable Inv : World -> Prop.

Hypothesis Inv_executor : forall w e,
  propertyCache e = propertyCache (executor w) ->
  propertyCacheSize e = propertyCacheSize (executor w) ->
  Inv w -> Inv (set_executor w e).
Hypothesis Inv_property_cache : forall key v w,
  key <> "" -> Inv w -> Inv (snd (Executor.setCached key v w)).
Hypothesis Inv_validation_cache : forall key v w,
  key <> "" -> Inv w -> Inv (snd (Validator.setCached key v w)).
Hypothesis Inv_stats : forall w s, Inv w -> Inv (set_kangarooStats w s).

Lemma preserves_ret : forall A (a : A), preserves Inv (St.ret a).
Proof. intros A a w H. exact H. Qed.

Lemma preserves_throw : forall A message, preserves Inv (@St.throw A message).
Proof. intros A m w H. exact H. Qed.

Lemma preserves_unmodelled : forall A, preserves Inv (@St.unmodelled A).
Proof. intros A w H. exact H. Qed.

Lemma preserves_lift : forall A (x : outcome A), preserves Inv (St.lift x).
Proof. intros A x w H. exact H. Qed.

Lemma preserves_host : forall A (x : option A), preserves Inv (St.host x).
Proof. intros A x w H. exact H. Qed.

Lemma preserves_get : preserves Inv St.get.
Proof. intros w H. exact H. Qed.

Lemma preserves_bind : forall A B (m : M A) (f : A -> M B),
  preserves Inv m -> (forall a, preserves Inv (f a)) -> preserves Inv (St.bind m f).
Proof.
  intros A B m f Hm Hf w Hw. unfold St.bind.
  specialize (Hm w Hw). destruct (m w) as [[a| |] w1]; simpl in *; try exact Hm.
  apply Hf. exact Hm.
Qed.

Lemma preserves_try_catch : forall A (body : M A) handler,
  preserves Inv body -> (forall e, preserves Inv (handler e)) ->
  preserves Inv (St.try_catch body handler).
Proof.
  intros A body handler Hb Hh w Hw. unfold St.try_catch.
  specialize (Hb w Hw). destruct (body w) as [[a| |] w1]; simpl in *; try exact Hb.
  apply Hh. exact Hb.
Qed.

Lemma preserves_try_finally : forall A (body : M A) cleanup,
  preserves Inv body -> (forall w, Inv w -> Inv (cleanup w)) ->
  preserves Inv (St.try_finally body cleanup).
Proof.
  intros A body cleanup Hb Hc w Hw. unfold St.try_finally.
  specialize (Hb w Hw). destruct (body w) as [r w1]. simpl in *.
  apply Hc. exact Hb.
Qed.

Lemma preserves_mapM : forall A B (f : A -> M B) l,
  Forall (fun x => preserves Inv (f x)) l -> preserves Inv (St.mapM f l).
Proof.
  intros A B f l H. induction H as [|x l Hx _ IH]; cbn [St.mapM].
  - apply preserves_ret.
  - apply preserves_bind; [exact Hx|]. intros y.
    apply preserves_bind; [exact IH|]. intros ys. apply preserves_ret.
Qed.

(** The executor's writes outside its cache: the stack and the counters. *)
Lemma preserves_update : forall f,
  (forall e, propertyCache (f e) = propertyCache e /\
             propertyCacheSize (f e) = propertyCacheSize e) ->
  preserves Inv (Executor.update f).
Proof.
  intros f Hf w Hw. unfold Executor.update, St.modify. simpl.
  apply Inv_executor; [apply Hf | apply Hf | exact Hw].
Qed.

Lemma preserves_update_stats : forall f, preserves Inv (Kangaroo.update_stats f).
Proof. intros f w Hw. apply Inv_stats. exact Hw. Qed.

Ltac pres_step :=
  first
    [ assumption
    | apply preserves_ret | apply preserves_throw | apply preserves_unmodelled
    | apply preserves_lift | apply preserves_host | apply preserves_get
    | apply preserves_update_stats
    | apply preserves_update; intros ?; split; reflexivity
    | apply preserves_bind; [|intros ?]
    | apply preserves_try_catch; [|intros ?]
    | match goal with
      | |- preserves _ (match ?x with _ => _ end) => destruct x
      | |- preserves _ (if ?b then _ else _) => destruct b
      | |- preserves _ (let '(_, _) := ?x in _) => destruct x
      end ].

Ltac pres := repeat pres_step.

Lemma getCacheKey_not_empty : forall w node context key,
  Validator.getCacheKey w node context = Ok key -> key <> "".
Proof.
  intros w node context key H. unfold Validator.getCacheKey in H.
  destruct context as [c|].
  - destruct (Js.JSON_stringify (context_value c)) as [[j|]|]; try discriminate.
    inversion H. apply append_is_not_empty, key_is_not_empty.
  - inversion H. apply append_is_not_empty, key_is_not_empty.
Qed.

Lemma preserves_validate : forall node context,
  preserves Inv (Validator.validate node context).
Proof.
  intros node context w Hw. unfold Validator.validate, St.bind, St.get, St.lift.
  destruct (Validator.getCacheKey w node context) as [key| |] eqn:K; try exact Hw.
  destruct (JsMap.get (validationCache (validator w)) key); [exact Hw|].
  change (Inv (snd (Validator.setCached key (Validator.compute w node context) w))).
  apply Inv_validation_cache; [|exact Hw].
  eapply getCacheKey_not_empty. exact K.
Qed.

Lemma preserves_safePropertyAccess : forall object property,
  preserves Inv (Executor.safePropertyAccess object property).
Proof.
  intros. unfold Executor.safePropertyAccess.
  apply preserves_bind; [apply preserves_lift|intros propertyText].
  assert (Hset : forall v,
            preserves Inv (Executor.setCached (Js.typeof object ++ ":" ++ propertyText) v)).
  { intros v w Hw. apply Inv_property_cache; [|exact Hw]. apply key_is_not_empty. }
  repeat first [ apply Hset | pres_step ].
Qed.

Lemma preserves_executeFunction : forall name args,
  preserves Inv (Executor.executeFunction name args).
Proof. intros. unfold Executor.executeFunction. pres. Qed.

Lemma preserves_executeMethod : forall object methodName args,
  preserves Inv (Executor.executeMethod object methodName args).
Proof. intros. unfold Executor.executeMethod. pres. Qed.

Lemma preserves_checkStackDepth : preserves Inv Executor.checkStackDepth.
Proof. unfold Executor.checkStackDepth. pres. Qed.

Lemma Inv_stack : forall w n, Inv w -> Inv (set_executor w (Executor.set_stack n (executor w))).
Proof. intros w n Hw. apply Inv_executor; [reflexivity | reflexivity | exact Hw]. Qed.

Lemma preserves_execute_with : forall walk,
  preserves Inv walk -> preserves Inv (Executor.execute_with walk).
Proof.
  intros walk H. unfold Executor.execute_with.
  apply preserves_bind; [pres|intros _].
  apply preserves_try_finally; [pres | intros w Hw; apply Inv_stack; exact Hw].
Qed.

Section CallbacksPreserve.

Variable execute_body : ExpressionContext -> M EvaluationResult.
Hypothesis Hbody : forall c, preserves Inv (execute_body c).

Lemma preserves_validateArrowFunction : forall arrowNode,
  preserves Inv (Callbacks.validateArrowFunction arrowNode).
Proof.
  intros. unfold Callbacks.validateArrowFunction.
  repeat first [ apply preserves_validate | pres_step ].
Qed.

Lemma preserves_executeCallback : forall arrowNode args context,
  preserves Inv (Callbacks.executeCallback execute_body arrowNode args context).
Proof.
  intros. unfold Callbacks.executeCallback.
  repeat first [ apply preserves_validateArrowFunction | apply Hbody | pres_step ].
Qed.

Lemma preserves_test_element : forall array arrowNode context item index,
  preserves Inv (Callbacks.test_element execute_body array arrowNode context item index).
Proof.
  intros. unfold Callbacks.test_element.
  repeat first [ apply preserves_executeCallback | pres_step ].
Qed.

Ltac loop_step IH :=
  first [ apply preserves_test_element | apply preserves_executeCallback
        | apply IH | pres_step ].

Lemma preserves_filter : forall array arrowNode context,
  preserves Inv (Callbacks.filter execute_body array arrowNode context).
Proof.
  intros. unfold Callbacks.filter. destruct array; pres.
  generalize 0. generalize (VArray elements).
  induction elements as [|item rest IH]; intros array index;
    cbn [Callbacks.filter_from]; repeat loop_step IH.
Qed.

Lemma preserves_map : forall array arrowNode context,
  preserves Inv (Callbacks.map execute_body array arrowNode context).
Proof.
  intros. unfold Callbacks.map. destruct array; pres.
  generalize 0. generalize (VArray elements).
  induction elements as [|item rest IH]; intros array index;
    cbn [Callbacks.map_from]; repeat loop_step IH.
Qed.

Lemma preserves_find : forall array arrowNode context,
  preserves Inv (Callbacks.find execute_body array arrowNode context).
Proof.
  intros. unfold Callbacks.find. destruct array; pres.
  generalize 0. generalize (VArray elements).
  induction elements as [|item rest IH]; intros array index;
    cbn [Callbacks.find_from]; repeat loop_step IH.
Qed.

Lemma preserves_some : forall array arrowNode context,
  preserves Inv (Callbacks.some execute_body array arrowNode context).
Proof.
  intros. unfold Callbacks.some. destruct array; pres.
  generalize 0. generalize (VArray elements).
  induction elements as [|item rest IH]; intros array index;
    cbn [Callbacks.some_from]; repeat loop_step IH.
Qed.

Lemma preserves_every : forall array arrowNode context,
  preserves Inv (Callbacks.every execute_body array arrowNode context).
Proof.
  intros. unfold Callbacks.every. destruct array; pres.
  generalize 0. generalize (VArray elements).
  induction elements as [|item rest IH]; intros array index;
    cbn [Callbacks.every_from]; repeat loop_step IH.
Qed.

Lemma preserves_reduce : forall array arrowNode initialValue context,
  preserves Inv (Callbacks.reduce execute_body array arrowNode initialValue context).
Proof.
  intros. unfold Callbacks.reduce. destruct array; pres.
  generalize 0. revert initialValue. generalize (VArray elements).
  induction elements as [|item rest IH]; intros array accumulator index;
    cbn [Callbacks.reduce_from]; unfold Callbacks.reduce_step; repeat loop_step IH.
Qed.

End CallbacksPreserve.

Lemma preserves_executeCallbackMethod : forall array methodName args context,
  Forall (sound_arg Inv) args ->
  preserves Inv (Executor.executeCallbackMethod array methodName args context).
Proof.
  intros array methodName args context Hargs.
  unfold Executor.executeCallbackMethod.
  destruct Hargs as [|a rest Ha Hrest]; [pres|].
  destruct a as [[callbackArg run]|v]; simpl in Ha.
  - repeat first
      [ apply preserves_filter | apply preserves_map | apply preserves_find
      | apply preserves_some | apply preserves_every | apply preserves_reduce
      | exact Ha | pres_step ].
  - pres.
Qed.

Lemma preserves_bind_with : forall A B (Q : A -> Prop) (m : M A) (f : A -> M B),
  preserves_with Inv Q m -> (forall a, Q a -> preserves Inv (f a)) ->
  preserves Inv (St.bind m f).
Proof.
  intros A B Q m f Hm Hf w Hw. unfold St.bind.
  destruct (Hm w Hw) as [Ho Hq]. destruct (m w) as [[a| |] w1]; simpl in *; try exact Ho.
  apply (Hf a (Hq a eq_refl)). exact Ho.
Qed.

Lemma preserves_with_ret : forall A (Q : A -> Prop) a, Q a -> preserves_with Inv Q (St.ret a).
Proof.
  intros A Q a Ha w Hw. split; [exact Hw|]. intros x Hx. inversion Hx. subst. exact Ha.
Qed.

Lemma preserves_with_bind :
  forall A B (Q : A -> Prop) (R : B -> Prop) (m : M A) (f : A -> M B),
  preserves_with Inv Q m -> (forall a, Q a -> preserves_with Inv R (f a)) ->
  preserves_with Inv R (St.bind m f).
Proof.
  intros A B Q R m f Hm Hf w Hw. unfold St.bind.
  destruct (Hm w Hw) as [Ho Hq]. destruct (m w) as [[a| |] w1]; cbn [fst snd] in *.
  - apply (Hf a (Hq a eq_refl) w1 Ho).
  - split; [exact Ho | intros ? Hx; discriminate].
  - split; [exact Ho | intros ? Hx; discriminate].
Qed.

Lemma classify_arg_preserves : forall context arg,
  node_preserves_deep Inv arg ->
  preserves_with Inv (sound_arg Inv) (classify_arg context arg).
Proof.
  intros context arg [Hself Hdeep].
  assert (Hplain : preserves_with Inv (sound_arg Inv)
            (St.bind (Executor.executeNode arg context)
               (fun v => St.ret (inr v : Executor.CallbackArg)))).
  { intros w1 Hw1. split.
    - revert w1 Hw1. apply preserves_bind; [apply Hself|intros ?; apply preserves_ret].
    - intros a Ha. unfold St.bind in Ha.
      destruct (Executor.executeNode arg context w1) as [[v| |] w2];
        simpl in Ha; try discriminate.
      inversion Ha. exact I. }
  destruct arg; try exact Hplain.
  intros w1 Hw1. split; [exact Hw1|].
  intros a Ha. inversion Ha. simpl. intros c.
  apply preserves_execute_with. apply Hdeep.
Qed.

Lemma Forall_node_preserves : forall l,
  Forall (node_preserves_deep Inv) l -> Forall (node_preserves Inv) l.
Proof. intros l H. eapply Forall_impl; [|exact H]. intros n [Hn _]. exact Hn. Qed.

Ltac use_node :=
  match goal with
  | H : node_preserves _ ?n |- preserves _ (Executor.executeNode ?n _) => apply H
  end.

Ltac tread_step :=
  first
    [ use_node
    | apply preserves_checkStackDepth
    | apply preserves_safePropertyAccess | apply preserves_executeFunction
    | apply preserves_executeMethod
    | pres_step ].

Ltac tread := repeat tread_step.

Ltac enter_frame :=
  intros context; cbn [Executor.executeNode];
  apply preserves_bind; [apply preserves_checkStackDepth | intros _];
  apply preserves_bind; [pres | intros _];
  apply preserves_try_finally; [| intros ? ?; apply Inv_stack; assumption].

Lemma executeNode_preserves_deep : forall n, node_preserves_deep Inv n.
Proof.
  apply Node_induction.
  - intros v. split; [|exact I]. enter_frame. tread.
  - intros name. split; [|exact I]. enter_frame. tread.
  - intros o p c [Ho _] [Hp _]. split; [|exact Ho]. enter_frame. tread.
  - intros callee args Hcallee Hargs. split; [|exact I].
    pose proof (Forall_node_preserves Hargs) as Hargs'.
    assert (Hall : forall context,
               preserves Inv (St.mapM (fun arg => Executor.executeNode arg context) args)).
    { intros context. apply preserves_mapM. eapply Forall_impl; [|exact Hargs'].
      intros a Ha. apply Ha. }
    enter_frame.
    destruct callee; try solve [tread].
    + apply preserves_bind; [apply Hall|intros ?]. tread.
    + destruct Hcallee as [_ Hobject].
      cbv zeta.
      destruct (Executor.getMethodName _) as [method|]; [|tread].
      destruct (String.eqb method ""); [tread|].
      apply preserves_bind; [apply preserves_get|intros w0].
      match goal with |- preserves _ (if ?b then _ else _) => destruct b end.
      * apply preserves_bind; [apply Hall|intros ?]. tread.
      * apply preserves_bind; [apply Hobject|intros obj].
        match goal with |- preserves _ (if ?b then _ else _) => destruct b end.
        -- eapply preserves_bind_with with (Q := Forall (sound_arg Inv)).
           ++ clear Hall Hargs'. induction Hargs as [|arg rest Harg _ IH].
              ** intros w Hw. split; [exact Hw|]. intros a Ha. inversion Ha. constructor.
              ** intros w.
                 set (loop := fix evaluate_args (args : list Node) : M (list Executor.CallbackArg) := _) in *.
                 change (loop (arg :: rest)) with
                   (St.bind (classify_arg context arg)
                      (fun a => St.bind (loop rest) (fun rest' => St.ret (a :: rest')))).
                 revert w.
                 apply preserves_with_bind with (Q := sound_arg Inv);
                   [apply classify_arg_preserves; exact Harg | intros a Ha].
                 apply preserves_with_bind with (Q := Forall (sound_arg Inv));
                   [exact IH | intros rest' Hrest'].
                 apply preserves_with_ret. constructor; assumption.
           ++ intros evaluatedArgs Hgood. apply preserves_executeCallbackMethod. exact Hgood.
        -- apply preserves_bind; [apply Hall|intros ?]. tread.
  - intros l op r [Hl _] [Hr _]. split; [|exact I]. enter_frame. tread.
  - intros l op r [Hl _] [Hr _]. split; [|exact I]. enter_frame. tread.
  - intros t c a [Ht _] [Hc _] [Ha _]. split; [|exact I]. enter_frame. tread.
  - intros op a [Ha _]. split; [|exact I]. enter_frame. tread.
  - intros elements Helements. split; [|exact I]. enter_frame.
    apply preserves_bind; [|intros ?; tread].
    apply preserves_mapM. eapply Forall_impl; [|exact Helements].
    intros [e|] He; [apply He | apply preserves_ret].
  - intros props Hprops. split; [|exact I]. enter_frame.
    apply preserves_bind; [|intros ?; tread].
    generalize (@nil (string * value)).
    induction Hprops as [|prop rest Hprop _ IH]; intros result.
    + tread.
    + destruct prop; try solve [tread].
      destruct Hprop as [_ [Hk Hv]].
      repeat first [ apply IH | tread_step ].
  - intros c k v [Hk _] [Hv _]. split; [|split; assumption]. enter_frame. tread.
  - intros params body _ [Hbody _]. split; [|exact Hbody]. enter_frame. tread.
  - intros e q _ _. split; [|exact I]. enter_frame. tread.
  - split; [|exact I]. enter_frame. tread.
  - intros t. split; [|exact I]. enter_frame. tread.
Qed.

Lemma execute_preserves : forall n context,
  preserves Inv (Executor.execute n context).
Proof.
  intros. unfold Executor.execute. apply preserves_execute_with.
  apply (executeNode_preserves_deep n).
Qed.

Lemma evaluateExpression_preserves : forall expr context,
  preserves Inv (Kangaroo.evaluateExpression expr context).
Proof.
  intros. unfold Kangaroo.evaluateExpression, Kangaroo.number_text.
  repeat first [ apply preserves_validate | apply execute_preserves | pres_step ].
Qed.

Lemma serializeValue_preserves : forall v, preserves Inv (Kangaroo.serializeValue v).
Proof. intros. unfold Kangaroo.serializeValue. pres. Qed.

Lemma process_holes_preserves : forall context matches result processed,
  preserves Inv (Kangaroo.process_holes context matches result processed).
Proof.
  intros context matches.
  induction matches as [|m rest IH]; intros result processed;
    cbn [Kangaroo.process_holes].
  - pres.
  - unfold Kangaroo.process_hole.
    repeat first
      [ apply evaluateExpression_preserves | apply serializeValue_preserves
      | apply IH | pres_step ].
Qed.

Section WithTemplateCache.

Hypothesis Inv_template_cache : forall key v w,
  key <> "" -> Inv w -> Inv (snd (Kangaroo.setTemplateCached key v w)).

Lemma evaluateTemplate_preserves : forall template context,
  preserves Inv (Kangaroo.evaluateTemplate template context).
Proof.
  intros. unfold Kangaroo.evaluateTemplate.
  repeat first [ apply process_holes_preserves | pres_step ].
  intros w Hw. apply Inv_template_cache; [|exact Hw].
  unfold Kangaroo.getTemplateCacheKey. apply key_is_not_empty.
Qed.

Lemma evaluate_preserves : forall expr context,
  preserves Inv (Kangaroo.evaluate expr context).
Proof.
  intros. unfold Kangaroo.evaluate.
  repeat first
    [ apply evaluateTemplate_preserves | apply evaluateExpression_preserves | pres_step ].
Qed.

End WithTemplateCache.

End Preservation.


(** *** The caches stay within their bounds *)

Lemma JsMap_set_length : forall V (m : JsMap.t V) k v,
  List.length (JsMap.set m k v) <= S (List.length m).
Proof.
  induction m as [|[k' v'] m IH]; intros k v; simpl; [lia|].
  destruct (String.eqb k k'); simpl; [lia|]. specialize (IH k v). lia.
Qed.

Lemma JsMap_set_not_empty : forall V (m : JsMap.t V) k v, JsMap.set m k v <> [].
Proof.
  intros V [|[k' v'] m] k v; simpl; [discriminate|].
  destruct (String.eqb k k'); discriminate.
Qed.

Lemma JsMap_set_keys : forall V (P : string -> Prop) (m : JsMap.t V) k v,
  Forall P (JsMap.keys m) -> P k -> Forall P (JsMap.keys (JsMap.set m k v)).
Proof.
  intros V P m k v Hm Hk. unfold JsMap.keys in *.
  induction m as [|[k' v'] m IH]; simpl.
  - constructor; [exact Hk|constructor].
  - inversion Hm; subst. destruct (String.eqb k k'); simpl.
    + constructor; assumption.
    + constructor; [assumption|]. apply IH. assumption.
Qed.

Lemma cache_insert_ok : forall V maxSize (cache : JsMap.t V) size key v,
  0 < maxSize -> key <> "" ->
  cache_ok maxSize cache size ->
  cache_ok maxSize (fst (cache_insert maxSize cache size key v))
                   (snd (cache_insert maxSize cache size key v)).
Proof.
  intros V maxSize cache size key v Hmax Hkey (Hlen & Hsize & Hempty & Hkeys).
  unfold cache_insert.
  destruct (Nat.leb_spec maxSize size) as [Hfull|Hroom].
  - destruct cache as [|[k0 v0] rest]; [specialize (Hempty eq_refl); lia|].
    simpl JsMap.first_key. cbv iota beta.
    inversion Hkeys as [|? ? Hk0 Hrest]; subst.
    destruct (String.eqb k0 "") eqn:E; [apply String.eqb_eq in E; contradiction|].
    simpl JsMap.delete. rewrite String.eqb_refl. cbn [fst snd].
    simpl in Hlen. pose proof (JsMap_set_length rest key v).
    repeat split.
    + lia.
    + lia.
    + intros Habs. exfalso. eapply JsMap_set_not_empty. exact Habs.
    + apply JsMap_set_keys; assumption.
  - cbn [fst snd]. pose proof (JsMap_set_length cache key v).
    repeat split.
    + lia.
    + lia.
    + intros Habs. exfalso. eapply JsMap_set_not_empty. exact Habs.
    + apply JsMap_set_keys; assumption.
Qed.

Lemma caches_bounded_executor : forall w e,
  propertyCache e = propertyCache (executor w) ->
  propertyCacheSize e = propertyCacheSize (executor w) ->
  caches_bounded w -> caches_bounded (set_executor w e).
Proof.
  intros w e Hc Hs (Hv & Hp & Ht). unfold caches_bounded. simpl.
  rewrite Hc, Hs. tauto.
Qed.

Lemma caches_bounded_property_cache : forall key v w,
  key <> "" -> caches_bounded w -> caches_bounded (snd (Executor.setCached key v w)).
Proof.
  intros key v w Hkey (Hv & Hp & Ht).
  pose proof (@cache_insert_ok _ Executor.maxCacheSize _ _ key v
                ltac:(unfold Executor.maxCacheSize; lia) Hkey Hp) as Hok.
  unfold Executor.setCached, Executor.update, St.modify. cbn [snd].
  destruct (cache_insert _ _ _ _ _) as [cache size]. cbn [fst snd] in Hok.
  unfold caches_bounded. simpl. tauto.
Qed.

Lemma caches_bounded_validation_cache : forall key v w,
  key <> "" -> caches_bounded w -> caches_bounded (snd (Validator.setCached key v w)).
Proof.
  intros key v w Hkey (Hv & Hp & Ht).
  pose proof (@cache_insert_ok _ SecurityValidator.maxCacheSize _ _ key v
                ltac:(unfold SecurityValidator.maxCacheSize; lia) Hkey Hv) as Hok.
  unfold Validator.setCached, St.modify. cbn [snd].
  destruct (cache_insert _ _ _ _ _) as [cache size]. cbn [fst snd] in Hok.
  unfold caches_bounded. simpl. tauto.
Qed.

Lemma caches_bounded_template_cache : forall key v w,
  key <> "" -> caches_bounded w -> caches_bounded (snd (Kangaroo.setTemplateCached key v w)).
Proof.
  intros key v w Hkey (Hv & Hp & Ht).
  pose proof (@cache_insert_ok _ Kangaroo.maxTemplateCacheSize _ _ key v
                ltac:(unfold Kangaroo.maxTemplateCacheSize; lia) Hkey Ht) as Hok.
  unfold Kangaroo.setTemplateCached, St.modify. cbn [snd].
  destruct (cache_insert _ _ _ _ _) as [cache size]. cbn [fst snd] in Hok.
  unfold caches_bounded. simpl. tauto.
Qed.

Lemma caches_bounded_stats : forall w s,
  caches_bounded w -> caches_bounded (set_kangarooStats w s).
Proof. intros w s H. exact H. Qed.

(** X25. The three caches of an instance stay within their bounds through
    every call of [evaluate]: on an instance whose caches are within bounds
    (a fresh one is), whatever the expression, the context and the outcome,
    the validation cache holds at most 500 entries afterwards, the property
    cache at most 1000 and the template cache at most 100, and each size
    counter is between the number of entries and the maximum. *)
Theorem evaluate_keeps_caches_bounded :
  forall expr context w,
    caches_bounded w ->
    caches_bounded (snd (Kangaroo.evaluate expr context w)) /\
    List.length (validationCache (validator (snd (Kangaroo.evaluate expr context w)))) <= 500 /\
    List.length (propertyCache (executor (snd (Kangaroo.evaluate expr context w)))) <= 1000 /\
    List.length (templateCache (snd (Kangaroo.evaluate expr context w))) <= 100.
Proof.
  intros expr context w Hw.
  assert (H : caches_bounded (snd (Kangaroo.evaluate expr context w))).
  { revert w Hw.
    apply (@evaluate_preserves caches_bounded
             caches_bounded_executor caches_bounded_property_cache
             caches_bounded_validation_cache caches_bounded_stats
             caches_bounded_template_cache). }
  split; [exact H|].
  destruct H as ((Hv1 & Hv2 & _) & (Hp1 & Hp2 & _) & (Ht1 & Ht2 & _)).
  unfold SecurityValidator.maxCacheSize, Executor.maxCacheSize,
    Kangaroo.maxTemplateCacheSize in *.
  lia.
Qed.

Lemma fresh_instance_caches_bounded : forall parser json registry rules types opts,
  caches_bounded (Kangaroo.new parser json registry rules types opts).
Proof.
  intros. unfold caches_bounded, cache_ok. simpl.
  unfold SecurityValidator.maxCacheSize, Executor.maxCacheSize,
    Kangaroo.maxTemplateCacheSize.
  repeat split; try lia; constructor.
Qed.

Lemma evaluate_keeps_caches_bounded_witness :
  List.length
    (templateCache (snd (Kangaroo.evaluate "Value: {{x}}" first_context identifier_world)))
  <= 100.
Proof.
  apply (@evaluate_keeps_caches_bounded "Value: {{x}}" first_context identifier_world).
  apply fresh_instance_caches_bounded.
Defined.



(** *** The template cache is written by successful templates only *)

Lemma process_holes_keeps_template_cache :
  forall cache size context matches result processed,
    preserves (template_cache_is cache size)
      (Kangaroo.process_holes context matches result processed).
Proof.
  intros cache size. apply process_holes_preserves.
  - intros w e _ _ H. exact H.
  - intros key v w _ H. exact H.
  - intros key v w _ H. unfold Validator.setCached, St.modify. cbn [snd].
    destruct (cache_insert _ _ _ _ _). exact H.
  - intros w s H. exact H.
Qed.

(** X26. A template that fails is not cached: whenever [evaluateTemplate]
    answers with the error result, the template cache and its counter are
    what they were before the call, so the next call evaluates the holes
    again. *)
Theorem failed_template_is_not_cached :
  forall template context w message w',
    Kangaroo.evaluateTemplate template context w = (Ok (TemplateFailure message), w') ->
    templateCache w' = templateCache w /\ templateCacheSize w' = templateCacheSize w.
Proof.
  intros template context w message w' H.
  unfold Kangaroo.evaluateTemplate, St.bind at 1, St.get at 1 in H. cbv beta iota in H.
  destruct (if enableCaching (options w)
            then JsMap.get (templateCache w)
                   (Kangaroo.getTemplateCacheKey template context)
            else None) as [cached|].
  - unfold St.bind, Kangaroo.update_stats, St.modify, St.ret in H.
    inversion H; subst. split; reflexivity.
  - unfold St.try_catch in H.
    pose proof (@process_holes_keeps_template_cache
                  (templateCache w) (templateCacheSize w)
                  context (List.rev (ASTParser.extractTemplateExpressions template))
                  template [] w (conj eq_refl eq_refl)) as Hframe.
    unfold St.bind at 1 in H.
    destruct (Kangaroo.process_holes context _ template [] w) as [[done| |] w1];
      cbn [snd] in Hframe.
    + exfalso. destruct (enableCaching (options w)).
      * unfold St.bind, Kangaroo.setTemplateCached, St.modify, St.ret in H. discriminate.
      * unfold St.bind, St.ret in H. discriminate.
    + unfold St.ret in H. inversion H; subst. exact Hframe.
    + discriminate.
Qed.

Lemma failed_template_is_not_cached_witness :
  templateCache (snd (Kangaroo.evaluateTemplate "{{x}}" empty_context fresh_world))
  = templateCache fresh_world /\
  templateCacheSize (snd (Kangaroo.evaluateTemplate "{{x}}" empty_context fresh_world))
  = templateCacheSize fresh_world.
Proof.
  apply (@failed_template_is_not_cached "{{x}}" empty_context fresh_world
           "Invalid syntax: x").
  vm_compute. reflexivity.
Defined.

(** ** The gates in front of the executor *)

Lemma validate_touches_validator_only : forall node context w validation w1,
  Validator.validate node context w = (Ok validation, w1) ->
  executor w1 = executor w /\ kangarooStats w1 = kangarooStats w /\
  templateCache w1 = templateCache w.
Proof.
  intros node context w validation w1 H.
  unfold Validator.validate, St.bind, St.get, St.lift in H.
  destruct (Validator.getCacheKey w node context) as [key| |]; try discriminate.
  destruct (JsMap.get (validationCache (validator w)) key) as [cached|].
  - inversion H; subst. repeat split.
  - unfold Validator.setCached, St.modify, St.ret in H.
    destruct (cache_insert _ _ _ _ _) as [cache size].
    inversion H; subst. repeat split.
Qed.

(** X27. The gates of [evaluateExpression] come in a fixed order and each
    stops before the executor. A text that does not parse gives a [syntax]
    failure; a parsed one over the complexity cap gives a [complexity]
    failure, whatever its depth; one within the complexity cap and over the
    depth cap gives a [complexity] failure too; in the three cases the state
    is untouched. In strict mode a tree the validator does not accept gives
    a [security] failure that joins the violation messages, and only the
    validator's state may change: the executor's state and the evaluation
    counters are what they were, so none of these failures is counted. *)
Theorem gates_stop_before_execution :
  forall w expr context,
    (ASTParser.parse w expr = None ->
     Kangaroo.evaluateExpression expr context w
     = (Ok (Failure ("Invalid syntax: " ++ expr) syntax), w)) /\
    (forall parsed,
       ASTParser.parse w expr = Some parsed ->
       PrimFloat.ltb (maxComplexity (options w)) (complexity_score parsed) = true ->
       Kangaroo.evaluateExpression expr context w
       = (Ok (Failure ("Expression too complex (" ++
                       Js.Number_toString (complexity_score parsed) ++ " > " ++
                       Js.Number_toString (maxComplexity (options w)) ++ ")")
                complexity), w)) /\
    (forall parsed,
       ASTParser.parse w expr = Some parsed ->
       PrimFloat.ltb (maxComplexity (options w)) (complexity_score parsed) = false ->
       PrimFloat.ltb (maxDepth (options w)) (depth parsed) = true ->
       Kangaroo.evaluateExpression expr context w
       = (Ok (Failure ("Expression too deep (" ++
                       Js.Number_toString (depth parsed) ++ " > " ++
                       Js.Number_toString (maxDepth (options w)) ++ ")")
                complexity), w)) /\
    (forall parsed validation w1,
       ASTParser.parse w expr = Some parsed ->
       PrimFloat.ltb (maxComplexity (options w)) (complexity_score parsed) = false ->
       PrimFloat.ltb (maxDepth (options w)) (depth parsed) = false ->
       strictMode (options w) = true ->
       Validator.validate (ast parsed) (Some context) w = (Ok validation, w1) ->
       isValid validation = false ->
       Kangaroo.evaluateExpression expr context w
       = (Ok (Failure ("Security violation: " ++
                       Str.join "; " (List.map v_message (violations validation)))
                security), w1) /\
       executor w1 = executor w /\ kangarooStats w1 = kangarooStats w).
Proof.
  intros w expr context.
  split; [|split; [|split]].
  - intros Hparse. unfold Kangaroo.evaluateExpression, St.try_catch.
    unfold St.bind, St.get. rewrite Hparse. reflexivity.
  - intros parsed Hparse Hc. unfold Kangaroo.evaluateExpression, St.try_catch.
    unfold St.bind at 1, St.get at 1. rewrite Hparse, Hc. reflexivity.
  - intros parsed Hparse Hc Hd. unfold Kangaroo.evaluateExpression, St.try_catch.
    unfold St.bind at 1, St.get at 1. rewrite Hparse, Hc, Hd. reflexivity.
  - intros parsed validation w1 Hparse Hc Hd Hstrict Hv Hinvalid. split.
    + unfold Kangaroo.evaluateExpression, St.try_catch.
      unfold St.bind at 1, St.get at 1. rewrite Hparse, Hc, Hd, Hstrict.
      unfold St.bind at 1. unfold St.bind at 1. rewrite Hv. rewrite Hinvalid.
      reflexivity.
    + destruct (@validate_touches_validator_only _ _ _ _ _ Hv) as (He & Hs & _).
      split; assumption.
Qed.

Lemma gates_stop_before_execution_witness :
  Kangaroo.evaluateExpression "x +" empty_context fresh_world
  = (Ok (Failure ("Invalid syntax: " ++ "x +") syntax), fresh_world) /\
  executor (snd (Kangaroo.evaluateExpression "eval" empty_context identifier_world))
  = executor identifier_world.
Proof.
  split.
  - apply (proj1 (@gates_stop_before_execution fresh_world "x +" empty_context)).
    reflexivity.
  - refine (proj1 (proj2 (proj2 (proj2 (proj2
             (@gates_stop_before_execution identifier_world "eval" empty_context)))
             (mkParsed (Identifier "eval") 0.5 0)
             (Validator.compute identifier_world (Identifier "eval") (Some empty_context))
             (snd (Kangaroo.evaluateExpression "eval" empty_context identifier_world))
             _ _ _ _ _ _))).
    + reflexivity.
    + reflexivity.
    + reflexivity.
    + reflexivity.
    + vm_compute. reflexivity.
    + reflexivity.
Defined.

(** ** Security validator: string literals *)

Lemma lower_length : forall s, String.length (Str.lower s) = String.length s.
Proof. induction s as [|c s IH]; simpl; [reflexivity | now rewrite IH]. Qed.

(** X28. The check of a string literal does not see the case of its ASCII
    letters: two literals with the same lower-cased text raise the same
    violations, pattern by pattern, and the same length warning. *)
Theorem literal_check_ignores_letter_case :
  forall s1 s2,
    Str.lower s1 = Str.lower s2 ->
    SecurityValidator.validateLiteral (VString s1)
    = SecurityValidator.validateLiteral (VString s2).
Proof.
  intros s1 s2 H.
  assert (Hlen : String.length s1 = String.length s2).
  { rewrite <- (lower_length s1), <- (lower_length s2). now rewrite H. }
  unfold SecurityValidator.validateLiteral. rewrite Hlen. f_equal.
  unfold SecurityValidator.dangerousPatterns. cbn [flat_map fst snd].
  unfold SecurityValidator.test_literal, SecurityValidator.test_call_form,
    SecurityValidator.test_event_handler.
  rewrite H. reflexivity.
Qed.

Lemma literal_check_ignores_letter_case_witness :
  SecurityValidator.validateLiteral (VString "JavaScript:go")
  = SecurityValidator.validateLiteral (VString "javascript:GO").
Proof.
  apply (@literal_check_ignores_letter_case "JavaScript:go" "javascript:GO").
  reflexivity.
Defined.
